(** * My Daily Calorie Tracker: the encrypted record store of the main process

    A shallow embedding of the IPC handlers of the Electron main process
    (verify-password, get-daily-entries, save-daily-entry, delete-daily-entry,
    save-app-data, search-entries, export-data) and of the zod schemas in
    validation.ts, followed by theorems relating them to the storage
    specification.  The handlers of the settings, of the saved password and
    of the data path (get-app-data, set-password, get-saved-password,
    clear-saved-password, get-data-path), the renderer code that calls them
    (the password screen, the session check of App, the dashboard's edits
    of today's record) and the totals of calculations.ts are embedded as
    well; their properties close the file.

    Conventions of the embedding.
    - JavaScript strings are [string]s whose characters stand for the code
      units 0..255.
    - JavaScript numbers are the whole numbers ([VNum]) and NaN ([VNaN]).
      Up to 2^53 in magnitude every whole number is an IEEE double, a sum
      that stays within that range is exact, and a number prints as its
      decimal digits: there [js_plus] and [ToString] are the program's [+]
      and string conversion, and the statements that depend on a sum are
      made within that range.  Fractional numbers, and whole numbers
      beyond it, are outside the embedding.
    - The module-level variables [dataPath] and [encryptionPassword], and the
      contents of the data folder, form the [World] the handlers run in;
      every handler is a state transformer on it.
    - The npm packages (crypto-js, gray-matter) and the engine built-ins
      (JSON, Date, string-to-number conversion) are the fields of a
      [Runtime]; the handlers are generic in it.  A reference runtime at the
      end of the definitions makes the handlers executable; a second one
      carries the cipher of crypto-js itself. *)

From Stdlib Require Import String Ascii List ZArith Lia Bool.
From Stdlib Require Import Permutation Sorted DecimalString.

Set Warnings "-register-all".
Import ListNotations.

Local Open Scope string_scope.
Local Open Scope Z_scope.

(** ** JavaScript strings *)

Module Js.

Definition nl : string := String "010"%char EmptyString.
Definition dquote : string := String "034"%char EmptyString.

Fixpoint drop (n : nat) (s : string) : string :=
  match n, s with
  | O, _ => s
  | S n', String _ s' => drop n' s'
  | S _, EmptyString => EmptyString
  end.

(** [s.includes(sub)] *)
Fixpoint includes (s sub : string) {struct s} : bool :=
  if String.prefix sub s then true
  else match s with
       | EmptyString => false
       | String _ s' => includes s' sub
       end.

(** [s.endsWith(suffix)] *)
Fixpoint endsWith (s suffix : string) {struct s} : bool :=
  if String.eqb s suffix then true
  else match s with
       | EmptyString => false
       | String _ s' => endsWith s' suffix
       end.

(** [s.replace(pattern, replacement)] with a string pattern: only the first
    occurrence is replaced. *)
Fixpoint replace (s pattern replacement : string) {struct s} : string :=
  if String.prefix pattern s
  then replacement ++ drop (String.length pattern) s
  else match s with
       | EmptyString => EmptyString
       | String c s' => String c (replace s' pattern replacement)
       end.

Definition lower_ascii (c : ascii) : ascii :=
  let n := nat_of_ascii c in
  if ((65 <=? n) && (n <=? 90))%nat then ascii_of_nat (n + 32)
  else if ((192 <=? n) && (n <=? 222) && negb (n =? 215))%nat
       then ascii_of_nat (n + 32)
       else c.

(** [s.toLowerCase()] *)
Fixpoint toLowerCase (s : string) : string :=
  match s with
  | EmptyString => EmptyString
  | String c s' => String (lower_ascii c) (toLowerCase s')
  end.

Definition is_space (c : ascii) : bool :=
  let n := nat_of_ascii c in
  (((9 <=? n) && (n <=? 13)) || (n =? 32) || (n =? 160))%nat.

Fixpoint trimStart (s : string) : string :=
  match s with
  | String c s' => if is_space c then trimStart s' else s
  | EmptyString => EmptyString
  end.

Fixpoint rev_onto (s acc : string) : string :=
  match s with
  | EmptyString => acc
  | String c s' => rev_onto s' (String c acc)
  end.

Definition rev (s : string) : string := rev_onto s EmptyString.

(** [s.trim()] *)
Definition trim (s : string) : string := rev (trimStart (rev (trimStart s))).

(** [parts.join(sep)] *)
Fixpoint join (sep : string) (parts : list string) : string :=
  match parts with
  | [] => EmptyString
  | [p] => p
  | p :: rest => p ++ sep ++ join sep rest
  end.

(** Number::toString on an integer. *)
Definition string_of_Z (n : Z) : string := NilZero.string_of_int (Z.to_int n).

Definition string_of_nat (n : nat) : string := string_of_Z (Z.of_nat n).

(** [a >= b] and [a <= b] on two strings: code-unit lexicographic order. *)
Definition str_ge (a b : string) : bool := String.leb b a.
Definition str_le (a b : string) : bool := String.leb a b.

End Js.

(** ** JavaScript values *)

(** An object is the list of its own properties in property order (the
    records have no key that is an array index, which the engine would
    move to the front). *)
Inductive value : Type :=
| VUndef
| VNull
| VBool (b : bool)
| VNum (n : Z)
| VNaN
| VStr (s : string)
| VArr (elems : list value)
| VObj (props : list (string * value)).

Definition props := list (string * value).

Fixpoint lookup {A : Type} (k : string) (l : list (string * A)) : option A :=
  match l with
  | [] => None
  | (k', v) :: l' => if String.eqb k k' then Some v else lookup k l'
  end.

(** Assignment to the key [k] of an object or of a directory: an existing
    key keeps its place, a new one goes last. *)
Fixpoint set_key {A : Type} (k : string) (v : A) (l : list (string * A))
  : list (string * A) :=
  match l with
  | [] => [(k, v)]
  | (k', v') :: l' =>
      if String.eqb k k' then (k, v) :: l' else (k', v') :: set_key k v l'
  end.

Fixpoint remove_key {A : Type} (k : string) (l : list (string * A))
  : list (string * A) :=
  match l with
  | [] => []
  | (k', v') :: l' =>
      if String.eqb k k' then l' else (k', v') :: remove_key k l'
  end.

(** What a handler can throw. *)
Inductive js_error : Type :=
| DataPathNotSet      (* Error('Data path not set. ...') of ensureDataPath *)
| ENOENT              (* fs: no such file *)
| SyntaxError         (* JSON.parse *)
| YAMLException       (* gray-matter on a malformed front matter *)
| MalformedUtf8       (* crypto-js: Error('Malformed UTF-8 data') *)
| TypeError.          (* property access on undefined/null, call of a non-function *)

Inductive exc (A : Type) : Type :=
| Ok (a : A)
| Throw (e : js_error).
Arguments Ok {A} a.
Arguments Throw {A} e.

Definition exc_bind {A B} (c : exc A) (k : A -> exc B) : exc B :=
  match c with
  | Ok a => k a
  | Throw e => Throw e
  end.

Declare Scope exc_scope.
Delimit Scope exc_scope with exc.
Bind Scope exc_scope with exc.
Notation "x <- c ;; k" := (exc_bind c (fun x => k))
  (at level 61, c at next level, right associativity) : exc_scope.
Notation "' pat <- c ;; k" := (exc_bind c (fun x => match x with pat => k end))
  (at level 61, pat pattern, c at next level, right associativity) : exc_scope.

Definition of_option {A} (e : js_error) (o : option A) : exc A :=
  match o with
  | Some a => Ok a
  | None => Throw e
  end.

Fixpoint mapM {A B} (f : A -> exc B) (l : list A) : exc (list B) :=
  match l with
  | [] => Ok []
  | a :: l' =>
      match f a with
      | Throw e => Throw e
      | Ok b => match mapM f l' with
                | Throw e => Throw e
                | Ok bs => Ok (b :: bs)
                end
      end
  end.

(** [arr.reduce(f, init)] with a callback that may throw. *)
Fixpoint reduceM {A B} (f : B -> A -> exc B) (l : list A) (init : B) : exc B :=
  match l with
  | [] => Ok init
  | a :: l' =>
      match f init a with
      | Throw e => Throw e
      | Ok b => reduceM f l' b
      end
  end.

(** [arr.filter(pred)] with a predicate that may throw. *)
Fixpoint filterM {A} (pred : A -> exc bool) (l : list A) : exc (list A) :=
  match l with
  | [] => Ok []
  | a :: l' =>
      match pred a with
      | Throw e => Throw e
      | Ok b => match filterM pred l' with
                | Throw e => Throw e
                | Ok r => Ok (if b then a :: r else r)
                end
      end
  end.

(** [arr.some(pred)]: stops at the first element that satisfies [pred]. *)
Fixpoint someM {A} (pred : A -> exc bool) (l : list A) : exc bool :=
  match l with
  | [] => Ok false
  | a :: l' =>
      match pred a with
      | Throw e => Throw e
      | Ok true => Ok true
      | Ok false => someM pred l'
      end
  end.

(** *** Property access, truthiness, conversions *)

(** [v.k] for a data property [k].  The handlers read only the names date,
    notes, meals, foods, name, tags, exercise, caloriesBurned, weight, water,
    glasses, calories, protein, carbs and fats, none of which is a built-in
    member of a string, number, boolean or array. *)
Definition get_prop (v : value) (k : string) : exc value :=
  match v with
  | VUndef | VNull => Throw TypeError
  | VObj ps => Ok (match lookup k ps with Some x => x | None => VUndef end)
  | _ => Ok VUndef
  end.

(** The receiver of [.reduce], [.forEach] and [.some] must be an array. *)
Definition as_array (v : value) : exc (list value) :=
  match v with
  | VArr l => Ok l
  | _ => Throw TypeError
  end.

(** [v?.k] *)
Definition get_prop_opt (v : value) (k : string) : value :=
  match v with
  | VObj ps => match lookup k ps with Some x => x | None => VUndef end
  | _ => VUndef
  end.

Definition truthy (v : value) : bool :=
  match v with
  | VUndef | VNull | VNaN => false
  | VBool b => b
  | VNum n => negb (n =? 0)
  | VStr s => negb (String.eqb s "")
  | VArr _ | VObj _ => true
  end.

(** [a || b], [b] evaluated only when [a] is falsy. *)
Definition js_or (a : value) (b : exc value) : exc value :=
  if truthy a then Ok a else b.

(** ToString.  A whole number below 10^21 prints as its decimal digits. *)
Fixpoint ToString (v : value) : string :=
  match v with
  | VUndef => "undefined"
  | VNull => "null"
  | VBool true => "true"
  | VBool false => "false"
  | VNum n => Js.string_of_Z n
  | VNaN => "NaN"
  | VStr s => s
  | VArr l =>
      Js.join ","
        (map (fun x => match x with
                       | VUndef | VNull => ""
                       | _ => ToString x
                       end) l)
  | VObj _ => "[object Object]"
  end.

(** ToPrimitive, then: a string stays a string, anything else goes to a
    number ([None] is NaN). *)
Definition to_primitive (v : value) : string + option Z :=
  match v with
  | VStr s => inl s
  | VArr _ | VObj _ => inl (ToString v)
  | VUndef | VNaN => inr None
  | VNull => inr (Some 0)
  | VBool b => inr (Some (if b then 1 else 0))
  | VNum n => inr (Some n)
  end.

(** [a + b].  On two numbers it is the sum of the whole numbers, which is
    the IEEE sum as long as the operands and the sum are at most 2^53 in
    magnitude. *)
Definition js_plus (a b : value) : value :=
  match to_primitive a, to_primitive b with
  | inr (Some x), inr (Some y) => VNum (x + y)
  | inr _, inr _ => VNaN
  | _, _ => VStr (ToString a ++ ToString b)
  end.

(** [{...v}]: the own enumerable properties of [v]. *)
Fixpoint indexed (i : nat) (l : list value) : props :=
  match l with
  | [] => []
  | x :: l' => (Js.string_of_nat i, x) :: indexed (S i) l'
  end.

Fixpoint chars (s : string) : list value :=
  match s with
  | EmptyString => []
  | String c s' => VStr (String c EmptyString) :: chars s'
  end.

Definition spread (v : value) : props :=
  match v with
  | VObj ps => ps
  | VArr l => indexed 0 l
  | VStr s => indexed 0 (chars s)
  | _ => []
  end.

(** A session password or data path held in a [string | null] variable is
    used only when it is truthy. *)
Definition truthy_str (o : option string) : bool :=
  match o with
  | Some s => negb (String.eqb s "")
  | None => false
  end.

(** ** The libraries and engine built-ins the handlers call *)

Class Runtime : Type := {
  (** [JSON.parse(text)]; [None] is a SyntaxError. *)
  JSON_parse : string -> option value;
  (** [JSON.stringify(v, null, 2)] *)
  JSON_stringify : value -> string;
  (** gray-matter, [matter(fileContent)]: the front-matter data and the
      content that follows it; [None] is a YAML exception. *)
  matter : string -> option (value * string);
  (** gray-matter, [matter.stringify(content, data)] *)
  matter_stringify : string -> value -> string;
  (** [CryptoJS.AES.encrypt(text, password).toString()]; the first argument
      is the random salt the library draws for the call. *)
  AES_encrypt : string -> string -> string -> string;
  (** [CryptoJS.AES.decrypt(blob, password).toString(CryptoJS.enc.Utf8)];
      [None] is the Malformed UTF-8 error. *)
  AES_decrypt : string -> string -> option string;
  (** [new Date(v).getTime()]; [None] is NaN. *)
  Date_getTime : value -> option Z;
  (** StringToNumber; [None] is NaN. *)
  StringToNumber : string -> option Z
}.

(** ** validation.ts *)

Module Zod.

Inductive atom : Type :=
| Digit                 (* \d *)
| Lit (c : ascii).

Definition is_digit (c : ascii) : bool :=
  let n := nat_of_ascii c in ((48 <=? n) && (n <=? 57))%nat.

(** A regex of the form /^a1 a2 ... an$/ over single-character atoms. *)
Fixpoint regex_test (pattern : list atom) (s : string) : bool :=
  match pattern, s with
  | [], EmptyString => true
  | Digit :: p, String c s' => is_digit c && regex_test p s'
  | Lit a :: p, String c s' => Ascii.eqb a c && regex_test p s'
  | _, _ => false
  end.

Inductive check : Type :=
| MinLength (n : nat)                        (* .min(n) on a string *)
| Regex (source : string) (pattern : list atom).   (* .regex(/.../) *)

Inductive ztype : Type :=
| ZString (checks : list check)               (* z.string()... *)
| ZNumber (minimum maximum : option Z)        (* z.number().min().max() *)
| ZEnum (options : list string)               (* z.enum([...]) *)
| ZArray (element : ztype)                    (* z.array(...) *)
| ZObject (shape : list (string * ztype))     (* z.object({...}) *)
| ZOptional (inner : ztype).                  (* ....optional() *)

Record issue : Type := mkIssue { path : list string; message : string }.

Definition parsed_type (v : value) : string :=
  match v with
  | VUndef => "undefined"
  | VNull => "null"
  | VBool _ => "boolean"
  | VNum _ => "number"
  | VNaN => "NaN"
  | VStr _ => "string"
  | VArr _ => "array"
  | VObj _ => "object"
  end.

(** The messages are those of the library's default English locale. *)
Definition invalid_type (p : list string) (expected : string) (v : value) : issue :=
  mkIssue p ("Invalid input: expected " ++ expected ++ ", received " ++ parsed_type v).

Definition check_issues (p : list string) (s : string) (c : check) : list issue :=
  match c with
  | MinLength n =>
      if (n <=? String.length s)%nat then []
      else [mkIssue p ("Too small: expected string to have >="
                       ++ Js.string_of_nat n ++ " characters")]
  | Regex source pattern =>
      if regex_test pattern s then []
      else [mkIssue p ("Invalid string: must match pattern " ++ source)]
  end.

Definition minimum_issues (p : list string) (n : Z) (lo : option Z) : list issue :=
  match lo with
  | Some m =>
      if m <=? n then []
      else [mkIssue p ("Too small: expected number to be >=" ++ Js.string_of_Z m)]
  | None => []
  end.

Definition maximum_issues (p : list string) (n : Z) (hi : option Z) : list issue :=
  match hi with
  | Some m =>
      if n <=? m then []
      else [mkIssue p ("Too big: expected number to be <=" ++ Js.string_of_Z m)]
  | None => []
  end.

Definition invalid_option (p : list string) (options : list string) : issue :=
  mkIssue p ("Invalid option: expected one of "
             ++ Js.join "|" (map (fun o => Js.dquote ++ o ++ Js.dquote) options)).

Definition field (k : string) (ps : props) : value :=
  match lookup k ps with
  | Some v => v
  | None => VUndef
  end.

Definition is_undef (v : value) : bool :=
  match v with
  | VUndef => true
  | _ => false
  end.

(** The elements of an array, each parsed under its index. *)
Definition parse_elements (parse_element : list string -> value -> list issue * value)
           (p : list string) : nat -> list value -> list issue * list value :=
  fix elems (i : nat) (l : list value) : list issue * list value :=
    match l with
    | [] => ([], [])
    | x :: l' =>
        let '(is1, o1) := parse_element (p ++ [Js.string_of_nat i])%list x in
        let '(is2, o2) := elems (S i) l' in
        ((is1 ++ is2)%list, o1 :: o2)
    end.

(** The keys of a shape, each parsed on the property of that name; a key
    whose parsed value is [undefined] is left out of the output. *)
Definition parse_fields (parse_field : ztype -> list string -> value -> list issue * value)
           (p : list string) (ps : props)
  : list (string * ztype) -> list issue * props :=
  fix fields (sh : list (string * ztype)) : list issue * props :=
    match sh with
    | [] => ([], [])
    | (k, tk) :: sh' =>
        let '(is1, o1) := parse_field tk (p ++ [k])%list (field k ps) in
        let '(is2, o2) := fields sh' in
        ((is1 ++ is2)%list, if is_undef o1 then o2 else (k, o1) :: o2)
    end.

(** [schema.parse]: every issue of the input, in the order the library visits
    the schema, and the parsed output (unknown keys stripped). *)
Fixpoint parse (t : ztype) (p : list string) (v : value) {struct t}
  : list issue * value :=
  match t with
  | ZString checks =>
      match v with
      | VStr s => (flat_map (check_issues p s) checks, v)
      | _ => ([invalid_type p "string" v], v)
      end
  | ZNumber lo hi =>
      match v with
      | VNum n => ((minimum_issues p n lo ++ maximum_issues p n hi)%list, v)
      | _ => ([invalid_type p "number" v], v)
      end
  | ZEnum options =>
      match v with
      | VStr s =>
          if existsb (String.eqb s) options then ([], v)
          else ([invalid_option p options], v)
      | _ => ([invalid_option p options], v)
      end
  | ZArray element =>
      match v with
      | VArr l =>
          let '(issues, out) := parse_elements (parse element) p O l in
          (issues, VArr out)
      | _ => ([invalid_type p "array" v], v)
      end
  | ZObject shape =>
      match v with
      | VObj ps =>
          let '(issues, out) := parse_fields parse p ps shape in
          (issues, VObj out)
      | _ => ([invalid_type p "object" v], v)
      end
  | ZOptional inner =>
      match v with
      | VUndef => ([], VUndef)
      | _ => parse inner p v
      end
  end.

Definition z_string : ztype := ZString [].
Definition z_number_min (lo : Z) : ztype := ZNumber (Some lo) None.
Definition z_number_min_max (lo hi : Z) : ztype := ZNumber (Some lo) (Some hi).

Definition time_regex : check :=
  Regex "/^\d{2}:\d{2}$/" [Digit; Digit; Lit ":"; Digit; Digit].

Definition date_regex : check :=
  Regex "/^\d{4}-\d{2}-\d{2}$/"
        [Digit; Digit; Digit; Digit; Lit "-"; Digit; Digit; Lit "-"; Digit; Digit].

Definition FoodItemSchema : ztype :=
  ZObject [ ("name", ZString [MinLength 1]);
            ("calories", z_number_min 0);
            ("protein", z_number_min 0);
            ("carbs", z_number_min 0);
            ("fats", z_number_min 0);
            ("servingSize", ZOptional z_string) ].

Definition MealEntrySchema : ztype :=
  ZObject [ ("id", z_string);
            ("mealType", ZEnum ["breakfast"; "lunch"; "dinner"; "snack"]);
            ("time", ZString [time_regex]);
            ("foods", ZArray FoodItemSchema);
            ("notes", ZOptional z_string) ].

Definition ExerciseEntrySchema : ztype :=
  ZObject [ ("id", z_string);
            ("type", ZEnum ["2G"; "3G"; "Tread 50"; "Weight 50"; "Other"]);
            ("caloriesBurned", z_number_min 0);
            ("duration", ZOptional (z_number_min 0));
            ("notes", ZOptional z_string) ].

Definition WaterSchema : ztype :=
  ZObject [ ("glasses", z_number_min_max 0 50);
            ("ounces", z_number_min_max 0 400) ].

Definition DailyEntrySchema : ztype :=
  ZObject [ ("id", ZOptional z_string);
            ("date", ZString [date_regex]);
            ("meals", ZArray MealEntrySchema);
            ("water", WaterSchema);
            ("exercise", ZOptional ExerciseEntrySchema);
            ("weight", ZOptional (z_number_min_max 0 1000));
            ("notes", ZOptional z_string);
            ("tags", ZArray z_string) ].

Definition SavedFoodSchema : ztype :=
  ZObject [ ("id", z_string);
            ("name", ZString [MinLength 1]);
            ("calories", z_number_min 0);
            ("protein", z_number_min 0);
            ("carbs", z_number_min 0);
            ("fats", z_number_min 0);
            ("servingSize", ZOptional z_string);
            ("category", ZOptional z_string);
            ("useCount", z_number_min 0) ].

Definition UserGoalsSchema : ztype :=
  ZObject [ ("dailyCalories", z_number_min_max 500 10000);
            ("protein", z_number_min_max 0 500);
            ("carbs", z_number_min_max 0 1000);
            ("fats", z_number_min_max 0 500);
            ("waterGlasses", z_number_min_max 0 50);
            ("targetWeight", ZOptional (z_number_min_max 0 1000)) ].

Definition WeightEntrySchema : ztype :=
  ZObject [ ("date", ZString [date_regex]);
            ("weight", z_number_min_max 0 1000);
            ("notes", ZOptional z_string) ].

Definition AppDataSchema : ztype :=
  ZObject [ ("savedFoods", ZArray SavedFoodSchema);
            ("recentMeals", ZArray MealEntrySchema);
            ("goals", UserGoalsSchema);
            ("weightHistory", ZArray WeightEntrySchema) ].

Definition render_issue (i : issue) : string :=
  Js.join "." (path i) ++ ": " ++ message i.

(** [validateData(schema, data)]: [inl] is [{ success: true, data }], [inr]
    is [{ success: false, error }]. *)
Definition validateData (schema : ztype) (data : value) : value + string :=
  let '(issues, validated) := parse schema [] data in
  match issues with
  | [] => inl validated
  | _ => inr ("Validation failed: " ++ Js.join ", " (map render_issue issues))
  end.

End Zod.

(** ** The world of the main process *)

(** The calls made to the [fs] module, with their arguments. *)
Inductive fs_call : Type :=
| Mkdir (path : string)
| ExistsSync (path : string)
| Readdir (path : string)
| ReadFile (path : string)
| WriteFile (path content : string)
| Rename (oldPath newPath : string)
| Unlink (path : string).

(** [dataPath] and [encryptionPassword] are the module-level variables of
    the main process.  [daily] is the directory [daily/] of the data folder,
    file name and content, in the order [readdir] lists it; [appData] is the
    content of [app-data.json] when the file exists.  [fsLog] records every
    call to [fs] in the order it is made.  The file system is healthy: a
    call fails only because a file is absent. *)
Record World : Type := mkWorld {
  dataPath : option string;
  encryptionPassword : option string;
  daily : list (string * string);
  appData : option string;
  fsLog : list fs_call
}.

Definition with_password (w : World) (p : option string) : World :=
  mkWorld (dataPath w) p (daily w) (appData w) (fsLog w).

Definition with_daily (w : World) (d : list (string * string)) : World :=
  mkWorld (dataPath w) (encryptionPassword w) d (appData w) (fsLog w).

Definition with_appData (w : World) (a : option string) : World :=
  mkWorld (dataPath w) (encryptionPassword w) (daily w) a (fsLog w).

Definition with_call (w : World) (c : fs_call) : World :=
  mkWorld (dataPath w) (encryptionPassword w) (daily w) (appData w)
          (fsLog w ++ [c])%list.

(** A computation that reads and writes the world and may throw. *)
Definition M (A : Type) : Type := World -> exc A * World.

Definition ret {A} (a : A) : M A := fun w => (Ok a, w).

Definition bind {A B} (m : M A) (k : A -> M B) : M B :=
  fun w => match m w with
           | (Ok a, w') => k a w'
           | (Throw e, w') => (Throw e, w')
           end.

Definition lift {A} (c : exc A) : M A := fun w => (c, w).

Definition get_world : M World := fun w => (Ok w, w).

(** [try { m } catch (error) { h }] *)
Definition catch {A} (m : M A) (h : js_error -> M A) : M A :=
  fun w => match m w with
           | (Ok a, w') => (Ok a, w')
           | (Throw e, w') => h e w'
           end.

(** An IPC handler whose body is one try/catch: it always replies. *)
Definition handler (A : Type) : Type := World -> A * World.

Definition try_handler {A} (m : M A) (on_error : js_error -> A) : handler A :=
  fun w => match m w with
           | (Ok a, w') => (a, w')
           | (Throw e, w') => (on_error e, w')
           end.

Declare Scope io_scope.
Delimit Scope io_scope with io.
Notation "x <- c ;; k" := (bind c (fun x => k))
  (at level 61, c at next level, right associativity) : io_scope.
Notation "c ;;; k" := (bind c (fun _ => k))
  (at level 61, right associativity) : io_scope.

Fixpoint mapIO {A B} (f : A -> M B) (l : list A) : M (list B) :=
  match l with
  | [] => ret []
  | a :: l' => (b <- f a ;; bs <- mapIO f l' ;; ret (b :: bs))%io
  end.

(** *** The fs module on the data folder *)

Definition path_join (a b : string) : string := a ++ "/" ++ b.

Definition call (c : fs_call) : M unit := fun w => (Ok tt, with_call w c).

Definition fs_mkdir (path : string) : M unit := call (Mkdir path).

Definition fs_readdir (dailyPath : string) : M (list string) :=
  (call (Readdir dailyPath) ;;;
   w <- get_world ;;
   ret (map fst (daily w)))%io.

Definition fs_readFile (dailyPath file : string) : M string :=
  (call (ReadFile (path_join dailyPath file)) ;;;
   w <- get_world ;;
   lift (of_option ENOENT (lookup file (daily w))))%io.

Definition fs_writeFile (dailyPath file content : string) : M unit :=
  (call (WriteFile (path_join dailyPath file) content) ;;;
   fun w => (Ok tt, with_daily w (set_key file content (daily w))))%io.

Definition fs_unlink (dailyPath file : string) : M unit :=
  (call (Unlink (path_join dailyPath file)) ;;;
   fun w => match lookup file (daily w) with
            | Some _ => (Ok tt, with_daily w (remove_key file (daily w)))
            | None => (Throw ENOENT, w)
            end)%io.

Definition fs_existsSync_appData (appDataPath : string) : M bool :=
  (call (ExistsSync appDataPath) ;;;
   w <- get_world ;;
   ret (match appData w with Some _ => true | None => false end))%io.

Definition fs_readFile_appData (appDataPath : string) : M string :=
  (call (ReadFile appDataPath) ;;;
   w <- get_world ;;
   lift (of_option ENOENT (appData w)))%io.

Definition fs_writeFile_appData (appDataPath content : string) : M unit :=
  (call (WriteFile appDataPath content) ;;;
   fun w => (Ok tt, with_appData w (Some content)))%io.

(** The export file lies outside the data folder. *)
Definition fs_writeFile_export (filePath content : string) : M unit :=
  call (WriteFile filePath content).

(** The session password, when [if (encryptionPassword)] takes the branch. *)
Definition session_password (w : World) : option string :=
  if truthy_str (encryptionPassword w) then encryptionPassword w else None.

(** ** main.ts: helpers and IPC handlers *)

(** Replies of the save and delete handlers. *)
Inductive reply : Type :=
| Success (id : option value)        (* { success: true } / { success: true, id } *)
| ValidationFailure (error : string) (* { success: false, error: validation.error } *)
| Failure (e : js_error).            (* { success: false, error: String(error) } *)

Inductive export_format : Type := CSV | JSON.

Section Handlers.

Context {rt : Runtime}.

Definition encrypt (salt text password : string) : string :=
  AES_encrypt salt text password.

Definition decrypt (encryptedText password : string) : exc string :=
  of_option MalformedUtf8 (AES_decrypt encryptedText password).

(** [ensureDataPath()]; the handlers read [dataPath!] after it, which is the
    path returned here. *)
Definition ensureDataPath : M string :=
  fun w =>
    match dataPath w with
    | Some p =>
        if String.eqb p "" then (Throw DataPathNotSet, w)
        else (fs_mkdir p ;;;
              fs_mkdir (path_join p "daily") ;;;
              ret p)%io w
    | None => (Throw DataPathNotSet, w)
    end.

Definition set_encryptionPassword (password : string) : M unit :=
  fun w => (Ok tt, with_password w (Some password)).

(** ipcMain.handle('verify-password') *)
Definition verify_password (password : string) : handler bool :=
  try_handler
    (root <- ensureDataPath ;;
     let appDataPath := path_join root "app-data.json" in
     present <- fs_existsSync_appData appDataPath ;;
     if (present : bool) then
       fileContent <- fs_readFile_appData appDataPath ;;
       catch
         (decrypted <- lift (decrypt fileContent password) ;;
          lift (of_option SyntaxError (JSON_parse decrypted)) ;;;
          set_encryptionPassword password ;;;
          ret true)
         (fun _ => ret false)
     else
       set_encryptionPassword password ;;;
       ret true)%io
    (fun _ => false).

(** The body of the callback mapped over the [.md] files, after the file is
    read: split the front matter, decrypt the content when a session
    password is set, parse it, and stamp the id and the date. *)
Definition entryContent (password : option string) (content : string) : string :=
  match password with
  | Some p =>
      match decrypt content p with
      | Ok s => s
      | Throw _ => "[Unable to decrypt entry]"
      end
  | None => content
  end.

Definition decode_entry (password : option string) (file fileContent : string)
  : exc value :=
  ('(data, content) <- of_option YAMLException (matter fileContent) ;;
   entry <- of_option SyntaxError (JSON_parse (entryContent password content)) ;;
   let id := VStr (Js.replace file ".md" "") in
   header_date <- get_prop data "date" ;;
   date <- js_or header_date (get_prop entry "date") ;;
   Ok (VObj (set_key "date" date (set_key "id" id (spread entry)))))%exc.

(** [readdir], the [.md] filter and [Promise.all] over the files: the block
    that get-daily-entries, search-entries and export-data each start with. *)
Definition load_entries (dailyPath : string) : M (list value) :=
  (files <- fs_readdir dailyPath ;;
   let mdFiles := filter (fun f => Js.endsWith f ".md") files in
   contents <- mapIO (fs_readFile dailyPath) mdFiles ;;
   w <- get_world ;;
   lift (mapM (fun fc => decode_entry (session_password w) (fst fc) (snd fc))
              (combine mdFiles contents)))%io.

(** [e.date] on an entry built by [decode_entry]. *)
Definition entry_date (e : value) : value := get_prop_opt e "date".

(** [v >= s] and [v <= s] for a string [s]. *)
Definition js_ge (v : value) (s : string) : bool :=
  match to_primitive v with
  | inl a => Js.str_ge a s
  | inr n => match n, StringToNumber s with
             | Some x, Some y => y <=? x
             | _, _ => false
             end
  end.

Definition js_le (v : value) (s : string) : bool :=
  match to_primitive v with
  | inl a => Js.str_le a s
  | inr n => match n, StringToNumber s with
             | Some x, Some y => x <=? y
             | _, _ => false
             end
  end.

Definition range_filter (startDate endDate : option string) (entries : list value)
  : list value :=
  let filtered := entries in
  let filtered :=
    match startDate with
    | Some s => if truthy_str startDate
                then filter (fun e => js_ge (entry_date e) s) filtered
                else filtered
    | None => filtered
    end in
  match endDate with
  | Some s => if truthy_str endDate
              then filter (fun e => js_le (entry_date e) s) filtered
              else filtered
  | None => filtered
  end.

(** The comparator [(a, b) => new Date(b.date).getTime() -
    new Date(a.date).getTime()]; [None] is NaN. *)
Definition by_date_desc (a b : value) : option Z :=
  match Date_getTime (entry_date b), Date_getTime (entry_date a) with
  | Some tb, Some ta => Some (tb - ta)
  | _, _ => None
  end.

(** [arr.sort(cmp)]: a stable sort; a NaN from the comparator counts as 0.
    With a comparator that is not a consistent order the engine's result is
    implementation-defined, and this is one admissible outcome. *)
Definition keeps_before (cmp : value -> value -> option Z) (x y : value) : bool :=
  match cmp x y with
  | Some d => d <=? 0
  | None => true
  end.

Fixpoint sort_insert (cmp : value -> value -> option Z) (x : value) (l : list value)
  : list value :=
  match l with
  | [] => [x]
  | y :: l' => if keeps_before cmp x y then x :: y :: l'
               else y :: sort_insert cmp x l'
  end.

Fixpoint js_sort (cmp : value -> value -> option Z) (l : list value) : list value :=
  match l with
  | [] => []
  | x :: l' => sort_insert cmp x (js_sort cmp l')
  end.

(** ipcMain.handle('get-daily-entries') *)
Definition get_daily_entries (startDate endDate : option string)
  : handler (list value) :=
  try_handler
    (root <- ensureDataPath ;;
     let dailyPath := path_join root "daily" in
     entries <- load_entries dailyPath ;;
     let filtered := range_filter startDate endDate entries in
     ret (js_sort by_date_desc filtered))%io
    (fun _ => []).

(** [validatedEntry.meals.reduce((sum, meal) => sum +
    meal.foods.reduce((mSum, food) => mSum + food.calories, 0), 0)] *)
Definition food_calories (mSum food : value) : exc value :=
  (c <- get_prop food "calories" ;;
   Ok (js_plus mSum c))%exc.

Definition meal_calories (sum meal : value) : exc value :=
  (foods <- get_prop meal "foods" ;;
   foods <- as_array foods ;;
   mealSum <- reduceM food_calories foods (VNum 0) ;;
   Ok (js_plus sum mealSum))%exc.

Definition totalCalories (validatedEntry : value) : exc value :=
  (meals <- get_prop validatedEntry "meals" ;;
   meals <- as_array meals ;;
   reduceM meal_calories meals (VNum 0))%exc.

(** ipcMain.handle('save-daily-entry'); [salt] is the randomness the cipher
    draws if it is called. *)
Definition save_daily_entry (salt : string) (entry : value) : handler reply :=
  try_handler
    (root <- ensureDataPath ;;
     match Zod.validateData Zod.DailyEntrySchema entry with
     | inr error => ret (ValidationFailure error)
     | inl validatedEntry =>
         date <- lift (get_prop validatedEntry "date") ;;
         let fileName := ToString date ++ ".md" in
         let dailyPath := path_join root "daily" in
         let contentJson := JSON_stringify validatedEntry in
         w <- get_world ;;
         let content :=
           match session_password w with
           | Some p => encrypt salt contentJson p
           | None => contentJson
           end in
         total <- lift (totalCalories validatedEntry) ;;
         let frontmatter :=
           VObj [ ("date", date);
                  ("totalCalories", total);
                  ("encrypted", VBool (truthy_str (encryptionPassword w))) ] in
         let fileContent := matter_stringify content frontmatter in
         fs_writeFile dailyPath fileName fileContent ;;;
         ret (Success (Some date))
     end)%io
    (fun e => Failure e).

(** ipcMain.handle('delete-daily-entry') *)
Definition delete_daily_entry (entryId : string) : handler reply :=
  try_handler
    (root <- ensureDataPath ;;
     let fileName := entryId ++ ".md" in
     let dailyPath := path_join root "daily" in
     fs_unlink dailyPath fileName ;;;
     ret (Success None))%io
    (fun e => Failure e).

(** ipcMain.handle('save-app-data') *)
Definition save_app_data (salt : string) (data : value) : handler reply :=
  try_handler
    (root <- ensureDataPath ;;
     match Zod.validateData Zod.AppDataSchema data with
     | inr error => ret (ValidationFailure error)
     | inl validated =>
         let appDataPath := path_join root "app-data.json" in
         let content := JSON_stringify validated in
         w <- get_world ;;
         let content :=
           match session_password w with
           | Some p => encrypt salt content p
           | None => content
           end in
         fs_writeFile_appData appDataPath content ;;;
         ret (Success None)
     end)%io
    (fun e => Failure e).

(** [s.toLowerCase().includes(lowerQuery)] on a value that must be a string. *)
Definition lower_includes (v : value) (lowerQuery : string) : exc bool :=
  match v with
  | VStr s => Ok (Js.includes (Js.toLowerCase s) lowerQuery)
  | _ => Throw TypeError
  end.

(** The text predicate of search-entries. *)
Definition text_matches (lowerQuery : string) (entry : value) : exc bool :=
  (notes <- get_prop entry "notes" ;;
   in_notes <- match notes with
               | VUndef | VNull => Ok false      (* entry.notes?. *)
               | _ => lower_includes notes lowerQuery
               end ;;
   if (in_notes : bool) then Ok true
   else
     meals <- get_prop entry "meals" ;;
     meals <- as_array meals ;;
     someM (fun meal =>
              foods <- get_prop meal "foods" ;;
              foods <- as_array foods ;;
              someM (fun food =>
                       name <- get_prop food "name" ;;
                       lower_includes name lowerQuery)
                    foods)
           meals)%exc.

(** [entry.tags.includes(tag)]: array membership, or substring search when
    [tags] is a string. *)
Definition tags_include (entry : value) (tag : string) : exc bool :=
  (tags <- get_prop entry "tags" ;;
   match tags with
   | VArr l => Ok (existsb (fun x => match x with
                                     | VStr s => String.eqb s tag
                                     | _ => false
                                     end) l)
   | VStr s => Ok (Js.includes s tag)
   | _ => Throw TypeError
   end)%exc.

Definition search_filter (query : string) (tags : list string)
           (allEntries : list value) : exc (list value) :=
  (let filtered := allEntries in
   filtered <-
     (if negb (String.eqb query "") && negb (String.eqb (Js.trim query) "")
      then let lowerQuery := Js.toLowerCase query in
           filterM (text_matches lowerQuery) filtered
      else Ok filtered) ;;
   match tags with
   | _ :: _ => filterM (fun entry => someM (tags_include entry) tags) filtered
   | [] => Ok filtered
   end)%exc.

(** ipcMain.handle('search-entries') *)
Definition search_entries (query : string) (tags : list string)
  : handler (list value) :=
  try_handler
    (root <- ensureDataPath ;;
     let dailyPath := path_join root "daily" in
     allEntries <- load_entries dailyPath ;;
     lift (search_filter query tags allEntries))%io
    (fun _ => []).

(** The CSV branch of export-data. *)
Definition csv_header : string :=
  "Date,Total Calories,Protein,Carbs,Fats,Exercise Calories,Weight,Water Glasses"
  ++ Js.nl.

Record totals : Type := mkTotals {
  calories : value; protein : value; carbs : value; fats : value
}.

Definition add_food (acc : totals) (food : value) : exc totals :=
  (c <- get_prop food "calories" ;;
   p <- get_prop food "protein" ;;
   cb <- get_prop food "carbs" ;;
   f <- get_prop food "fats" ;;
   Ok (mkTotals (js_plus (calories acc) c) (js_plus (protein acc) p)
                (js_plus (carbs acc) cb) (js_plus (fats acc) f)))%exc.

Definition add_meal (acc : totals) (meal : value) : exc totals :=
  (foods <- get_prop meal "foods" ;;
   foods <- as_array foods ;;
   reduceM add_food foods acc)%exc.

Definition csv_row (entry : value) : exc string :=
  (meals <- get_prop entry "meals" ;;
   meals <- as_array meals ;;
   t <- reduceM add_meal meals (mkTotals (VNum 0) (VNum 0) (VNum 0) (VNum 0)) ;;
   date <- get_prop entry "date" ;;
   exercise <- get_prop entry "exercise" ;;
   burned <- js_or (get_prop_opt exercise "caloriesBurned") (Ok (VNum 0)) ;;
   weight <- get_prop entry "weight" ;;
   weight <- js_or weight (Ok (VStr "")) ;;
   water <- get_prop entry "water" ;;
   glasses <- get_prop water "glasses" ;;
   Ok (Js.join "," (map ToString [ date; calories t; protein t; carbs t; fats t;
                                   burned; weight; glasses ])
       ++ Js.nl))%exc.

Definition csv_of (entries : list value) : exc string :=
  reduceM (fun csv entry => row <- csv_row entry ;; Ok (csv ++ row))%exc
          entries csv_header.

(** ipcMain.handle('export-data'); [dialog] is the file path the save dialog
    returns, [None] when it is canceled. *)
Definition export_data (format : export_format) (startDate endDate : string)
           (dialog : option string) : handler bool :=
  match dialog with
  | Some filePath =>
      if truthy_str dialog then
        try_handler
          (root <- ensureDataPath ;;
           let dailyPath := path_join root "daily" in
           allEntries <- load_entries dailyPath ;;
           let entries := range_filter (Some startDate) (Some endDate) allEntries in
           let entries := js_sort by_date_desc entries in
           match format with
           | JSON =>
               fs_writeFile_export filePath (JSON_stringify (VArr entries)) ;;;
               ret true
           | CSV =>
               csv <- lift (csv_of entries) ;;
               fs_writeFile_export filePath csv ;;;
               ret true
           end)%io
          (fun _ => false)
      else fun w => (false, w)
  | None => fun w => (false, w)
  end.

End Handlers.

(** ** main.ts: get-app-data *)

Section Settings.

Context {rt : Runtime}.

(** The settings get-app-data returns while no settings file exists. *)
Definition default_app_data : value :=
  VObj [ ("goals", VObj [ ("dailyCalories", VNum 2000); ("protein", VNum 150);
                          ("carbs", VNum 200); ("fats", VNum 65);
                          ("targetWeight", VNum 180); ("waterGlasses", VNum 8) ]);
         ("savedFoods", VArr []);
         ("recentMeals", VArr []);
         ("weightHistory", VArr []) ].

(** ipcMain.handle('get-app-data'); the reply [null] is [VNull]. *)
Definition get_app_data : handler value :=
  try_handler
    (root <- ensureDataPath ;;
     let appDataPath := path_join root "app-data.json" in
     present <- fs_existsSync_appData appDataPath ;;
     if negb present then ret default_app_data
     else
       fileContent <- fs_readFile_appData appDataPath ;;
       w <- get_world ;;
       dataJson <- lift (match session_password w with
                         | Some p => decrypt fileContent p
                         | None => Ok fileContent
                         end) ;;
       lift (of_option SyntaxError (JSON_parse dataJson)))%io
    (fun _ => VNull).

End Settings.

(** ** main.ts: the saved password and the persisted data path *)

(** Beside the records, the main process keeps the file [.password] in the
    data folder and the key [dataPath] of the electron-store file, which
    outlives the process.  [world] holds the module variables and the
    records of the data folder in use; [passwordFile] is the content of
    [.password] when the file exists; [storedDataPath] is
    [store.get('dataPath')]. *)
Record Process : Type := mkProcess {
  world : World;
  passwordFile : option string;
  storedDataPath : option string
}.

Definition PASSWORD_FILE : string := ".password".

(** A handler of the record store, run in the process. *)
Definition in_process {A} (h : handler A) : Process -> A * Process :=
  fun p => let '(a, w) := h (world p) in
           (a, mkProcess w (passwordFile p) (storedDataPath p)).

Section Credentials.

Context {rt : Runtime}.

(** ipcMain.handle('get-data-path') *)
Definition get_data_path : Process -> option string * Process :=
  fun p =>
    let w := world p in
    let w := if truthy_str (dataPath w) then w
             else mkWorld (storedDataPath p) (encryptionPassword w) (daily w)
                          (appData w) (fsLog w) in
    (dataPath w, mkProcess w (passwordFile p) (storedDataPath p)).

(** ipcMain.handle('set-password'); [appName] is [app.getName()] and [salt]
    the randomness the cipher draws if it is called. *)
Definition set_password (appName salt password : string) (remember : bool)
  : Process -> bool * Process :=
  fun p =>
    let w := with_password (world p) (Some password) in
    match dataPath w with
    | Some root =>
        if remember && truthy_str (dataPath w) then
          let passwordPath := path_join root PASSWORD_FILE in
          let encrypted := encrypt salt password appName in
          (true, mkProcess (with_call w (WriteFile passwordPath encrypted))
                           (Some encrypted) (storedDataPath p))
        else (true, mkProcess w (passwordFile p) (storedDataPath p))
    | None => (true, mkProcess w (passwordFile p) (storedDataPath p))
    end.

(** ipcMain.handle('get-saved-password'); [None] is the reply [null]. *)
Definition get_saved_password (appName : string) : Process -> option string * Process :=
  fun p =>
    match dataPath (world p) with
    | Some root =>
        if truthy_str (dataPath (world p)) then
          let passwordPath := path_join root PASSWORD_FILE in
          let w := with_call (world p) (ReadFile passwordPath) in
          let decrypted :=
            (encrypted <- of_option ENOENT (passwordFile p) ;;
             decrypt encrypted appName)%exc in
          (match decrypted with
           | Ok s => Some s
           | Throw _ => None
           end,
           mkProcess w (passwordFile p) (storedDataPath p))
        else (None, p)
    | None => (None, p)
    end.

(** ipcMain.handle('clear-saved-password') *)
Definition clear_saved_password : Process -> bool * Process :=
  fun p =>
    match dataPath (world p) with
    | Some root =>
        if truthy_str (dataPath (world p)) then
          let passwordPath := path_join root PASSWORD_FILE in
          let w := with_call (world p) (Unlink passwordPath) in
          match passwordFile p with
          | Some _ => (true, mkProcess w None (storedDataPath p))
          | None => (false, mkProcess w None (storedDataPath p))
          end
        else (false, p)
    | None => (false, p)
    end.

End Credentials.

(** ** The renderer: PasswordScreen, App and Dashboard *)

(** [a * b] *)
Definition js_times {rt : Runtime} (a b : value) : value :=
  let number v := match to_primitive v with
                  | inl s => StringToNumber s
                  | inr n => n
                  end in
  match number a, number b with
  | Some x, Some y => VNum (x * y)
  | _, _ => VNaN
  end.

(** The component state is the tuple of its [useState] cells; the loading
    flag and the toasts are left out. *)
Module PasswordScreen.

Record State : Type := mkState {
  dataPath : option string;
  password : string;
  rememberMe : bool;
  error : string
}.

Section Component.

Context {rt : Runtime}.

(** [handleSubmit]; the second component of the result is the argument of
    [onAuthenticated] when it is called. *)
Definition handleSubmit (appName salt : string) (st : State)
  : Process -> (State * option string) * Process :=
  fun p =>
    match dataPath st with
    | Some path =>
        if negb (truthy_str (dataPath st)) then
          ((mkState (dataPath st) (password st) (rememberMe st)
                    "Please select a data folder first", None), p)
        else if String.eqb (Js.trim (password st)) "" then
          ((mkState (dataPath st) (password st) (rememberMe st)
                    "Please enter a password", None), p)
        else
          let '(isValid, p) := in_process (verify_password (password st)) p in
          if (isValid : bool) then
            let '(_, p) := set_password appName salt (password st) (rememberMe st) p in
            ((mkState (dataPath st) (password st) (rememberMe st) "", Some path), p)
          else
            ((mkState (dataPath st) "" (rememberMe st)
                      "Incorrect password. Please try again.", None), p)
    | None =>
        ((mkState (dataPath st) (password st) (rememberMe st)
                  "Please select a data folder first", None), p)
    end.

End Component.

End PasswordScreen.

Module App.

Inductive AppScreen : Type := password_screen | dashboard | foodLibrary.

Record State : Type := mkState {
  currentScreen : AppScreen;
  isAuthenticated : bool;
  dataPath : option string;
  appData : option value;
  dailyEntries : list value
}.

(** The state the component starts in. *)
Definition initial : State := mkState password_screen false None None [].

Section Component.

Context {rt : Runtime}.

(** [loadAppData] *)
Definition loadAppData (st : State) : Process -> State * Process :=
  fun p =>
    let '(data, p) := in_process get_app_data p in
    let st := if truthy data
              then mkState (currentScreen st) (isAuthenticated st) (dataPath st)
                           (Some data) (dailyEntries st)
              else st in
    let '(entries, p) := in_process (get_daily_entries None None) p in
    (mkState (currentScreen st) (isAuthenticated st) (dataPath st) (appData st)
             entries, p).

(** [checkForSavedSession], run when the component mounts. *)
Definition checkForSavedSession (appName : string) (st : State)
  : Process -> State * Process :=
  fun p =>
    let '(savedDataPath, p) := get_data_path p in
    if truthy_str savedDataPath then
      let st := mkState (currentScreen st) (isAuthenticated st) savedDataPath
                        (appData st) (dailyEntries st) in
      let '(savedPassword, p) := get_saved_password appName p in
      match savedPassword with
      | Some pw =>
          if truthy_str savedPassword then
            let '(isValid, p) := in_process (verify_password pw) p in
            if (isValid : bool) then
              let '(st, p) := loadAppData st p in
              (mkState dashboard true (dataPath st) (appData st) (dailyEntries st), p)
            else (st, p)
          else (st, p)
      | None => (st, p)
      end
    else (st, p).

End Component.

End App.

Module Dashboard.

Section Component.

Context {rt : Runtime}.

(** The record [loadTodayEntry] creates when none is stored for today. *)
Definition newEntry (today : string) : value :=
  VObj [ ("id", VStr today); ("date", VStr today); ("meals", VArr []);
         ("water", VObj [ ("glasses", VNum 0); ("ounces", VNum 0) ]);
         ("tags", VArr []) ].

(** [loadTodayEntry]: the new [todayEntry]; [today] is
    [getTodayDateString()]. *)
Definition loadTodayEntry (today : string) : handler value :=
  fun w =>
    let '(entries, w) := get_daily_entries (Some today) (Some today) w in
    (match entries with
     | entry :: _ => entry
     | [] => newEntry today
     end, w).

(** What the handlers below do with an updated record: save it, and keep it
    as [todayEntry] if the save succeeded. *)
Definition save_updated (salt : string) (todayEntry : option value)
           (updatedEntry : exc value) : handler (option value) :=
  fun w =>
    match updatedEntry with
    | Ok updated =>
        let '(result, w) := save_daily_entry salt updated w in
        (match result with
         | Success _ => Some updated
         | _ => todayEntry
         end, w)
    | Throw _ => (todayEntry, w)
    end.

Definition water_of (glasses : value) : value :=
  VObj [ ("glasses", glasses); ("ounces", js_times glasses (VNum 8)) ].

(** [handleWaterIncrement] *)
Definition handleWaterIncrement (salt : string) (todayEntry : option value)
  : handler (option value) :=
  match todayEntry with
  | None => fun w => (todayEntry, w)
  | Some entry =>
      save_updated salt todayEntry
        (water <- get_prop entry "water" ;;
         glasses <- get_prop water "glasses" ;;
         Ok (VObj (set_key "water" (water_of (js_plus glasses (VNum 1)))
                           (spread entry))))%exc
  end.

(** [a - b] on two numbers. *)
Definition minus_one (v : value) : value :=
  match to_primitive v with
  | inr (Some n) => VNum (n - 1)
  | inr None => VNaN
  | inl s => match StringToNumber s with
             | Some n => VNum (n - 1)
             | None => VNaN
             end
  end.

(** [handleWaterDecrement] *)
Definition handleWaterDecrement (salt : string) (todayEntry : option value)
  : handler (option value) :=
  match todayEntry with
  | None => fun w => (todayEntry, w)
  | Some entry =>
      match (water <- get_prop entry "water" ;; get_prop water "glasses")%exc with
      | Ok (VNum 0) => fun w => (todayEntry, w)
      | Ok glasses =>
          save_updated salt todayEntry
            (Ok (VObj (set_key "water" (water_of (minus_one glasses))
                               (spread entry))))
      | Throw _ => fun w => (todayEntry, w)
      end
  end.

(** [[...v]]: the elements of an array, the characters of a string. *)
Definition iterate (v : value) : exc (list value) :=
  match v with
  | VArr l => Ok l
  | VStr s => Ok (chars s)
  | _ => Throw TypeError
  end.

(** [handleMealAdded] *)
Definition handleMealAdded (salt : string) (todayEntry : option value)
           (meal : value) : handler (option value) :=
  match todayEntry with
  | None => fun w => (todayEntry, w)
  | Some entry =>
      save_updated salt todayEntry
        (meals <- get_prop entry "meals" ;;
         meals <- iterate meals ;;
         Ok (VObj (set_key "meals" (VArr (meals ++ [meal])) (spread entry))))%exc
  end.

(** [m.id !== mealId] on a meal whose id, if it has one, is compared with a
    string. *)
Definition other_id (mealId : string) (m : value) : exc bool :=
  (id <- get_prop m "id" ;;
   Ok (match id with
       | VStr s => negb (String.eqb s mealId)
       | _ => true
       end))%exc.

(** [handleDeleteMeal], once the user has confirmed. *)
Definition handleDeleteMeal (salt : string) (todayEntry : option value)
           (mealId : string) : handler (option value) :=
  match todayEntry with
  | None => fun w => (todayEntry, w)
  | Some entry =>
      save_updated salt todayEntry
        (meals <- get_prop entry "meals" ;;
         meals <- as_array meals ;;
         kept <- filterM (other_id mealId) meals ;;
         Ok (VObj (set_key "meals" (VArr kept) (spread entry))))%exc
  end.

End Component.

End Dashboard.

(** ** calculations.ts *)

(** The totals are sums of IEEE numbers; the functions are modelled over an
    arbitrary number type with its addition, so that nothing is assumed of
    the addition. *)
Module Calculations.

Section Totals.

Variable number : Type.
Variable plus : number -> number -> number.
Variable zero : number.

Record FoodItem : Type := mkFood {
  calories : number; protein : number; carbs : number; fats : number
}.

Record MealEntry : Type := mkMeal { foods : list FoodItem }.

Record NutritionTotals : Type := mkTotals {
  total_calories : number; total_protein : number;
  total_carbs : number; total_fats : number
}.

Definition add (totals : NutritionTotals) (food : FoodItem) : NutritionTotals :=
  mkTotals (plus (total_calories totals) (calories food))
           (plus (total_protein totals) (protein food))
           (plus (total_carbs totals) (carbs food))
           (plus (total_fats totals) (fats food)).

Definition none : NutritionTotals := mkTotals zero zero zero zero.

(** [calculateMealTotals] *)
Definition calculateMealTotals (meals : list MealEntry) : NutritionTotals :=
  fold_left (fun totals meal => fold_left add (foods meal) totals) meals none.

(** [calculateFoodTotals] *)
Definition calculateFoodTotals (foods : list FoodItem) : NutritionTotals :=
  fold_left add foods none.

End Totals.

End Calculations.

(** ** A reference runtime

    Executable stand-ins for the libraries, exact on the fragment used here:
    JSON with integer numbers; front matter written in YAML's JSON-compatible
    flow syntax; date-only strings for [Date]; decimal integer literals
    for string-to-number conversion.  The cipher is a stand-in that binds a
    blob to its salt and password and refuses every other password; the
    cipher of crypto-js follows the reference runtime. *)

Module Ref.

(** *** JSON *)

Definition backslash : ascii := "092"%char.
Definition quote : ascii := "034"%char.

Definition hex_digit (n : nat) : ascii :=
  if (n <? 10)%nat then ascii_of_nat (48 + n) else ascii_of_nat (87 + n).

Definition hex_value (c : ascii) : option nat :=
  let n := nat_of_ascii c in
  if ((48 <=? n) && (n <=? 57))%nat then Some (n - 48)%nat
  else if ((97 <=? n) && (n <=? 102))%nat then Some (n - 87)%nat
  else if ((65 <=? n) && (n <=? 70))%nat then Some (n - 55)%nat
  else None.

Definition escape_char (c : ascii) : string :=
  let n := nat_of_ascii c in
  if Ascii.eqb c quote then String backslash (String quote EmptyString)
  else if Ascii.eqb c backslash then String backslash (String backslash EmptyString)
  else if (n =? 10)%nat then String backslash "n"
  else if (n =? 13)%nat then String backslash "r"
  else if (n =? 9)%nat then String backslash "t"
  else if (n =? 8)%nat then String backslash "b"
  else if (n =? 12)%nat then String backslash "f"
  else if (n <? 32)%nat
       then String backslash
              (String "u" (String "0" (String "0"
                 (String (hex_digit (n / 16)) (String (hex_digit (n mod 16))
                    EmptyString)))))
       else String c EmptyString.

Fixpoint escape (s : string) : string :=
  match s with
  | EmptyString => EmptyString
  | String c s' => escape_char c ++ escape s'
  end.

Definition quoted (s : string) : string := Js.dquote ++ escape s ++ Js.dquote.

(** The compact rendering; the indentation of [JSON.stringify(v, null, 2)]
    is white space to every JSON reader.  A property whose value is
    [undefined] is skipped; [undefined] and NaN in an array print as null. *)
Fixpoint stringify (v : value) : string :=
  match v with
  | VUndef | VNull | VNaN => "null"
  | VBool true => "true"
  | VBool false => "false"
  | VNum n => Js.string_of_Z n
  | VStr s => quoted s
  | VArr l => "[" ++ Js.join "," (map stringify l) ++ "]"
  | VObj ps =>
      "{" ++ Js.join ","
               (flat_map (fun kv => match kv with
                                    | (_, VUndef) => []
                                    | (k, x) => [quoted k ++ ":" ++ stringify x]
                                    end) ps)
          ++ "}"
  end.

Definition is_ws (c : ascii) : bool :=
  let n := nat_of_ascii c in
  ((n =? 32) || (n =? 10) || (n =? 13) || (n =? 9))%nat.

Fixpoint skip_ws (s : string) : string :=
  match s with
  | String c s' => if is_ws c then skip_ws s' else s
  | EmptyString => EmptyString
  end.

Definition unescape (e : ascii) : option ascii :=
  if Ascii.eqb e quote then Some quote
  else if Ascii.eqb e backslash then Some backslash
  else if Ascii.eqb e "/" then Some "/"%char
  else if Ascii.eqb e "n" then Some "010"%char
  else if Ascii.eqb e "r" then Some "013"%char
  else if Ascii.eqb e "t" then Some "009"%char
  else if Ascii.eqb e "b" then Some "008"%char
  else if Ascii.eqb e "f" then Some "012"%char
  else None.

(** The characters of a string literal after its opening quote, and the
    text after its closing quote. *)
Fixpoint string_body (s : string) : option (string * string) :=
  match s with
  | EmptyString => None
  | String c s' =>
      if Ascii.eqb c quote then Some (EmptyString, s')
      else if Ascii.eqb c backslash then
        match s' with
        | String "u" (String a (String b (String c1 (String c2 s'')))) =>
            match hex_value a, hex_value b, hex_value c1, hex_value c2 with
            | Some O, Some O, Some h, Some l =>
                match string_body s'' with
                | Some (body, rest) =>
                    Some (String (ascii_of_nat (16 * h + l)) body, rest)
                | None => None
                end
            | _, _, _, _ => None
            end
        | String e s'' =>
            match unescape e, string_body s'' with
            | Some c', Some (body, rest) => Some (String c' body, rest)
            | _, _ => None
            end
        | EmptyString => None
        end
      else if (nat_of_ascii c <? 32)%nat then None
      else match string_body s' with
           | Some (body, rest) => Some (String c body, rest)
           | None => None
           end
  end.

Fixpoint digits (acc : Z) (s : string) : Z * string :=
  match s with
  | String c s' =>
      if Zod.is_digit c
      then digits (10 * acc + Z.of_nat (nat_of_ascii c - 48)) s'
      else (acc, s)
  | EmptyString => (acc, s)
  end.

(** An integer literal: no sign or a minus, no leading zero, and neither a
    fraction nor an exponent after it. *)
Definition natural (s : string) : option (Z * string) :=
  match s with
  | String c s' =>
      if Zod.is_digit c then
        let '(n, rest) := digits 0 s in
        let leading_zero :=
          Ascii.eqb c "0" && match s' with
                             | String d _ => Zod.is_digit d
                             | EmptyString => false
                             end in
        let continues :=
          match rest with
          | String d _ => Ascii.eqb d "." || Ascii.eqb d "e" || Ascii.eqb d "E"
          | EmptyString => false
          end in
        if leading_zero || continues then None else Some (n, rest)
      else None
  | EmptyString => None
  end.

Definition literal (word : string) (v : value) (s : string) : option (value * string) :=
  if String.prefix word s then Some (v, Js.drop (String.length word) s) else None.

Fixpoint parse_value (fuel : nat) (s : string) {struct fuel} : option (value * string) :=
  match fuel with
  | O => None
  | S fuel' =>
      match skip_ws s with
      | EmptyString => None
      | String c rest =>
          if Ascii.eqb c "n" then literal "null" VNull (String c rest)
          else if Ascii.eqb c "t" then literal "true" (VBool true) (String c rest)
          else if Ascii.eqb c "f" then literal "false" (VBool false) (String c rest)
          else if Ascii.eqb c quote then
            match string_body rest with
            | Some (str, rest') => Some (VStr str, rest')
            | None => None
            end
          else if Ascii.eqb c "-" then
            match natural rest with
            | Some (n, rest') => Some (VNum (- n), rest')
            | None => None
            end
          else if Ascii.eqb c "[" then
            match skip_ws rest with
            | String "]" rest' => Some (VArr [], rest')
            | _ =>
                (fix elements (n : nat) (s : string) : option (value * string) :=
                   match n with
                   | O => None
                   | S n' =>
                       match parse_value fuel' s with
                       | Some (v, after) =>
                           match skip_ws after with
                           | String "," more =>
                               match elements n' more with
                               | Some (VArr vs, rest') => Some (VArr (v :: vs), rest')
                               | _ => None
                               end
                           | String "]" rest' => Some (VArr [v], rest')
                           | _ => None
                           end
                       | None => None
                       end
                   end) fuel' rest
            end
          else if Ascii.eqb c "{" then
            match skip_ws rest with
            | String "}" rest' => Some (VObj [], rest')
            | _ =>
                (fix members (n : nat) (s : string) : option (value * string) :=
                   match n with
                   | O => None
                   | S n' =>
                       match skip_ws s with
                       | String q key_on =>
                           if Ascii.eqb q quote then
                             match string_body key_on with
                             | Some (k, after_key) =>
                                 match skip_ws after_key with
                                 | String ":" val_on =>
                                     match parse_value fuel' val_on with
                                     | Some (v, after) =>
                                         match skip_ws after with
                                         | String "," more =>
                                             match members n' more with
                                             | Some (VObj ps, rest') =>
                                                 Some (VObj ((k, v) :: ps), rest')
                                             | _ => None
                                             end
                                         | String "}" rest' => Some (VObj [(k, v)], rest')
                                         | _ => None
                                         end
                                     | None => None
                                     end
                                 | _ => None
                                 end
                             | None => None
                             end
                           else None
                       | EmptyString => None
                       end
                   end) fuel' rest
            end
          else match natural (String c rest) with
               | Some (n, rest') => Some (VNum n, rest')
               | None => None
               end
      end
  end.

(** A key that occurs twice keeps its first place and its last value. *)
Fixpoint normalize (v : value) : value :=
  match v with
  | VArr l => VArr (map normalize l)
  | VObj ps =>
      VObj (fold_left (fun acc kv => match kv with
                                     | (k, x) => set_key k (normalize x) acc
                                     end) ps [])
  | _ => v
  end.

Definition parse (text : string) : option value :=
  match parse_value (2 * String.length text + 2) text with
  | Some (v, rest) =>
      match skip_ws rest with
      | EmptyString => Some (normalize v)
      | _ => None
      end
  | None => None
  end.

(** *** gray-matter *)

Fixpoint find (pattern s : string) (i : nat) {struct s} : option nat :=
  if String.prefix pattern s then Some i
  else match s with
       | EmptyString => None
       | String _ s' => find pattern s' (S i)
       end.

Fixpoint take (n : nat) (s : string) : string :=
  match n, s with
  | S n', String c s' => String c (take n' s')
  | _, _ => EmptyString
  end.

Definition strip_leading (c : ascii) (s : string) : string :=
  match s with
  | String c' s' => if Ascii.eqb c c' then s' else s
  | EmptyString => s
  end.

(** [matter(input)]: the block between an opening [---] and the next line
    that starts with [---] is the front matter; the content starts on the
    line after it.  An input without front matter is all content. *)
Definition matter_parse (input : string) : option (value * string) :=
  if String.prefix "---" input && negb (String.prefix "----" input) then
    let str := Js.drop 3 input in
    let '(block, content) :=
      match find (Js.nl ++ "---") str 0 with
      | Some i => (take i str,
                   strip_leading "010" (strip_leading "013" (Js.drop (i + 4) str)))
      | None => (str, EmptyString)
      end in
    if String.eqb (Js.trim block) "" then Some (VObj [], content)
    else match parse block with
         | Some data => Some (data, content)
         | None => None
         end
  else Some (VObj [], input).

Definition newline (s : string) : string :=
  if Js.endsWith s Js.nl then s else s ++ Js.nl.

(** [matter.stringify(content, data)]: the content is first read as a file
    of its own, and [data] is laid over the front matter it may carry. *)
Definition matter_print (content : string) (data : value) : string :=
  let '(data0, content0) :=
    match matter_parse content with
    | Some r => r
    | None => (VObj [], content)
    end in
  let merged :=
    fold_left (fun acc kv => set_key (fst kv) (snd kv) acc) (spread data)
              (spread data0) in
  let block := stringify (VObj merged) in
  (if String.eqb block "{}" then EmptyString
   else "---" ++ Js.nl ++ block ++ Js.nl ++ "---" ++ Js.nl)
  ++ newline content0.

(** *** The cipher *)

Fixpoint tag (s : string) : string :=
  match s with
  | EmptyString => "0"
  | String c s' => String "1" (String c (tag s'))
  end.

Fixpoint untag (s : string) : option (string * string) :=
  match s with
  | String "0" rest => Some (EmptyString, rest)
  | String "1" (String c s') =>
      match untag s' with
      | Some (t, rest) => Some (String c t, rest)
      | None => None
      end
  | _ => None
  end.

Definition seal (salt text password : string) : string :=
  tag salt ++ tag password ++ text.

Definition unseal (blob password : string) : option string :=
  match untag blob with
  | Some (_, sealed) =>
      match untag sealed with
      | Some (p, text) => if String.eqb p password then Some text else None
      | None => None
      end
  | None => None
  end.

(** *** Date and string-to-number conversion *)

Definition number_of (s : string) : Z := fst (digits 0 s).

(** Days from 1970-01-01 to the civil date y-m-d. *)
Definition days_from_civil (y m d : Z) : Z :=
  let y' := if m <=? 2 then y - 1 else y in
  let era := y' / 400 in
  let yoe := y' - era * 400 in
  let doy := (153 * (if 2 <? m then m - 3 else m + 9) + 2) / 5 + d - 1 in
  let doe := yoe * 365 + yoe / 4 - yoe / 100 + doy in
  era * 146097 + doe - 719468.

(** A date-only string: the engine (V8) takes a month of 01 to 12 and a
    day of 01 to 31 in every month, and counts a day beyond the end of the
    month on into the next one (2026-02-30 is March 2); anything else is
    an invalid date. *)
Definition iso_date_time (s : string) : option Z :=
  match Zod.date_regex with
  | Zod.Regex _ pattern =>
      if Zod.regex_test pattern s then
        let y := number_of (take 4 s) in
        let m := number_of (take 2 (Js.drop 5 s)) in
        let d := number_of (take 2 (Js.drop 8 s)) in
        if (1 <=? m) && (m <=? 12) && (1 <=? d) && (d <=? 31)
        then Some (days_from_civil y m d * 86400000)
        else None
      else None
  | _ => None
  end.

Definition getTime (v : value) : option Z :=
  match to_primitive v with
  | inl s => iso_date_time s
  | inr (Some n) => if Z.abs n <=? 8640000000000000 then Some n else None
  | inr None => None
  end.

Fixpoint all_digits (s : string) : bool :=
  match s with
  | EmptyString => true
  | String c s' => Zod.is_digit c && all_digits s'
  end.

Definition unsigned (s : string) : option Z :=
  if all_digits s && negb (String.eqb s "") then Some (number_of s) else None.

Definition to_number (s : string) : option Z :=
  match Js.trim s with
  | EmptyString => Some 0
  | String "-" r => option_map Z.opp (unsigned r)
  | String "+" r => unsigned r
  | t => unsigned t
  end.

#[global] Instance runtime : Runtime := {|
  JSON_parse := parse;
  JSON_stringify := stringify;
  matter := matter_parse;
  matter_stringify := matter_print;
  AES_encrypt := seal;
  AES_decrypt := unseal;
  Date_getTime := getTime;
  StringToNumber := to_number
|}.

End Ref.

(** ** The cipher of crypto-js

    [CryptoJS.AES.encrypt(text, password)] and [CryptoJS.AES.decrypt(blob,
    password).toString(CryptoJS.enc.Utf8)] as crypto-js 4.2 computes them:
    the key and the IV are derived from the password and an eight-byte salt
    by OpenSSL's EVP_BytesToKey with one round of MD5; the text is encrypted
    by AES-256 in CBC mode with PKCS#7 padding; the blob is the Base64 of
    [Salted__], the salt and the ciphertext.  Nothing in the blob
    authenticates the password: decryption under another password yields
    other bytes, and the unpadding takes whatever the last byte says. *)

Module CryptoJS.

Local Open Scope list_scope.

(** *** Bytes and strings *)

Definition code (c : ascii) : Z := Z.of_N (N_of_ascii c).
Definition char (b : Z) : ascii := ascii_of_N (Z.to_N b).

(** [CryptoJS.enc.Latin1]: one byte per character. *)
Definition Latin1_parse (s : string) : list Z := map code (list_ascii_of_string s).
Definition Latin1_stringify (l : list Z) : string := string_of_list_ascii (map char l).

(** [CryptoJS.enc.Utf8.parse(s)], [unescape(encodeURIComponent(s))]: a
    character below 128 is one byte, one of 128..255 is two. *)
Definition Utf8_parse (s : string) : list Z :=
  flat_map (fun b => if b <? 128 then [b]
                     else [Z.lor 192 (Z.shiftr b 6); Z.lor 128 (Z.land b 63)])
           (Latin1_parse s).

Definition continuation (b : Z) : bool := (128 <=? b) && (b <=? 191).

(** A code point as the characters of this embedding.  A code point above
    255 is outside its strings (see the conventions): it is held as the
    character 255, once per UTF-16 code unit, which JSON.parse treats as it
    treats the code point. *)
Definition code_point (cp : Z) : list ascii :=
  if cp <=? 255 then [char cp]
  else if cp <=? 65535 then [char 255]
       else [char 255; char 255].

(** [CryptoJS.enc.Utf8.stringify], [decodeURIComponent(escape(latin1))]:
    the bytes must be well-formed UTF-8 (no overlong form, no surrogate,
    nothing above U+10FFFF); [None] is the Malformed UTF-8 error. *)
Fixpoint Utf8_decode (fuel : nat) (l : list Z) : option (list ascii) :=
  match fuel with
  | O => None
  | S fuel' =>
      match l with
      | [] => Some []
      | b0 :: l1 =>
          if b0 <? 128 then option_map (app (code_point b0)) (Utf8_decode fuel' l1)
          else if (194 <=? b0) && (b0 <=? 223) then
            match l1 with
            | b1 :: l2 =>
                if continuation b1
                then option_map
                       (app (code_point (Z.lor (Z.shiftl (Z.land b0 31) 6) (Z.land b1 63))))
                       (Utf8_decode fuel' l2)
                else None
            | _ => None
            end
          else if (224 <=? b0) && (b0 <=? 239) then
            match l1 with
            | b1 :: b2 :: l3 =>
                let low := if b0 =? 224 then 160 else 128 in
                let high := if b0 =? 237 then 159 else 191 in
                if (low <=? b1) && (b1 <=? high) && continuation b2
                then option_map
                       (app (code_point
                               (Z.lor (Z.shiftl (Z.land b0 15) 12)
                                      (Z.lor (Z.shiftl (Z.land b1 63) 6) (Z.land b2 63)))))
                       (Utf8_decode fuel' l3)
                else None
            | _ => None
            end
          else if (240 <=? b0) && (b0 <=? 244) then
            match l1 with
            | b1 :: b2 :: b3 :: l4 =>
                let low := if b0 =? 240 then 144 else 128 in
                let high := if b0 =? 244 then 143 else 191 in
                if (low <=? b1) && (b1 <=? high) && continuation b2 && continuation b3
                then option_map (app (code_point 65536)) (Utf8_decode fuel' l4)
                else None
            | _ => None
            end
          else None
      end
  end.

Definition Utf8_stringify (l : list Z) : option string :=
  option_map string_of_list_ascii (Utf8_decode (S (length l)) l).

(** *** Base64 *)

Definition alphabet : string :=
  "ABCDEFGHIJKLMNOPQRSTUVWXYZabcdefghijklmnopqrstuvwxyz0123456789+/".

Definition sextet_char (n : Z) : ascii :=
  match String.get (Z.to_nat n) alphabet with
  | Some c => c
  | None => "="%char
  end.

(** The place of a character in the alphabet; a character outside it
    counts as 0 (the library's reverse map has no entry for it). *)
Definition sextet (c : ascii) : Z :=
  match Ref.find (String c EmptyString) alphabet 0 with
  | Some i => Z.of_nat i
  | None => 0
  end.

(** [Base64.stringify]: three bytes make four characters; the last group
    is padded with [=]. *)
Fixpoint Base64_stringify (l : list Z) : string :=
  match l with
  | [] => EmptyString
  | [a] =>
      String (sextet_char (Z.shiftr a 2))
        (String (sextet_char (Z.shiftl (Z.land a 3) 4)) "==")
  | [a; b] =>
      String (sextet_char (Z.shiftr a 2))
        (String (sextet_char (Z.lor (Z.shiftl (Z.land a 3) 4) (Z.shiftr b 4)))
           (String (sextet_char (Z.shiftl (Z.land b 15) 2)) "="))
  | a :: b :: c :: l' =>
      String (sextet_char (Z.shiftr a 2))
        (String (sextet_char (Z.lor (Z.shiftl (Z.land a 3) 4) (Z.shiftr b 4)))
           (String (sextet_char (Z.lor (Z.shiftl (Z.land b 15) 2) (Z.shiftr c 6)))
              (String (sextet_char (Z.land c 63)) (Base64_stringify l'))))
  end.

(** The text before the first [=]. *)
Fixpoint before_padding (s : string) : string :=
  match s with
  | EmptyString => EmptyString
  | String c s' => if Ascii.eqb c "=" then EmptyString else String c (before_padding s')
  end.

(** The loop of [Base64.parse]: the character at index [i] closes a byte
    with the character before it unless [i] is a multiple of 4. *)
Fixpoint parseLoop (i : Z) (previous : Z) (s : list ascii) : list Z :=
  match s with
  | [] => []
  | c :: s' =>
      let v := sextet c in
      let k := i mod 4 in
      let rest := parseLoop (i + 1) v s' in
      if k =? 0 then rest
      else Z.land (Z.lor (Z.shiftl previous (k * 2)) (Z.shiftr v (6 - k * 2))) 255 :: rest
  end.

Definition Base64_parse (s : string) : list Z :=
  parseLoop 0 0 (list_ascii_of_string (before_padding s)).

(** *** MD5 (RFC 1321) *)

Definition w32 (x : Z) : Z := Z.land x 4294967295.

Definition rotl32 (x n : Z) : Z :=
  w32 (Z.lor (Z.shiftl x n) (Z.shiftr x (32 - n))).

Definition not32 (x : Z) : Z := Z.lxor x 4294967295.

(** floor(2^32 * abs(sin(i + 1))), i = 0..63 *)
Definition md5_K : list Z :=
  [ 0xd76aa478; 0xe8c7b756; 0x242070db; 0xc1bdceee; 0xf57c0faf; 0x4787c62a;
    0xa8304613; 0xfd469501; 0x698098d8; 0x8b44f7af; 0xffff5bb1; 0x895cd7be;
    0x6b901122; 0xfd987193; 0xa679438e; 0x49b40821; 0xf61e2562; 0xc040b340;
    0x265e5a51; 0xe9b6c7aa; 0xd62f105d; 0x02441453; 0xd8a1e681; 0xe7d3fbc8;
    0x21e1cde6; 0xc33707d6; 0xf4d50d87; 0x455a14ed; 0xa9e3e905; 0xfcefa3f8;
    0x676f02d9; 0x8d2a4c8a; 0xfffa3942; 0x8771f681; 0x6d9d6122; 0xfde5380c;
    0xa4beea44; 0x4bdecfa9; 0xf6bb4b60; 0xbebfbc70; 0x289b7ec6; 0xeaa127fa;
    0xd4ef3085; 0x04881d05; 0xd9d4d039; 0xe6db99e5; 0x1fa27cf8; 0xc4ac5665;
    0xf4292244; 0x432aff97; 0xab9423a7; 0xfc93a039; 0x655b59c3; 0x8f0ccc92;
    0xffeff47d; 0x85845dd1; 0x6fa87e4f; 0xfe2ce6e0; 0xa3014314; 0x4e0811a1;
    0xf7537e82; 0xbd3af235; 0x2ad7d2bb; 0xeb86d391 ].

Definition md5_shift : list Z :=
  [ 7; 12; 17; 22; 7; 12; 17; 22; 7; 12; 17; 22; 7; 12; 17; 22;
    5; 9; 14; 20; 5; 9; 14; 20; 5; 9; 14; 20; 5; 9; 14; 20;
    4; 11; 16; 23; 4; 11; 16; 23; 4; 11; 16; 23; 4; 11; 16; 23;
    6; 10; 15; 21; 6; 10; 15; 21; 6; 10; 15; 21; 6; 10; 15; 21 ].

Definition at_ (l : list Z) (i : Z) : Z := nth (Z.to_nat i) l 0.

(** A 32-bit word, least significant byte first, and back. *)
Definition word_le (b : list Z) : Z :=
  at_ b 0 + 256 * at_ b 1 + 65536 * at_ b 2 + 16777216 * at_ b 3.

Definition bytes_le (n : nat) (x : Z) : list Z :=
  map (fun i => Z.land (Z.shiftr x (8 * Z.of_nat i)) 255) (seq 0 n).

Fixpoint chunks {A : Type} (fuel size : nat) (l : list A) : list (list A) :=
  match fuel with
  | O => []
  | S fuel' =>
      match l with
      | [] => []
      | _ => firstn size l :: chunks fuel' size (skipn size l)
      end
  end.

Definition blocks_of (size : nat) (l : list Z) : list (list Z) :=
  chunks (length l) size l.

Definition md5_step (M : list Z) (st : Z * Z * Z * Z) (i : Z) : Z * Z * Z * Z :=
  let '(A, B, C, D) := st in
  let '(F, g) :=
    if i <? 16 then (Z.lor (Z.land B C) (Z.land (not32 B) D), i)
    else if i <? 32 then (Z.lor (Z.land D B) (Z.land (not32 D) C), (5 * i + 1) mod 16)
    else if i <? 48 then (Z.lxor B (Z.lxor C D), (3 * i + 5) mod 16)
    else (Z.lxor C (Z.lor B (not32 D)), (7 * i) mod 16) in
  let F' := w32 (F + A + at_ md5_K i + at_ M g) in
  (D, w32 (B + rotl32 F' (at_ md5_shift i)), B, C).

Definition md5_block (st : Z * Z * Z * Z) (block : list Z) : Z * Z * Z * Z :=
  let M := map word_le (blocks_of 4 block) in
  let '(A, B, C, D) := st in
  let '(A', B', C', D') :=
    fold_left (md5_step M) (map Z.of_nat (seq 0 64)) st in
  (w32 (A + A'), w32 (B + B'), w32 (C + C'), w32 (D + D')).

Definition md5_pad (message : list Z) : list Z :=
  let n := Z.of_nat (length message) in
  let zeros := Z.to_nat ((55 - n) mod 64) in
  message ++ [128] ++ repeat 0 zeros ++ bytes_le 8 (8 * n).

Definition MD5 (message : list Z) : list Z :=
  let '(A, B, C, D) :=
    fold_left md5_block (blocks_of 64 (md5_pad message))
              (0x67452301, 0xefcdab89, 0x98badcfe, 0x10325476) in
  bytes_le 4 A ++ bytes_le 4 B ++ bytes_le 4 C ++ bytes_le 4 D.

(** *** The key and the IV: [kdf.OpenSSL] over [EvpKDF] with MD5, one
    iteration.  Each digest hashes the digest before it, the password and
    the salt; three digests give the 32 bytes of the key and the 16 of the
    IV. *)
Definition EvpKDF (password salt : list Z) : list Z * list Z :=
  let d1 := MD5 (password ++ salt) in
  let d2 := MD5 (d1 ++ password ++ salt) in
  let d3 := MD5 (d2 ++ password ++ salt) in
  (d1 ++ d2, d3).

(** *** AES-256 (FIPS 197) *)

Definition SBOX : list Z :=
  [ 0x63; 0x7c; 0x77; 0x7b; 0xf2; 0x6b; 0x6f; 0xc5; 0x30; 0x01; 0x67; 0x2b; 0xfe; 0xd7; 0xab; 0x76;
    0xca; 0x82; 0xc9; 0x7d; 0xfa; 0x59; 0x47; 0xf0; 0xad; 0xd4; 0xa2; 0xaf; 0x9c; 0xa4; 0x72; 0xc0;
    0xb7; 0xfd; 0x93; 0x26; 0x36; 0x3f; 0xf7; 0xcc; 0x34; 0xa5; 0xe5; 0xf1; 0x71; 0xd8; 0x31; 0x15;
    0x04; 0xc7; 0x23; 0xc3; 0x18; 0x96; 0x05; 0x9a; 0x07; 0x12; 0x80; 0xe2; 0xeb; 0x27; 0xb2; 0x75;
    0x09; 0x83; 0x2c; 0x1a; 0x1b; 0x6e; 0x5a; 0xa0; 0x52; 0x3b; 0xd6; 0xb3; 0x29; 0xe3; 0x2f; 0x84;
    0x53; 0xd1; 0x00; 0xed; 0x20; 0xfc; 0xb1; 0x5b; 0x6a; 0xcb; 0xbe; 0x39; 0x4a; 0x4c; 0x58; 0xcf;
    0xd0; 0xef; 0xaa; 0xfb; 0x43; 0x4d; 0x33; 0x85; 0x45; 0xf9; 0x02; 0x7f; 0x50; 0x3c; 0x9f; 0xa8;
    0x51; 0xa3; 0x40; 0x8f; 0x92; 0x9d; 0x38; 0xf5; 0xbc; 0xb6; 0xda; 0x21; 0x10; 0xff; 0xf3; 0xd2;
    0xcd; 0x0c; 0x13; 0xec; 0x5f; 0x97; 0x44; 0x17; 0xc4; 0xa7; 0x7e; 0x3d; 0x64; 0x5d; 0x19; 0x73;
    0x60; 0x81; 0x4f; 0xdc; 0x22; 0x2a; 0x90; 0x88; 0x46; 0xee; 0xb8; 0x14; 0xde; 0x5e; 0x0b; 0xdb;
    0xe0; 0x32; 0x3a; 0x0a; 0x49; 0x06; 0x24; 0x5c; 0xc2; 0xd3; 0xac; 0x62; 0x91; 0x95; 0xe4; 0x79;
    0xe7; 0xc8; 0x37; 0x6d; 0x8d; 0xd5; 0x4e; 0xa9; 0x6c; 0x56; 0xf4; 0xea; 0x65; 0x7a; 0xae; 0x08;
    0xba; 0x78; 0x25; 0x2e; 0x1c; 0xa6; 0xb4; 0xc6; 0xe8; 0xdd; 0x74; 0x1f; 0x4b; 0xbd; 0x8b; 0x8a;
    0x70; 0x3e; 0xb5; 0x66; 0x48; 0x03; 0xf6; 0x0e; 0x61; 0x35; 0x57; 0xb9; 0x86; 0xc1; 0x1d; 0x9e;
    0xe1; 0xf8; 0x98; 0x11; 0x69; 0xd9; 0x8e; 0x94; 0x9b; 0x1e; 0x87; 0xe9; 0xce; 0x55; 0x28; 0xdf;
    0x8c; 0xa1; 0x89; 0x0d; 0xbf; 0xe6; 0x42; 0x68; 0x41; 0x99; 0x2d; 0x0f; 0xb0; 0x54; 0xbb; 0x16 ].

Definition SubByte (b : Z) : Z := at_ SBOX b.

(** The inverse S-box: at [x], the place of [x] in the S-box. *)
Fixpoint place (x : Z) (i : Z) (l : list Z) : Z :=
  match l with
  | [] => 0
  | y :: l' => if y =? x then i else place x (i + 1) l'
  end.

Definition INV_SBOX : list Z :=
  Eval vm_compute in map (fun x => place (Z.of_nat x) 0 SBOX) (seq 0 256).

Definition InvSubByte (b : Z) : Z := at_ INV_SBOX b.

(** Multiplication by x, and by a constant, in GF(2^8) modulo
    x^8 + x^4 + x^3 + x + 1. *)
Definition xtime (a : Z) : Z :=
  let d := Z.shiftl a 1 in
  if Z.testbit d 8 then Z.land (Z.lxor d 0x11b) 255 else d.

Fixpoint gmul_bits (n : nat) (a b : Z) : Z :=
  match n with
  | O => 0
  | S n' => Z.lxor (if Z.odd b then a else 0) (gmul_bits n' (xtime a) (Z.shiftr b 1))
  end.

Definition gmul (a b : Z) : Z := gmul_bits 8 a b.

Definition xor_bytes (a b : list Z) : list Z := map (fun p => Z.lxor (fst p) (snd p)) (combine a b).

(** The state is the block, column after column: the byte of row [r] and
    column [c] is at [r + 4 * c]. *)
Definition ShiftRows (s : list Z) : list Z :=
  map (fun i => at_ s ((i + 4 * (i mod 4)) mod 16)) (map Z.of_nat (seq 0 16)).

Definition InvShiftRows (s : list Z) : list Z :=
  map (fun i => at_ s ((i - 4 * (i mod 4)) mod 16)) (map Z.of_nat (seq 0 16)).

Definition mix_column (m : list Z) (col : list Z) : list Z :=
  map (fun r =>
         Z.lxor (gmul (at_ col 0) (at_ m ((0 - r) mod 4)))
           (Z.lxor (gmul (at_ col 1) (at_ m ((1 - r) mod 4)))
              (Z.lxor (gmul (at_ col 2) (at_ m ((2 - r) mod 4)))
                      (gmul (at_ col 3) (at_ m ((3 - r) mod 4))))))
      [0; 1; 2; 3].

Definition MixColumns (s : list Z) : list Z :=
  flat_map (mix_column [2; 3; 1; 1]) (blocks_of 4 s).

Definition InvMixColumns (s : list Z) : list Z :=
  flat_map (mix_column [14; 11; 13; 9]) (blocks_of 4 s).

(** The key schedule for a key of eight words: 60 words, 15 round keys. *)
Definition RotWord (w : list Z) : list Z :=
  match w with
  | a :: rest => rest ++ [a]
  | [] => []
  end.

Fixpoint expand (n : nat) (i : Z) (rcon : Z) (w : list (list Z)) : list (list Z) :=
  match n with
  | O => w
  | S n' =>
      let previous := nth (Z.to_nat (i - 1)) w [] in
      let t := if i mod 8 =? 0
               then xor_bytes (map SubByte (RotWord previous)) [rcon; 0; 0; 0]
               else if i mod 8 =? 4 then map SubByte previous
                    else previous in
      let rcon' := if i mod 8 =? 0 then xtime rcon else rcon in
      expand n' (i + 1) rcon' (w ++ [xor_bytes (nth (Z.to_nat (i - 8)) w []) t])
  end.

Definition KeyExpansion (key : list Z) : list (list Z) :=
  map (@concat Z) (chunks 15 4 (expand 52 8 1 (blocks_of 4 key))).

Definition round_key (rk : list (list Z)) (r : nat) : list Z := nth r rk [].

Definition Cipher (rk : list (list Z)) (block : list Z) : list Z :=
  let s := xor_bytes block (round_key rk 0) in
  let s := fold_left (fun s r =>
                        xor_bytes (MixColumns (ShiftRows (map SubByte s)))
                                  (round_key rk r))
                     (seq 1 13) s in
  xor_bytes (ShiftRows (map SubByte s)) (round_key rk 14).

Definition InvCipher (rk : list (list Z)) (block : list Z) : list Z :=
  let s := xor_bytes block (round_key rk 14) in
  let s := fold_left (fun s r =>
                        InvMixColumns
                          (xor_bytes (map InvSubByte (InvShiftRows s))
                                     (round_key rk r)))
                     (rev (seq 1 13)) s in
  xor_bytes (map InvSubByte (InvShiftRows s)) (round_key rk 0).

(** *** CBC and the padding *)

Fixpoint CBC_encrypt (rk : list (list Z)) (previous : list Z) (blocks : list (list Z))
  : list Z :=
  match blocks with
  | [] => []
  | b :: rest =>
      let c := Cipher rk (xor_bytes b previous) in
      c ++ CBC_encrypt rk c rest
  end.

Fixpoint CBC_decrypt (rk : list (list Z)) (previous : list Z) (blocks : list (list Z))
  : list Z :=
  match blocks with
  | [] => []
  | b :: rest => xor_bytes (InvCipher rk b) previous ++ CBC_decrypt rk b rest
  end.

(** [pad.Pkcs7.pad]: one to sixteen bytes, each the number of bytes added. *)
Definition Pkcs7_pad (data : list Z) : list Z :=
  let n := 16 - Z.of_nat (length data) mod 16 in
  data ++ repeat n (Z.to_nat n).

(** A block of the ciphertext; a last block that is short is read with
    zeros for what it lacks (the words the library finds undefined). *)
Definition whole_block (b : list Z) : list Z := firstn 16 (b ++ repeat 0 16).

(** *** Encryption and decryption *)

(** The eight bytes of salt the library draws. *)
Definition salt_bytes (salt : string) : list Z :=
  firstn 8 (Latin1_parse salt ++ repeat 0 8).

Definition Salted : list Z := Latin1_parse "Salted__".

Definition encrypt (salt text password : string) : string :=
  let '(key, iv) := EvpKDF (Utf8_parse password) (salt_bytes salt) in
  let ciphertext :=
    CBC_encrypt (KeyExpansion key) iv (blocks_of 16 (Pkcs7_pad (Utf8_parse text))) in
  Base64_stringify (Salted ++ salt_bytes salt ++ ciphertext).

Definition same_bytes (a b : list Z) : bool :=
  (length a =? length b)%nat && forallb (fun p => fst p =? snd p) (combine a b).

(** [format.OpenSSL.parse]: the salt, if the text opens with [Salted__],
    the ciphertext and the number of its bytes, which is negative when the
    text opens with [Salted__] and holds fewer than 16 bytes. *)
Definition OpenSSL_parse (blob : string) : option (list Z) * list Z * Z :=
  let raw := Base64_parse blob in
  if same_bytes (firstn 8 raw) Salted
  then let salt := firstn 8 (skipn 8 raw) in
       (Some (salt ++ repeat 0 (Z.to_nat ((- Z.of_nat (length salt)) mod 4))),
        skipn 16 raw, Z.of_nat (length raw) - 16)
  else (None, raw, Z.of_nat (length raw)).

(** [pad.Pkcs7.unpad]: the last byte of the word the data ends in is
    taken for the number of padding bytes, whatever it is. *)
Definition Pkcs7_unpad (data : list Z) (sigBytes : Z) : Z :=
  if sigBytes <=? 0 then sigBytes
  else sigBytes - at_ data (4 * ((sigBytes - 1) / 4) + 3).

(** [drawn] is the salt the library draws when the text carries none. *)
Definition decrypt_with (drawn : string) (blob password : string) : option string :=
  let '(salt, ciphertext, sigBytes) := OpenSSL_parse blob in
  let salt := match salt with
              | Some s => s
              | None => salt_bytes drawn
              end in
  let '(key, iv) := EvpKDF (Utf8_parse password) salt in
  let data :=
    CBC_decrypt (KeyExpansion key) iv (map whole_block (blocks_of 16 ciphertext)) in
  let sigBytes := Pkcs7_unpad data sigBytes in
  Utf8_stringify (firstn (Z.to_nat sigBytes) data).

Definition decrypt (blob password : string) : option string :=
  decrypt_with "" blob password.

(** [JSON.stringify(v, null, 2)] *)
Fixpoint stringify_indented (indent : string) (v : value) : string :=
  (let inner := indent ++ "  " in
   let lines := fun items =>
     Js.nl ++ inner ++ Js.join ("," ++ Js.nl ++ inner) items ++ Js.nl ++ indent in
   match v with
   | VArr [] => "[]"
   | VArr l => "[" ++ lines (map (stringify_indented inner) l) ++ "]"
   | VObj ps =>
       match flat_map (fun kv => match kv with
                                 | (_, VUndef) => []
                                 | (k, x) => [Ref.quoted k ++ ": " ++ stringify_indented inner x]
                                 end) ps with
       | [] => "{}"
       | members => "{" ++ lines members ++ "}"
       end
   | _ => Ref.stringify v
   end)%string.

(** The reference runtime with the cipher of crypto-js in the place of the
    stand-in, and with the indentation of [JSON.stringify(v, null, 2)]. *)
Definition runtime : Runtime := {|
  JSON_parse := Ref.parse;
  JSON_stringify := stringify_indented "";
  matter := Ref.matter_parse;
  matter_stringify := Ref.matter_print;
  AES_encrypt := encrypt;
  AES_decrypt := decrypt;
  Date_getTime := Ref.getTime;
  StringToNumber := Ref.to_number
|}.

End CryptoJS.

(** ** Notions used in the statements *)

(** The world [w], with the calls [cs] added to its log. *)
Definition logged (w : World) (cs : list fs_call) : World :=
  mkWorld (dataPath w) (encryptionPassword w) (daily w) (appData w)
          (fsLog w ++ cs)%list.

(** A data folder has been selected. *)
Definition configured (w : World) (root : string) : Prop :=
  dataPath w = Some root /\ root <> "".

(** The [.md] files of [daily/], name and content, as [readdir] lists them. *)
Definition stored_files (w : World) : list (string * string) :=
  map (fun f => (f, match lookup f (daily w) with
                    | Some c => c
                    | None => EmptyString
                    end))
      (filter (fun f => Js.endsWith f ".md") (map fst (daily w))).

(** The [fs] calls of [load_entries]. *)
Definition load_calls (dailyPath : string) (w : World) : list fs_call :=
  Readdir dailyPath
  :: map (fun fc => ReadFile (path_join dailyPath (fst fc))) (stored_files w).

(** The calls of [ensureDataPath]. *)
Definition ensure_calls (root : string) : list fs_call :=
  [Mkdir root; Mkdir (path_join root "daily")].

(** A write to [canonical] as the temp-file-then-rename pattern has it: the
    content goes to another path, which is then renamed to [canonical], and
    [canonical] itself is never the target of a write. *)
Definition atomic_write (calls : list fs_call) (canonical : string) : Prop :=
  (forall content, ~ In (WriteFile canonical content) calls) /\
  exists temp content,
    temp <> canonical /\
    In (WriteFile temp content) calls /\ In (Rename temp canonical) calls.

(** A bound is given when it is a non-empty string; [undefined] and the
    empty string are the absent bound. *)
Definition given (bound : option string) : option string :=
  if truthy_str bound then bound else None.

(** The date bounds of a range query, on date strings: both inclusive, and
    an absent bound imposes nothing. *)
Definition within (startDate endDate : option string) (d : string) : bool :=
  match given startDate with
  | Some s => String.leb s d
  | None => true
  end
  && match given endDate with
     | Some s => String.leb d s
     | None => true
     end.

Definition date_string (e : value) : string :=
  match get_prop_opt e "date" with
  | VStr d => d
  | _ => EmptyString
  end.

(** The record carries a date string. *)
Definition dated (e : value) : Prop := entry_date e = VStr (date_string e).

(** [a] is dated no earlier than [b]. *)
Definition date_geq (a b : value) : Prop :=
  String.leb (date_string b) (date_string a) = true.

(** Number of line terminators in a text. *)
Fixpoint lines (s : string) : nat :=
  match s with
  | EmptyString => O
  | String c s' => if Ascii.eqb c "010" then S (lines s') else lines s'
  end.

Module Shape.

(** A value has the shape a schema describes. *)
Definition check_ok (s : string) (c : Zod.check) : bool :=
  match c with
  | Zod.MinLength n => (n <=? String.length s)%nat
  | Zod.Regex _ pattern => Zod.regex_test pattern s
  end.

Definition above (lo : option Z) (n : Z) : bool :=
  match lo with Some m => m <=? n | None => true end.

Definition below (hi : option Z) (n : Z) : bool :=
  match hi with Some m => n <=? m | None => true end.

Definition all_fields (conforms_field : Zod.ztype -> value -> bool) (ps : props)
  : list (string * Zod.ztype) -> bool :=
  fix all (sh : list (string * Zod.ztype)) : bool :=
    match sh with
    | [] => true
    | (k, tk) :: sh' => conforms_field tk (Zod.field k ps) && all sh'
    end.

Fixpoint conforms (t : Zod.ztype) (v : value) {struct t} : bool :=
  match t with
  | Zod.ZString checks =>
      match v with
      | VStr s => forallb (check_ok s) checks
      | _ => false
      end
  | Zod.ZNumber lo hi =>
      match v with
      | VNum n => above lo n && below hi n
      | _ => false
      end
  | Zod.ZEnum options =>
      match v with
      | VStr s => existsb (String.eqb s) options
      | _ => false
      end
  | Zod.ZArray element =>
      match v with
      | VArr l => forallb (conforms element) l
      | _ => false
      end
  | Zod.ZObject shape =>
      match v with
      | VObj ps => all_fields conforms ps shape
      | _ => false
      end
  | Zod.ZOptional inner =>
      match v with
      | VUndef => true
      | _ => conforms inner v
      end
  end.

(** No object schema names a key twice. *)
Fixpoint fresh (k : string) (keys : list string) : bool :=
  match keys with
  | [] => true
  | k' :: keys' => negb (String.eqb k k') && fresh k keys'
  end.

Definition each_field (ok : Zod.ztype -> bool)
  : list (string * Zod.ztype) -> bool :=
  fix each (sh : list (string * Zod.ztype)) : bool :=
    match sh with
    | [] => true
    | (k, tk) :: sh' => fresh k (map fst sh') && ok tk && each sh'
    end.

Fixpoint distinct_keys (t : Zod.ztype) : bool :=
  match t with
  | Zod.ZArray element => distinct_keys element
  | Zod.ZObject shape => each_field distinct_keys shape
  | Zod.ZOptional inner => distinct_keys inner
  | _ => true
  end.

(** [violates t v p]: the part of [v] at path [p] breaks the rule the schema
    [t] has for it: a wrong type or a missing required field, a value
    outside a closed enum, a number outside its bounds, a string that fails
    a length or format check. *)
Inductive violates : Zod.ztype -> value -> list string -> Prop :=
| not_a_string checks v :
    (forall s, v <> VStr s) -> violates (Zod.ZString checks) v []
| check_fails checks s c :
    In c checks -> check_ok s c = false ->
    violates (Zod.ZString checks) (VStr s) []
| not_a_number lo hi v :
    (forall n, v <> VNum n) -> violates (Zod.ZNumber lo hi) v []
| too_small lo hi n :
    above lo n = false -> violates (Zod.ZNumber lo hi) (VNum n) []
| too_big lo hi n :
    below hi n = false -> violates (Zod.ZNumber lo hi) (VNum n) []
| not_an_option options v :
    (forall s, v = VStr s -> ~ In s options) ->
    violates (Zod.ZEnum options) v []
| not_an_array element v :
    (forall l, v <> VArr l) -> violates (Zod.ZArray element) v []
| in_element element l i x p :
    nth_error l i = Some x -> violates element x p ->
    violates (Zod.ZArray element) (VArr l) (Js.string_of_nat i :: p)
| not_an_object shape v :
    (forall ps, v <> VObj ps) -> violates (Zod.ZObject shape) v []
| in_field shape ps k tk p :
    In (k, tk) shape -> violates tk (Zod.field k ps) p ->
    violates (Zod.ZObject shape) (VObj ps) (k :: p)
| in_optional inner v p :
    v <> VUndef -> violates inner v p -> violates (Zod.ZOptional inner) v p.

End Shape.

(** The CSV row of a record, field by field. *)
Module Csv.

Definition list_of (v : value) : list value :=
  match v with
  | VArr l => l
  | _ => []
  end.

Definition number (v : value) : Z :=
  match v with
  | VNum n => n
  | _ => 0
  end.

Definition foods_of (entry : value) : list value :=
  flat_map (fun meal => list_of (get_prop_opt meal "foods"))
           (list_of (get_prop_opt entry "meals")).

Definition sum_of (k : string) (foods : list value) : Z :=
  fold_right Z.add 0 (map (fun food => number (get_prop_opt food k)) foods).

(** The sum of the nutrient [k] over all foods of all meals. *)
Definition total (k : string) (entry : value) : Z := sum_of k (foods_of entry).

Definition exercise_calories (entry : value) : Z :=
  number (get_prop_opt (get_prop_opt entry "exercise") "caloriesBurned").



Definition row (weight_field : value -> string) (entry : value) : string :=
  Js.join ","
    [ date_string entry;
      Js.string_of_Z (total "calories" entry);
      Js.string_of_Z (total "protein" entry);
      Js.string_of_Z (total "carbs" entry);
      Js.string_of_Z (total "fats" entry);
      Js.string_of_Z (exercise_calories entry);
      weight_field entry;
      Js.string_of_Z (number (get_prop_opt (get_prop_opt entry "water") "glasses")) ]
  ++ Js.nl.



(** Up to 2^53 every whole number is an IEEE double and prints as its
    decimal digits, and a sum of non-negative whole numbers that ends
    within that range is exact at every step.  A record is within the
    range when its four sums and its exercise calories are. *)
Definition exact_up_to : Z := 2 ^ 53.

Definition exact (entry : value) : bool :=
  forallb (fun k => total k entry <=? exact_up_to)
          ["calories"; "protein"; "carbs"; "fats"]
  && (exercise_calories entry <=? exact_up_to).

End Csv.

Section Notions.

Context {rt : Runtime}.

(** What [load_entries] returns in the world [w]. *)
Definition stored_entries (w : World) : exc (list value) :=
  mapM (fun fc => decode_entry (session_password w) (fst fc) (snd fc))
       (stored_files w).

(** A decryption that yields no parseable JSON. *)
Definition unreadable (r : option string) : Prop :=
  match r with
  | None => True
  | Some s => JSON_parse s = None
  end.

(** The contract of the cipher: what is encrypted under a password decrypts
    under it.  Of another password the cipher promises nothing. *)
Definition cipher_correct : Prop :=
  forall salt text p, AES_decrypt (AES_encrypt salt text p) p = Some text.

(** Every record carries a date string the engine reads as a time, and on
    the dates of the records the order of the times is the order of the
    strings (as it is for ISO calendar dates). *)
Definition agree (a b : value) : bool :=
  match entry_date a, entry_date b with
  | VStr da, VStr db =>
      match Date_getTime (VStr da), Date_getTime (VStr db) with
      | Some ta, Some tb => Bool.eqb (ta <=? tb) (String.leb da db)
      | _, _ => false
      end
  | _, _ => false
  end.

Definition chronological (es : list value) : bool :=
  forallb (fun a => forallb (agree a) es) es.

(** The time the engine reads in the date of a record. *)
Definition time_key (e : value) : Z :=
  match Date_getTime (entry_date e) with
  | Some t => t
  | None => 0
  end.

(** The engine reads a time in the date of the record. *)
Definition readable (e : value) : bool :=
  match Date_getTime (entry_date e) with
  | Some _ => true
  | None => false
  end.

(** [a] is read as a time no earlier than [b]. *)
Definition no_older (a b : value) : Prop := time_key b <= time_key a.


(** The file save-daily-entry writes for a validated record. *)
Definition saved_content (salt : string) (w : World) (text : string) : string :=
  match session_password w with
  | Some p => encrypt salt text p
  | None => text
  end.

Definition front_matter (w : World) (validated : value) : value :=
  VObj [ ("date", VStr (date_string validated));
         ("totalCalories", VNum (Csv.total "calories" validated));
         ("encrypted", VBool (truthy_str (encryptionPassword w))) ].

Definition saved_file (salt : string) (w : World) (validated : value) : string :=
  matter_stringify (saved_content salt w (JSON_stringify validated))
                   (front_matter w validated).

Definition daily_path (root : string) (date : string) : string :=
  path_join (path_join root "daily") (date ++ ".md").

Definition settings_path (root : string) : string := path_join root "app-data.json".

(** A reply that reports no error. *)
Definition no_error (r : reply) : Prop :=
  match r with
  | Success _ => True
  | _ => False
  end.

End Notions.

(** ** Sample worlds, run on the reference runtime *)

Module Sample.

Definition food (name : string) (cal p c f : Z) : value :=
  VObj [ ("name", VStr name); ("calories", VNum cal); ("protein", VNum p);
         ("carbs", VNum c); ("fats", VNum f) ].

Definition meal (id mealType time : string) (foods : list value) : value :=
  VObj [ ("id", VStr id); ("mealType", VStr mealType); ("time", VStr time);
         ("foods", VArr foods) ].

Definition water (glasses ounces : Z) : value :=
  VObj [ ("glasses", VNum glasses); ("ounces", VNum ounces) ].

Definition day (id date : string) (meals : list value) (glasses : Z)
           (tags : list string) : value :=
  VObj [ ("id", VStr id); ("date", VStr date); ("meals", VArr meals);
         ("water", water glasses (8 * glasses)); ("tags", VArr (map VStr tags)) ].

Definition breakfast : value :=
  meal "meal-1" "breakfast" "07:30"
       [ food "Greek Yogurt" 150 15 8 4; food "Banana" 105 1 27 0 ].

Definition dinner : value :=
  meal "meal-2" "dinner" "19:00" [ food "Pizza" 700 28 80 30 ].

Definition jan (d : string) : string := "2026-01-" ++ d.

Definition jan10 : value := day (jan "10") (jan "10") [breakfast] 6 [].
Definition jan11 : value := day (jan "11") (jan "11") [dinner] 3 ["cheat-day"].

(** A record whose id is not its date, as the schema allows. *)
Definition jan12_draft : value := day "draft-7" (jan "12") [] 0 [].



Definition settings : value :=
  VObj [ ("savedFoods", VArr []); ("recentMeals", VArr []);
         ("goals", VObj [ ("dailyCalories", VNum 2000); ("protein", VNum 150);
                          ("carbs", VNum 200); ("fats", VNum 65);
                          ("waterGlasses", VNum 8); ("targetWeight", VNum 180) ]);
         ("weightHistory", VArr []) ].

(** A selected data folder, nothing in it, no session password. *)
Definition empty : World := mkWorld (Some "/data") None [] None [].

(** The same with a session password. *)
Definition unlocked : World := mkWorld (Some "/data") (Some "hunter2") [] None [].

Definition save (salt : string) (entry : value) (w : World) : World :=
  snd (save_daily_entry salt entry w).

(** Two days, saved in calendar order. *)
Definition two_days : World := save "s2" jan11 (save "s1" jan10 unlocked).

(** Five days, 2026-01-09 to 2026-01-13. *)
Definition five_days : World :=
  fold_left (fun w d => save d (day (jan d) (jan d) [] 1 []) w)
            ["09"; "10"; "11"; "12"; "13"] unlocked.

(** The file of 2026-01-10 as it was written, and what gray-matter reads in
    it: the front matter and the body. *)
Definition jan10_file : string := saved_file "s1" unlocked jan10.

Definition jan10_parts : value * string :=
  match matter jan10_file with
  | Some parts => parts
  | None => (VUndef, EmptyString)
  end.

Definition listed (w : World) : list value :=
  match stored_entries w with
  | Ok entries => entries
  | Throw _ => []
  end.

(** Two days and a third file whose body is not a cipher blob. *)
Definition one_corrupted : World :=
  with_daily two_days
    (set_key "2026-01-12.md"
             (matter_stringify "%%% damaged %%%"
                               (VObj [("date", VStr (jan "12")); ("encrypted", VBool true)]))
             (daily two_days)).

(** A data folder whose settings were saved under the session password. *)
Definition with_settings : World := snd (save_app_data "s0" settings unlocked).

(** The same after a restart: no session password yet. *)
Definition locked : World := with_password with_settings None.

(** A file whose front matter has an empty date and whose body, in clear,
    is a record dated 2026-01-12. *)
Definition empty_header_date : World :=
  mkWorld (Some "/data") None
          [ ("2026-01-12.md",
             matter_stringify (JSON_stringify jan12_draft)
                              (VObj [("date", VStr ""); ("encrypted", VBool false)])) ]
          None [].

End Sample.

(** ** Further notions *)


(** A call that leaves every file as it is. *)
Definition reads (c : fs_call) : bool :=
  match c with
  | WriteFile _ _ | Rename _ _ | Unlink _ => false
  | _ => true
  end.

(** No data folder is selected: [dataPath] is [null] or empty. *)
Definition unconfigured (w : World) : Prop := truthy_str (dataPath w) = false.

Section MoreNotions.

Context {rt : Runtime}.

(** What get-app-data makes of the content of the settings file. *)
Definition read_settings (w : World) (content : string) : value :=
  match match session_password w with
        | Some p => decrypt content p
        | None => Ok content
        end with
  | Ok text => match JSON_parse text with
               | Some v => v
               | None => VNull
               end
  | Throw _ => VNull
  end.

End MoreNotions.

(** [w'] is [w] after calls that leave every file as it is: the module
    variables and the files are those of [w]. *)
Definition only_reads (w w' : World) : Prop :=
  exists calls, w' = logged w calls /\ forallb reads calls = true.

(** Parsing the output of a parse again. *)
Definition stable (f : list string -> value -> list Zod.issue * value) : Prop :=
  forall p q v, fst (f p v) = [] -> f q (snd (f p v)) = ([], snd (f p v)).

(** A character a date of the form [dddd-dd-dd] is made of. *)
Definition date_char (c : ascii) : bool := Zod.is_digit c || Ascii.eqb c "-".

(** What search-entries selects, read on a record of the schema's shape. *)
Module Selection.

(** The string [v] contains the lowercased query, case ignored. *)
Definition mentions (lowerQuery : string) (v : value) : bool :=
  match v with
  | VStr s => Js.includes (Js.toLowerCase s) lowerQuery
  | _ => false
  end.

(** The notes of the record, or the name of one of its foods, contain the
    query. *)
Definition text_found (lowerQuery : string) (entry : value) : bool :=
  mentions lowerQuery (get_prop_opt entry "notes")
  || existsb (fun food => mentions lowerQuery (get_prop_opt food "name"))
             (Csv.foods_of entry).

(** The record carries the tag, letter for letter. *)
Definition tagged (entry : value) (tag : string) : bool :=
  existsb (fun x => match x with
                    | VStr s => String.eqb s tag
                    | _ => false
                    end)
          (Csv.list_of (get_prop_opt entry "tags")).

(** A string of white space only, or empty. *)
Definition spaces (s : string) : bool := forallb Js.is_space (list_ascii_of_string s).

(** A query that [trim] leaves empty. *)
Definition blank (query : string) : bool := String.eqb (Js.trim query) "".

Definition selects (query : string) (tags : list string) (entry : value) : bool :=
  (blank query || text_found (Js.toLowerCase query) entry)
  && match tags with
     | [] => true
     | _ => existsb (tagged entry) tags
     end.

End Selection.

(** The record is dated [d]. *)
Definition on_day (d : string) (e : value) : bool := String.eqb (date_string e) d.

(** The first element of a list, or a default. *)
Definition first_or (default : value) (l : list value) : value :=
  match l with
  | x :: _ => x
  | [] => default
  end.

(** The number of glasses a record counts. *)
Definition glasses_of (entry : value) : value :=
  get_prop_opt (get_prop_opt entry "water") "glasses".

(** A record with its water replaced by [glasses] glasses of eight ounces,
    and with its meals replaced by [meals]. *)
Definition with_glasses (glasses : Z) (entry : value) : value :=
  VObj (set_key "water"
                (VObj [ ("glasses", VNum glasses); ("ounces", VNum (glasses * 8)) ])
                (spread entry)).

Definition with_meals (meals : list value) (entry : value) : value :=
  VObj (set_key "meals" (VArr meals) (spread entry)).

(** The meal has the id [mealId]. *)
Definition has_id (mealId : string) (meal : value) : bool :=
  match get_prop_opt meal "id" with
  | VStr s => String.eqb s mealId
  | _ => false
  end.

(** ** Further sample worlds *)

Module Cases.

(** The two days, and a third file written by hand: its body, encrypted
    under the session password, is a record without a [tags] property. *)
Definition untagged : World :=
  with_daily Sample.two_days
    (set_key "2026-01-12.md"
             (matter_stringify
                (AES_encrypt "s9"
                   (JSON_stringify
                      (VObj [ ("date", VStr (Sample.jan "12")); ("meals", VArr []);
                              ("water", Sample.water 1 8) ]))
                   "hunter2")
                (VObj [("date", VStr (Sample.jan "12")); ("encrypted", VBool true)]))
             (daily Sample.two_days)).

(** Three days saved in the order of their names; the second passes the
    format of the schema and is no calendar date. *)
Definition february : World :=
  fold_left (fun w d => Sample.save d (Sample.day d d [] 1 []) w)
            ["2026-02-28"; "2026-02-30"; "2026-03-01"] Sample.unlocked.

End Cases.

(** ** Sample worlds, run with the cipher of crypto-js *)

Module Sealed.

(** The settings, saved under the session password hunter2, the cipher
    having drawn the salt [calories]. *)
Definition with_settings : World :=
  snd (save_app_data (rt := CryptoJS.runtime) "calories" Sample.settings
                     Sample.unlocked).

(** The same after a restart: no session password yet. *)
Definition locked : World := with_password with_settings None.


(** The record of 2026-01-10 likewise: its file, and what gray-matter
    reads in it. *)
Definition jan10_file : string :=
  saved_file (rt := CryptoJS.runtime) "tracker1" Sample.unlocked Sample.jan10.

Definition jan10_parts : value * string :=
  match matter (Runtime := CryptoJS.runtime) jan10_file with
  | Some parts => parts
  | None => (VUndef, EmptyString)
  end.

End Sealed.

(** The process after the application is closed and started again: the
    module variables are [null] again; the files of the data folder and
    the electron-store file are what they were. *)
Definition restart (p : Process) : Process :=
  mkProcess (mkWorld None None (daily (world p)) (appData (world p)) (fsLog (world p)))
            (passwordFile p) (storedDataPath p).

(** The records and the settings file of the two processes are the same. *)
Definition same_files (p p' : Process) : Prop :=
  daily (world p') = daily (world p) /\ appData (world p') = appData (world p).

(** * Properties *)

(** ** Association lists *)

Lemma lookup_set_key_same {A} k (v : A) l : lookup k (set_key k v l) = Some v.
Proof.
  induction l as [|[k' v'] l IH]; simpl.
  - now rewrite String.eqb_refl.
  - destruct (String.eqb k k') eqn:E; simpl.
    + now rewrite String.eqb_refl.
    + now rewrite E.
Qed.

Lemma lookup_set_key_other {A} k k' (v : A) l :
  k <> k' -> lookup k' (set_key k v l) = lookup k' l.
Proof.
  intros Hne. induction l as [|[k0 v0] l IH]; simpl.
  - destruct (String.eqb k' k) eqn:E; [|reflexivity].
    apply String.eqb_eq in E. congruence.
  - destruct (String.eqb k k0) eqn:E; simpl.
    + apply String.eqb_eq in E. subst k0.
      destruct (String.eqb k' k) eqn:E'; [|reflexivity].
      apply String.eqb_eq in E'. congruence.
    + now rewrite IH.
Qed.



Lemma lookup_in_keys {A} k (l : list (string * A)) :
  In k (map fst l) -> exists v, lookup k l = Some v.
Proof.
  induction l as [|[k' v'] l IH]; simpl; [tauto|].
  intros [->|Hin].
  - rewrite String.eqb_refl. now eexists.
  - destruct (String.eqb k k'); [now eexists|auto].
Qed.

Lemma lookup_not_in_keys {A} k (l : list (string * A)) :
  ~ In k (map fst l) -> lookup k l = None.
Proof.
  induction l as [|[k' v'] l IH]; simpl; [reflexivity|].
  intros Hn. destruct (String.eqb k k') eqn:E.
  - apply String.eqb_eq in E. subst. tauto.
  - apply IH. tauto.
Qed.

Lemma keys_remove_key {A} k (l : list (string * A)) :
  NoDup (map fst l) -> ~ In k (map fst (remove_key k l)).
Proof.
  induction l as [|[k' v'] l IH]; simpl; [tauto|].
  intros Hnd. inversion Hnd as [|? ? Hnotin Hnd']; subst.
  destruct (String.eqb k k') eqn:E.
  - apply String.eqb_eq in E. now subst.
  - simpl. intros [->|Hin].
    + now rewrite String.eqb_refl in E.
    + now apply IH.
Qed.

(** ** The log, and the block every handler starts with *)

Lemma with_call_logged w c : with_call w c = logged w [c].
Proof. reflexivity. Qed.

Lemma logged_logged w a b : logged (logged w a) b = logged w (a ++ b).
Proof. unfold logged; simpl. now rewrite <- app_assoc. Qed.

Lemma combine_map {A B} (g : A -> B) (l : list A) :
  combine l (map g l) = map (fun a => (a, g a)) l.
Proof. induction l; simpl; congruence. Qed.

Section HandlerFacts.

Context {rt : Runtime}.

Lemma ensureDataPath_configured w root :
  configured w root ->
  ensureDataPath w = (Ok root, logged w (ensure_calls root)).
Proof.
  intros [Hp Hne]. unfold ensureDataPath. rewrite Hp.
  apply String.eqb_neq in Hne. rewrite Hne.
  unfold bind, fs_mkdir, call, ret. rewrite !with_call_logged.
  now rewrite logged_logged.
Qed.

Lemma configured_logged w root cs :
  configured w root -> configured (logged w cs) root.
Proof. now intros [? ?]; split. Qed.

Lemma bind_ok {A B} (m : M A) (k : A -> M B) w a w' :
  m w = (Ok a, w') -> bind m k w = k a w'.
Proof. intros H. unfold bind. now rewrite H. Qed.

Lemma bind_throw {A B} (m : M A) (k : A -> M B) w e w' :
  m w = (Throw e, w') -> bind m k w = (Throw e, w').
Proof. intros H. unfold bind. now rewrite H. Qed.

Lemma fs_readFile_eq dailyPath f w c :
  lookup f (daily w) = Some c ->
  fs_readFile dailyPath f w
  = (Ok c, logged w [ReadFile (path_join dailyPath f)]).
Proof.
  intros H. unfold fs_readFile, bind, call, get_world, lift. simpl.
  now rewrite H.
Qed.

Lemma mapIO_readFile dailyPath names :
  forall w,
    incl names (map fst (daily w)) ->
    mapIO (fs_readFile dailyPath) names w
    = (Ok (map (fun f => match lookup f (daily w) with
                         | Some c => c
                         | None => EmptyString
                         end) names),
       logged w (map (fun f => ReadFile (path_join dailyPath f)) names)).
Proof.
  induction names as [|f names IH]; intros w Hincl; cbn [mapIO map].
  - unfold ret, logged. rewrite app_nil_r. now destruct w.
  - destruct (lookup_in_keys f (daily w)) as [c Hc].
    { apply Hincl. now left. }
    rewrite (bind_ok _ _ _ _ _ (fs_readFile_eq dailyPath f w c Hc)).
    erewrite bind_ok.
    2:{ apply IH. intros x Hx. apply Hincl. now right. }
    unfold ret. rewrite logged_logged. cbn [daily logged]. now rewrite Hc.
Qed.

Lemma load_entries_eq dailyPath w :
  load_entries dailyPath w = (stored_entries w, logged w (load_calls dailyPath w)).
Proof.
  unfold load_entries, fs_readdir, bind, call, get_world, ret. simpl.
  rewrite with_call_logged.
  rewrite mapIO_readFile.
  2:{ intros x Hx. apply filter_In in Hx. exact (proj1 Hx). }
  simpl. unfold lift. rewrite logged_logged. rewrite combine_map.
  unfold stored_entries, load_calls. unfold stored_files.
  rewrite map_map. reflexivity.
Qed.

Lemma stored_entries_logged w cs : stored_entries (logged w cs) = stored_entries w.
Proof. reflexivity. Qed.

(** get-daily-entries, once a data folder is selected. *)
Lemma get_daily_entries_eq w root startDate endDate :
  configured w root ->
  get_daily_entries startDate endDate w
  = (match stored_entries w with
     | Ok entries => js_sort by_date_desc (range_filter startDate endDate entries)
     | Throw _ => []
     end,
     logged w (ensure_calls root ++ load_calls (path_join root "daily") w)).
Proof.
  intros Hc. unfold get_daily_entries, try_handler, bind.
  rewrite (ensureDataPath_configured _ _ Hc).
  rewrite load_entries_eq, stored_entries_logged, logged_logged.
  change (load_calls (path_join root "daily") (logged w (ensure_calls root)))
    with (load_calls (path_join root "daily") w).
  now destruct (stored_entries w).
Qed.

(** search-entries, once a data folder is selected. *)
Lemma search_entries_eq w root query tags :
  configured w root ->
  search_entries query tags w
  = (match stored_entries w with
     | Ok entries => match search_filter query tags entries with
                     | Ok found => found
                     | Throw _ => []
                     end
     | Throw _ => []
     end,
     logged w (ensure_calls root ++ load_calls (path_join root "daily") w)).
Proof.
  intros Hc. unfold search_entries, try_handler, bind.
  rewrite (ensureDataPath_configured _ _ Hc).
  rewrite load_entries_eq, stored_entries_logged, logged_logged.
  change (load_calls (path_join root "daily") (logged w (ensure_calls root)))
    with (load_calls (path_join root "daily") w).
  destruct (stored_entries w) as [es|]; [|reflexivity].
  unfold lift. now destruct (search_filter query tags es).
Qed.

End HandlerFacts.

(** ** The schemas *)

Module ZodFacts.

Import Zod Shape.

Lemma ztype_nested_ind (P : ztype -> Prop)
      (Hstring : forall checks, P (ZString checks))
      (Hnumber : forall lo hi, P (ZNumber lo hi))
      (Henum : forall options, P (ZEnum options))
      (Harray : forall element, P element -> P (ZArray element))
      (Hobject : forall shape, Forall (fun kt => P (snd kt)) shape -> P (ZObject shape))
      (Hoptional : forall inner, P inner -> P (ZOptional inner)) :
  forall t, P t.
Proof.
  fix IH 1. intros [checks|lo hi|options|element|shape|inner].
  - apply Hstring.
  - apply Hnumber.
  - apply Henum.
  - apply Harray, IH.
  - apply Hobject.
    induction shape as [|[k tk] shape IHshape]; constructor.
    + apply IH.
    + exact IHshape.
  - apply Hoptional, IH.
Qed.

Lemma fresh_not_in k keys : fresh k keys = true -> ~ In k keys.
Proof.
  induction keys as [|k' keys IH]; simpl; [tauto|].
  intros H. apply andb_prop in H. destruct H as [H1 H2].
  intros [->|Hin].
  - now rewrite String.eqb_refl in H1.
  - now apply IH.
Qed.

Lemma field_not_in k (ps : props) : ~ In k (map fst ps) -> field k ps = VUndef.
Proof. intros H. unfold field. now rewrite lookup_not_in_keys. Qed.

Lemma check_issues_nil p s c : check_issues p s c = [] -> check_ok s c = true.
Proof.
  destruct c as [n|source pattern]; simpl.
  - now destruct (n <=? String.length s)%nat.
  - now destruct (regex_test pattern s).
Qed.

Lemma checks_pass p s checks :
  flat_map (check_issues p s) checks = [] -> forallb (check_ok s) checks = true.
Proof.
  induction checks as [|c checks IH]; simpl; [reflexivity|].
  intros H. apply app_eq_nil in H. destruct H as [H1 H2].
  now rewrite (check_issues_nil _ _ _ H1), IH.
Qed.

Lemma minimum_issues_nil p n lo : minimum_issues p n lo = [] -> above lo n = true.
Proof. destruct lo as [m|]; simpl; [|reflexivity]. now destruct (m <=? n). Qed.

Lemma maximum_issues_nil p n hi : maximum_issues p n hi = [] -> below hi n = true.
Proof. destruct hi as [m|]; simpl; [|reflexivity]. now destruct (n <=? m). Qed.

Lemma parse_elements_sound (f : list string -> value -> list issue * value)
      (ok : value -> bool) p :
  (forall q v, fst (f q v) = [] -> ok (snd (f q v)) = true) ->
  forall l i,
    fst (parse_elements f p i l) = [] ->
    forallb ok (snd (parse_elements f p i l)) = true.
Proof.
  intros Hf. induction l as [|x l IH]; intros i; simpl; [reflexivity|].
  specialize (Hf (p ++ [Js.string_of_nat i])%list x).
  destruct (f (p ++ [Js.string_of_nat i])%list x) as [is1 o1].
  specialize (IH (S i)).
  destruct (parse_elements f p (S i) l) as [is2 o2]. simpl in *.
  intros H. apply app_eq_nil in H. destruct H as [-> ->].
  now rewrite Hf, IH.
Qed.

Lemma parse_fields_keys (f : ztype -> list string -> value -> list issue * value)
      p ps sh k :
  In k (map fst (snd (parse_fields f p ps sh))) -> In k (map fst sh).
Proof.
  induction sh as [|[k' tk] sh IH]; simpl; [tauto|].
  destruct (f tk (p ++ [k'])%list (field k' ps)) as [is1 o1].
  destruct (parse_fields f p ps sh) as [is2 o2]. simpl in *.
  destruct (is_undef o1); simpl; intuition.
Qed.

Lemma all_fields_ext (ok : ztype -> value -> bool) (a b : props) sh :
  (forall k, In k (map fst sh) -> field k a = field k b) ->
  all_fields ok a sh = all_fields ok b sh.
Proof.
  induction sh as [|[k tk] sh IH]; simpl; [reflexivity|].
  intros H. rewrite (H k) by now left. rewrite IH; [reflexivity|].
  intros k' Hk'. apply H. now right.
Qed.

Lemma is_undef_true v : is_undef v = true -> v = VUndef.
Proof. now destruct v. Qed.

Lemma parse_fields_sound (f : ztype -> list string -> value -> list issue * value)
      (ok : ztype -> value -> bool) p ps :
  forall sh,
    Forall (fun kt => forall q v, fst (f (snd kt) q v) = [] ->
                                  ok (snd kt) (snd (f (snd kt) q v)) = true) sh ->
    each_field (fun _ => true) sh = true ->
    fst (parse_fields f p ps sh) = [] ->
    all_fields ok (snd (parse_fields f p ps sh)) sh = true.
Proof.
  induction sh as [|[k tk] sh IH]; intros Hall Hkeys; simpl; [reflexivity|].
  inversion Hall as [|? ? Hk Hsh]; subst. simpl in Hk, Hkeys.
  apply andb_prop in Hkeys. destruct Hkeys as [Hfresh Hkeys].
  rewrite andb_true_r in Hfresh. apply fresh_not_in in Hfresh.
  specialize (Hk (p ++ [k])%list (field k ps)).
  specialize (IH Hsh Hkeys).
  pose proof (parse_fields_keys f p ps sh k) as Hsub.
  destruct (f tk (p ++ [k])%list (field k ps)) as [is1 o1].
  destruct (parse_fields f p ps sh) as [is2 o2]. simpl in *.
  intros H. apply app_eq_nil in H. destruct H as [-> ->].
  specialize (Hk eq_refl). specialize (IH eq_refl).
  destruct (is_undef o1) eqn:Hu.
  - apply is_undef_true in Hu. subst o1.
    rewrite field_not_in by tauto. now rewrite Hk.
  - unfold field at 1. simpl. rewrite String.eqb_refl. rewrite Hk. simpl.
    rewrite <- IH. apply all_fields_ext.
    intros k' Hk'. unfold field. simpl.
    destruct (String.eqb k' k) eqn:E; [|reflexivity].
    apply String.eqb_eq in E. subst. tauto.
Qed.

Lemma each_field_weaken (ok : ztype -> bool) sh :
  each_field ok sh = true ->
  each_field (fun _ => true) sh = true /\ Forall (fun kt => ok (snd kt) = true) sh.
Proof.
  induction sh as [|[k tk] sh IH]; simpl; [now split|].
  intros H. apply andb_prop in H. destruct H as [H H3].
  apply andb_prop in H. destruct H as [H1 H2].
  destruct (IH H3) as [IH1 IH2]. rewrite H1, IH1. split; [reflexivity|].
  now constructor.
Qed.

(** A parse without issues returns a value of the schema's shape. *)
Lemma parse_sound t :
  distinct_keys t = true ->
  forall p v, fst (parse t p v) = [] -> conforms t (snd (parse t p v)) = true.
Proof.
  induction t as [checks|lo hi|options|element IH|shape IH|inner IH]
    using ztype_nested_ind; intros Hd p v; simpl.
  - destruct v; simpl; try discriminate. apply checks_pass.
  - destruct v; simpl; try discriminate.
    intros H. apply app_eq_nil in H. destruct H as [H1 H2].
    now rewrite (minimum_issues_nil _ _ _ H1), (maximum_issues_nil _ _ _ H2).
  - destruct v; simpl; try discriminate.
    destruct (existsb (String.eqb s) options) eqn:E; simpl; [|discriminate].
    now rewrite E.
  - destruct v; simpl; try discriminate.
    pose proof (parse_elements_sound (parse element) (conforms element) p
                                     (IH Hd) elems 0%nat) as Hs.
    destruct (parse_elements (parse element) p 0%nat elems) as [issues out].
    exact Hs.
  - destruct v; simpl; try discriminate.
    simpl in Hd. apply each_field_weaken in Hd. destruct Hd as [Hk Hd].
    assert (Hall : Forall (fun kt => forall q v,
                               fst (parse (snd kt) q v) = [] ->
                               conforms (snd kt) (snd (parse (snd kt) q v)) = true)
                          shape).
    { rewrite Forall_forall in *. intros kt Hin. apply IH; auto. }
    pose proof (parse_fields_sound parse conforms p props0 shape Hall Hk) as Hs.
    destruct (parse_fields parse p props0 shape) as [issues out].
    exact Hs.
  - assert (Hopt : fst (parse inner p v) = [] ->
                   conforms (ZOptional inner) (snd (parse inner p v)) = true).
    { intros H. pose proof (IH Hd p v H) as Hc. simpl.
      now destruct (snd (parse inner p v)). }
    destruct v; simpl; try reflexivity; exact Hopt.
Qed.

Lemma validateData_sound schema data validated :
  distinct_keys schema = true ->
  validateData schema data = inl validated ->
  conforms schema validated = true.
Proof.
  intros Hd. unfold validateData.
  pose proof (parse_sound schema Hd [] data) as Hs.
  destruct (parse schema [] data) as [issues out]. simpl in Hs.
  destruct issues; [|discriminate].
  intros [= <-]. now apply Hs.
Qed.

End ZodFacts.

(** ** Records of the schemas' shape *)

Module ShapeFacts.

Import Zod Shape.

Lemma conforms_string checks v :
  conforms (ZString checks) v = true ->
  exists s, v = VStr s /\ forallb (check_ok s) checks = true.
Proof. destruct v; simpl; try discriminate. eauto. Qed.

Lemma conforms_number lo hi v :
  conforms (ZNumber lo hi) v = true ->
  exists n, v = VNum n /\ above lo n = true /\ below hi n = true.
Proof.
  destruct v; simpl; try discriminate.
  intros H. apply andb_prop in H. eauto.
Qed.

Lemma conforms_array element v :
  conforms (ZArray element) v = true ->
  exists l, v = VArr l /\ forallb (conforms element) l = true.
Proof. destruct v; simpl; try discriminate. eauto. Qed.

Lemma conforms_object shape v :
  conforms (ZObject shape) v = true ->
  exists ps, v = VObj ps /\ all_fields conforms ps shape = true.
Proof. destruct v; simpl; try discriminate. eauto. Qed.

Lemma conforms_optional inner v :
  conforms (ZOptional inner) v = true -> v = VUndef \/ conforms inner v = true.
Proof. destruct v; simpl; auto. Qed.

Lemma get_prop_obj ps k : get_prop (VObj ps) k = Ok (field k ps).
Proof. reflexivity. Qed.

Lemma get_prop_opt_obj ps k : get_prop_opt (VObj ps) k = field k ps.
Proof. reflexivity. Qed.

(** What a food that passed [FoodItemSchema] holds. *)
Lemma food_shape food :
  conforms FoodItemSchema food = true ->
  exists ps c p cb f,
    food = VObj ps /\ field "calories" ps = VNum c /\ field "protein" ps = VNum p
    /\ field "carbs" ps = VNum cb /\ field "fats" ps = VNum f.
Proof.
  intros H. apply conforms_object in H. destruct H as (ps & -> & H).
  cbn [all_fields] in H.
  apply andb_prop in H. destruct H as [_ H].
  apply andb_prop in H. destruct H as [Hc H].
  apply andb_prop in H. destruct H as [Hp H].
  apply andb_prop in H. destruct H as [Hcb H].
  apply andb_prop in H. destruct H as [Hf _].
  apply conforms_number in Hc, Hp, Hcb, Hf.
  destruct Hc as (c & ? & _), Hp as (p & ? & _), Hcb as (cb & ? & _), Hf as (f & ? & _).
  exists ps, c, p, cb, f. auto.
Qed.

Lemma meal_shape meal :
  conforms MealEntrySchema meal = true ->
  exists ps foods,
    meal = VObj ps /\ field "foods" ps = VArr foods
    /\ forallb (conforms FoodItemSchema) foods = true.
Proof.
  intros H. apply conforms_object in H. destruct H as (ps & -> & H).
  cbn [all_fields] in H.
  apply andb_prop in H. destruct H as [_ H].
  apply andb_prop in H. destruct H as [_ H].
  apply andb_prop in H. destruct H as [_ H].
  apply andb_prop in H. destruct H as [Hfoods _].
  apply conforms_array in Hfoods. destruct Hfoods as (foods & ? & ?).
  exists ps, foods. auto.
Qed.

(** What a record that passed [DailyEntrySchema] holds. *)
Lemma entry_shape entry :
  conforms DailyEntrySchema entry = true ->
  exists ps d meals water g,
    entry = VObj ps
    /\ field "date" ps = VStr d /\ check_ok d date_regex = true
    /\ field "meals" ps = VArr meals
    /\ forallb (conforms MealEntrySchema) meals = true
    /\ field "water" ps = VObj water /\ field "glasses" water = VNum g
    /\ (field "exercise" ps = VUndef
        \/ exists ex n, field "exercise" ps = VObj ex
                        /\ field "caloriesBurned" ex = VNum n)
    /\ (field "weight" ps = VUndef \/ exists n, field "weight" ps = VNum n).
Proof.
  intros H. apply conforms_object in H. destruct H as (ps & -> & H).
  cbn [all_fields] in H.
  apply andb_prop in H. destruct H as [_ H].
  apply andb_prop in H. destruct H as [H1 H].
  apply andb_prop in H. destruct H as [H2 H].
  apply andb_prop in H. destruct H as [H3 H].
  apply andb_prop in H. destruct H as [H4 H].
  apply andb_prop in H. destruct H as [H5 _].
  apply conforms_string in H1. destruct H1 as (d & Hd & Hre).
  cbn [forallb] in Hre. rewrite andb_true_r in Hre.
  apply conforms_array in H2. destruct H2 as (meals & Hm & Hmeals).
  apply conforms_object in H3. destruct H3 as (water & Hw & Hwater).
  cbn [all_fields] in Hwater.
  apply andb_prop in Hwater. destruct Hwater as [Hg _].
  apply conforms_number in Hg. destruct Hg as (g & Hg & _).
  apply conforms_optional in H4, H5.
  exists ps, d, meals, water, g. repeat split; auto.
  - destruct H4 as [H4|H4]; [now left|right].
    apply conforms_object in H4. destruct H4 as (ex & Hex & Hf).
    cbn [all_fields] in Hf.
    apply andb_prop in Hf. destruct Hf as [_ Hf].
    apply andb_prop in Hf. destruct Hf as [_ Hf].
    apply andb_prop in Hf. destruct Hf as [Hburned _].
    apply conforms_number in Hburned. destruct Hburned as (n & Hn & _).
    exists ex, n. auto.
  - destruct H5 as [H5|H5]; [now left|right].
    apply conforms_number in H5. destruct H5 as (n & Hn & _). eauto.
Qed.

Lemma sum_of_app k l1 l2 :
  Csv.sum_of k (l1 ++ l2) = Csv.sum_of k l1 + Csv.sum_of k l2.
Proof.
  unfold Csv.sum_of. induction l1 as [|x l1 IH]; simpl; [reflexivity|].
  rewrite IH. lia.
Qed.

Lemma sum_of_cons k ps foods :
  Csv.sum_of k (VObj ps :: foods) = Csv.number (field k ps) + Csv.sum_of k foods.
Proof. reflexivity. Qed.

Lemma sum_of_nil k : Csv.sum_of k [] = 0.
Proof. reflexivity. Qed.

Lemma js_plus_num a b : js_plus (VNum a) (VNum b) = VNum (a + b).
Proof. reflexivity. Qed.



Lemma totalCalories_foods foods :
  forallb (conforms FoodItemSchema) foods = true ->
  forall a,
    reduceM food_calories foods (VNum a)
    = Ok (VNum (a + Csv.sum_of "calories" foods)).
Proof.
  induction foods as [|food foods IH]; intros Hall a.
  - cbn [reduceM]. now rewrite sum_of_nil, Z.add_0_r.
  - cbn [forallb] in Hall. apply andb_prop in Hall. destruct Hall as [Hfood Hall].
    apply food_shape in Hfood.
    destruct Hfood as (ps & x & y & z & u & -> & Hx & _).
    cbn [reduceM]. unfold food_calories at 1. rewrite get_prop_obj.
    cbn [exc_bind]. rewrite Hx, js_plus_num, (IH Hall), sum_of_cons, Hx.
    cbn [Csv.number]. now rewrite Z.add_assoc.
Qed.

Lemma totalCalories_meals meals :
  forallb (conforms MealEntrySchema) meals = true ->
  forall a,
    reduceM meal_calories meals (VNum a)
    = Ok (VNum (a + Csv.sum_of "calories"
                      (flat_map (fun meal => Csv.list_of (get_prop_opt meal "foods"))
                                meals))).
Proof.
  induction meals as [|meal meals IH]; intros Hall a.
  - cbn [reduceM flat_map]. now rewrite sum_of_nil, Z.add_0_r.
  - cbn [forallb] in Hall. apply andb_prop in Hall. destruct Hall as [Hmeal Hall].
    apply meal_shape in Hmeal. destruct Hmeal as (ps & foods & -> & Hf & Hfoods).
    cbn [reduceM flat_map]. unfold meal_calories at 1.
    rewrite get_prop_obj, get_prop_opt_obj, Hf.
    cbn [exc_bind as_array Csv.list_of].
    rewrite (totalCalories_foods foods Hfoods). cbn [exc_bind].
    rewrite js_plus_num, (IH Hall), sum_of_app. do 2 f_equal. lia.
Qed.

(** The [totalCalories] of the front matter is computed without error on a
    validated record. *)
Lemma totalCalories_validated entry :
  conforms DailyEntrySchema entry = true ->
  totalCalories entry = Ok (VNum (Csv.total "calories" entry)).
Proof.
  intros H. apply entry_shape in H.
  destruct H as (ps & d & meals & water & g & -> & _ & _ & Hm & Hmeals & _).
  unfold totalCalories. rewrite get_prop_obj. cbn [exc_bind].
  rewrite Hm. cbn [exc_bind as_array].
  rewrite (totalCalories_meals meals Hmeals).
  unfold Csv.total, Csv.foods_of. rewrite get_prop_opt_obj, Hm. reflexivity.
Qed.

End ShapeFacts.

(** ** The save and delete handlers *)

Section SaveFacts.

Context {rt : Runtime}.

Import Zod Shape.

Lemma DailyEntrySchema_distinct : distinct_keys DailyEntrySchema = true.
Proof. reflexivity. Qed.

Lemma AppDataSchema_distinct : distinct_keys AppDataSchema = true.
Proof. reflexivity. Qed.

Lemma validated_date validated :
  conforms DailyEntrySchema validated = true ->
  get_prop validated "date" = Ok (VStr (date_string validated))
  /\ check_ok (date_string validated) date_regex = true.
Proof.
  intros H. apply ShapeFacts.entry_shape in H.
  destruct H as (ps & d & meals & water & g & -> & Hd & Hre & _).
  unfold date_string. rewrite ShapeFacts.get_prop_obj, ShapeFacts.get_prop_opt_obj, Hd.
  now split.
Qed.

Lemma session_password_logged w cs :
  session_password (logged w cs) = session_password w.
Proof. reflexivity. Qed.

(** save-daily-entry on a record that passes validation. *)
Lemma save_daily_entry_valid w root salt entry validated :
  configured w root ->
  validateData DailyEntrySchema entry = inl validated ->
  save_daily_entry salt entry w
  = (Success (Some (VStr (date_string validated))),
     with_daily
       (logged w (ensure_calls root
                  ++ [WriteFile (daily_path root (date_string validated))
                                (saved_file salt w validated)]))
       (set_key (date_string validated ++ ".md") (saved_file salt w validated)
                (daily w))).
Proof.
  intros Hc Hv.
  pose proof (ZodFacts.validateData_sound _ _ _ DailyEntrySchema_distinct Hv) as Hs.
  destruct (validated_date _ Hs) as [Hd _].
  unfold save_daily_entry, try_handler.
  rewrite (bind_ok _ _ _ _ _ (ensureDataPath_configured _ _ Hc)).
  rewrite Hv. unfold bind, lift, get_world. rewrite Hd.
  rewrite (ShapeFacts.totalCalories_validated _ Hs).
  unfold fs_writeFile, bind, call, ret. cbn [ToString].
  rewrite with_call_logged, logged_logged. reflexivity.
Qed.

(** save-daily-entry on a record that fails validation. *)
Lemma save_daily_entry_invalid w root salt entry error :
  configured w root ->
  validateData DailyEntrySchema entry = inr error ->
  save_daily_entry salt entry w
  = (ValidationFailure error, logged w (ensure_calls root)).
Proof.
  intros Hc Hv. unfold save_daily_entry, try_handler.
  rewrite (bind_ok _ _ _ _ _ (ensureDataPath_configured _ _ Hc)).
  now rewrite Hv.
Qed.

Lemma save_app_data_valid w root salt data validated :
  configured w root ->
  validateData AppDataSchema data = inl validated ->
  save_app_data salt data w
  = (Success None,
     with_appData
       (logged w (ensure_calls root
                  ++ [WriteFile (settings_path root)
                                (saved_content salt w (JSON_stringify validated))]))
       (Some (saved_content salt w (JSON_stringify validated)))).
Proof.
  intros Hc Hv. unfold save_app_data, try_handler.
  rewrite (bind_ok _ _ _ _ _ (ensureDataPath_configured _ _ Hc)).
  rewrite Hv. unfold bind, get_world, fs_writeFile_appData, bind, call, ret.
  rewrite with_call_logged, logged_logged. reflexivity.
Qed.

Lemma save_app_data_invalid w root salt data error :
  configured w root ->
  validateData AppDataSchema data = inr error ->
  save_app_data salt data w
  = (ValidationFailure error, logged w (ensure_calls root)).
Proof.
  intros Hc Hv. unfold save_app_data, try_handler.
  rewrite (bind_ok _ _ _ _ _ (ensureDataPath_configured _ _ Hc)).
  now rewrite Hv.
Qed.

Lemma delete_daily_entry_present w root entryId content :
  configured w root ->
  lookup (entryId ++ ".md") (daily w) = Some content ->
  delete_daily_entry entryId w
  = (Success None,
     with_daily (logged w (ensure_calls root ++ [Unlink (daily_path root entryId)]))
                (remove_key (entryId ++ ".md") (daily w))).
Proof.
  intros Hc Hl. unfold delete_daily_entry, try_handler.
  rewrite (bind_ok _ _ _ _ _ (ensureDataPath_configured _ _ Hc)).
  unfold fs_unlink, bind, call, ret. cbn [daily with_call logged].
  rewrite Hl. rewrite with_call_logged, logged_logged. reflexivity.
Qed.

Lemma delete_daily_entry_absent w root entryId :
  configured w root ->
  lookup (entryId ++ ".md") (daily w) = None ->
  delete_daily_entry entryId w
  = (Failure ENOENT,
     logged w (ensure_calls root ++ [Unlink (daily_path root entryId)])).
Proof.
  intros Hc Hl. unfold delete_daily_entry, try_handler.
  rewrite (bind_ok _ _ _ _ _ (ensureDataPath_configured _ _ Hc)).
  unfold fs_unlink, bind, call, ret. cbn [daily with_call logged].
  rewrite Hl. rewrite with_call_logged, logged_logged. reflexivity.
Qed.

End SaveFacts.

(** ** verify-password *)

Section VerifyFacts.

Context {rt : Runtime}.

Lemma appData_logged w cs : appData (logged w cs) = appData w.
Proof. reflexivity. Qed.

Lemma appData_with_call w c : appData (with_call w c) = appData w.
Proof. reflexivity. Qed.

Lemma verify_password_fresh w root candidate :
  configured w root ->
  appData w = None ->
  verify_password candidate w
  = (true,
     with_password (logged w (ensure_calls root ++ [ExistsSync (settings_path root)]))
                   (Some candidate)).
Proof.
  intros Hc Ha. unfold verify_password, try_handler.
  rewrite (bind_ok _ _ _ _ _ (ensureDataPath_configured _ _ Hc)).
  unfold fs_existsSync_appData, bind, call, get_world, ret, set_encryptionPassword.
  rewrite with_call_logged, logged_logged. cbn [appData logged]. rewrite Ha.
  reflexivity.
Qed.

Lemma verify_password_unreadable w root candidate content :
  configured w root ->
  appData w = Some content ->
  unreadable (AES_decrypt content candidate) ->
  verify_password candidate w
  = (false,
     logged w (ensure_calls root
               ++ [ExistsSync (settings_path root); ReadFile (settings_path root)])).
Proof.
  intros Hc Ha Hu. unfold verify_password, try_handler.
  rewrite (bind_ok _ _ _ _ _ (ensureDataPath_configured _ _ Hc)).
  unfold fs_existsSync_appData, fs_readFile_appData, catch, bind, call, get_world,
    ret, lift, decrypt.
  rewrite ?appData_with_call, ?appData_logged, Ha. cbn [of_option].
  rewrite ?appData_with_call, ?appData_logged, Ha. cbn [of_option].
  assert (Hw : with_call (with_call (logged w (ensure_calls root))
                                    (ExistsSync (path_join root "app-data.json")))
                         (ReadFile (path_join root "app-data.json"))
               = logged w (ensure_calls root
                           ++ [ExistsSync (settings_path root);
                               ReadFile (settings_path root)])).
  { now rewrite !with_call_logged, !logged_logged. }
  unfold unreadable in Hu.
  destruct (AES_decrypt content candidate) as [text|]; cbn [of_option].
  - rewrite Hu. cbn [of_option]. now rewrite Hw.
  - now rewrite Hw.
Qed.

Lemma verify_password_readable w root candidate content text v :
  configured w root ->
  appData w = Some content ->
  AES_decrypt content candidate = Some text ->
  JSON_parse text = Some v ->
  verify_password candidate w
  = (true,
     with_password
       (logged w (ensure_calls root
                  ++ [ExistsSync (settings_path root); ReadFile (settings_path root)]))
       (Some candidate)).
Proof.
  intros Hc Ha Hd Hp. unfold verify_password, try_handler.
  rewrite (bind_ok _ _ _ _ _ (ensureDataPath_configured _ _ Hc)).
  unfold fs_existsSync_appData, fs_readFile_appData, catch, bind, call, get_world,
    ret, lift, decrypt, set_encryptionPassword.
  rewrite ?appData_with_call, ?appData_logged, Ha. cbn [of_option].
  rewrite ?appData_with_call, ?appData_logged, Ha. cbn [of_option].
  rewrite Hd. cbn [of_option]. rewrite Hp. cbn [of_option].
  now rewrite !with_call_logged, !logged_logged.
Qed.

End VerifyFacts.

(** ** The reference cipher keeps the cipher contract *)

Module RefFacts.

Import Ref.

Lemma untag_tag s rest : untag (tag s ++ rest) = Some (s, rest).
Proof.
  induction s as [|c s IH]; [reflexivity|].
  cbn [tag append untag]. now rewrite IH.
Qed.

Lemma unseal_seal salt text p : unseal (seal salt text p) p = Some text.
Proof.
  unfold unseal, seal. rewrite untag_tag, untag_tag.
  now rewrite String.eqb_refl.
Qed.

Lemma cipher_correct : @cipher_correct runtime.
Proof. intros salt text p. apply unseal_seal. Qed.

End RefFacts.

(** ** The cipher of crypto-js on known answers *)

Module CryptoFacts.

Import CryptoJS.

(** RFC 1321, appendix A.5: the digests of the empty message and of abc. *)
Example md5_known_answers :
  MD5 []
  = [ 0xd4; 0x1d; 0x8c; 0xd9; 0x8f; 0x00; 0xb2; 0x04;
      0xe9; 0x80; 0x09; 0x98; 0xec; 0xf8; 0x42; 0x7e ]
  /\ MD5 (Latin1_parse "abc")
     = [ 0x90; 0x01; 0x50; 0x98; 0x3c; 0xd2; 0x4f; 0xb0;
         0xd6; 0x96; 0x3f; 0x7d; 0x28; 0xe1; 0x7f; 0x72 ].
Proof. vm_compute. split; reflexivity. Qed.

(** FIPS 197, appendix C.3: the key 00 01 .. 1f and the block
    00 11 .. ff. *)
Example aes256_known_answer :
  let rk := KeyExpansion (map Z.of_nat (seq 0 32)) in
  let block := map (fun i => 17 * Z.of_nat i) (seq 0 16) in
  Cipher rk block
  = [ 0x8e; 0xa2; 0xb7; 0xca; 0x51; 0x67; 0x45; 0xbf;
      0xea; 0xfc; 0x49; 0x90; 0x4b; 0x49; 0x60; 0x89 ]
  /\ InvCipher rk (Cipher rk block) = block.
Proof. vm_compute. split; reflexivity. Qed.

(** The blob of hello world under hunter2 and the salt 01 .. 08, which
    [openssl enc -aes-256-cbc -md md5] decrypts. *)
Example hello_world :
  let blob := "U2FsdGVkX18BAgMEBQYHCE6mvXhup3Yxfk8lVK4axhg=" in
  encrypt (Latin1_stringify [1; 2; 3; 4; 5; 6; 7; 8]) "hello world" "hunter2" = blob
  /\ decrypt blob "hunter2" = Some "hello world"
  /\ decrypt (blob ++ Js.nl) "hunter2" = Some "hello world".
Proof. vm_compute. repeat split; reflexivity. Qed.

End CryptoFacts.

(** ** Filtering and sorting by date *)

Section SortFacts.

Context {rt : Runtime}.

Lemma sort_insert_perm cmp x l : Permutation (sort_insert cmp x l) (x :: l).
Proof.
  induction l as [|y l IH]; simpl; [reflexivity|].
  destruct (keeps_before cmp x y); [reflexivity|].
  rewrite IH. apply perm_swap.
Qed.

Lemma js_sort_perm cmp l : Permutation (js_sort cmp l) l.
Proof.
  induction l as [|x l IH]; simpl; [reflexivity|].
  rewrite sort_insert_perm. now constructor.
Qed.

(** Insertion keeps a list sorted when, on the elements at hand, the
    comparator is the order of an integer key. *)
Lemma sort_insert_sorted (key : value -> Z) (S : value -> Prop) cmp x l :
  (forall a b, S a -> S b -> keeps_before cmp a b = (key b <=? key a)) ->
  S x -> Forall S l ->
  StronglySorted (fun a b => key b <= key a) l ->
  StronglySorted (fun a b => key b <= key a) (sort_insert cmp x l).
Proof.
  intros Hcmp Hx. induction l as [|y l IH]; intros HS Hsorted; simpl.
  - repeat constructor.
  - inversion HS as [|? ? Hy HSl]; subst.
    inversion Hsorted as [|? ? Hl Hyl]; subst.
    rewrite (Hcmp x y Hx Hy).
    destruct (key y <=? key x) eqn:E.
    + apply Z.leb_le in E. constructor; [assumption|].
      constructor; [assumption|].
      eapply Forall_impl; [|exact Hyl]. simpl. intros z Hz. lia.
    + apply Z.leb_gt in E. constructor; [now apply IH|].
      eapply Permutation_Forall.
      * symmetry. apply sort_insert_perm.
      * constructor; [lia|assumption].
Qed.

Lemma js_sort_sorted (key : value -> Z) (S : value -> Prop) cmp l :
  (forall a b, S a -> S b -> keeps_before cmp a b = (key b <=? key a)) ->
  Forall S l ->
  StronglySorted (fun a b => key b <= key a) (js_sort cmp l).
Proof.
  intros Hcmp. induction l as [|x l IH]; intros HS; simpl; [constructor|].
  inversion HS as [|? ? Hx HSl]; subst.
  apply (sort_insert_sorted key S); auto.
  eapply Permutation_Forall; [symmetry; apply js_sort_perm|assumption].
Qed.

Lemma StronglySorted_on {A} (R R' : A -> A -> Prop) l :
  (forall a b, In a l -> In b l -> R a b -> R' a b) ->
  StronglySorted R l -> StronglySorted R' l.
Proof.
  induction l as [|x l IH]; intros Himp Hs; [constructor|].
  inversion Hs as [|? ? Hl Hx]; subst. constructor.
  - apply IH; [|assumption]. intros a b Ha Hb. apply Himp; now right.
  - rewrite Forall_forall in *. intros y Hy.
    apply Himp; [now left|now right|now apply Hx].
Qed.

Lemma chronological_agree es a b :
  chronological es = true -> In a es -> In b es -> agree a b = true.
Proof.
  unfold chronological. rewrite forallb_forall. intros H Ha Hb.
  specialize (H a Ha). rewrite forallb_forall in H. now apply H.
Qed.

Lemma agree_dates a b :
  agree a b = true ->
  entry_date a = VStr (date_string a) /\ entry_date b = VStr (date_string b)
  /\ keeps_before by_date_desc a b = (time_key b <=? time_key a)
  /\ (time_key a <= time_key b <-> String.leb (date_string a) (date_string b) = true).
Proof.
  unfold agree, keeps_before, by_date_desc, time_key, date_string, entry_date.
  destruct (get_prop_opt a "date") as [| | | | |da| |]; try discriminate.
  destruct (get_prop_opt b "date") as [| | | | |db| |]; try discriminate.
  destruct (Date_getTime (VStr da)) as [ta|]; [|discriminate].
  destruct (Date_getTime (VStr db)) as [tb|]; [|discriminate].
  intros H. apply Bool.eqb_prop in H. repeat split; try tauto.
  - destruct (tb - ta <=? 0) eqn:E1, (tb <=? ta) eqn:E2; try reflexivity; lia.
  - intros Hle. rewrite <- H. now apply Z.leb_le.
  - intros Hle. rewrite <- H in Hle. now apply Z.leb_le.
Qed.

Lemma filter_filter {A} (f g : A -> bool) l :
  filter g (filter f l) = filter (fun x => f x && g x) l.
Proof.
  induction l as [|x l IH]; simpl; [reflexivity|].
  destruct (f x); simpl; [|assumption].
  destruct (g x); now rewrite IH.
Qed.

Lemma filter_true {A} (l : list A) : filter (fun _ => true) l = l.
Proof. induction l; simpl; congruence. Qed.

Lemma filter_from startDate l :
  Forall dated l ->
  match startDate with
  | Some s => if truthy_str startDate
              then filter (fun e => js_ge (entry_date e) s) l
              else l
  | None => l
  end
  = filter (fun e => match given startDate with
                     | Some s => String.leb s (date_string e)
                     | None => true
                     end) l.
Proof.
  intros Hl. unfold given.
  destruct startDate as [s|]; [|now rewrite filter_true].
  destruct (truthy_str (Some s)); [|now rewrite filter_true].
  apply filter_ext_in. intros e He.
  rewrite Forall_forall in Hl. unfold js_ge. now rewrite (Hl e He).
Qed.

Lemma filter_until endDate l :
  Forall dated l ->
  match endDate with
  | Some s => if truthy_str endDate
              then filter (fun e => js_le (entry_date e) s) l
              else l
  | None => l
  end
  = filter (fun e => match given endDate with
                     | Some s => String.leb (date_string e) s
                     | None => true
                     end) l.
Proof.
  intros Hl. unfold given.
  destruct endDate as [s|]; [|now rewrite filter_true].
  destruct (truthy_str (Some s)); [|now rewrite filter_true].
  apply filter_ext_in. intros e He.
  rewrite Forall_forall in Hl. unfold js_le. now rewrite (Hl e He).
Qed.

(** On records that carry a date string the two [filter] calls of the
    handler keep the records whose date is within the bounds. *)
Lemma range_filter_within startDate endDate es :
  Forall dated es ->
  range_filter startDate endDate es
  = filter (fun e => within startDate endDate (date_string e)) es.
Proof.
  intros Hd. unfold range_filter. cbv zeta.
  rewrite (filter_from startDate es Hd).
  rewrite filter_until.
  - now rewrite filter_filter.
  - rewrite Forall_forall in *. intros e He.
    apply filter_In in He. now apply Hd.
Qed.

End SortFacts.

(** ** Strings *)

Module StringFacts.

Lemma prefix_app a : forall b c, String.prefix a b = true -> String.prefix a (b ++ c) = true.
Proof.
  induction a as [|x a IH]; intros b c; [intros _; now destruct (b ++ c)|].
  destruct b as [|y b]; [discriminate|]. simpl.
  destruct (ascii_dec x y); [apply IH|discriminate].
Qed.

Lemma prefix_self a r : String.prefix a (a ++ r) = true.
Proof.
  induction a as [|x a IH]; simpl; [now destruct r|].
  destruct (ascii_dec x x); [assumption|congruence].
Qed.

Lemma includes_app_l a : forall b x, Js.includes a x = true -> Js.includes (a ++ b) x = true.
Proof.
  induction a as [|c a IH]; intros b x.
  - destruct x as [|y x]; [intros _|discriminate]. now destruct b.
  - cbn [Js.includes append].
    destruct (String.prefix x (String c a)) eqn:E.
    + intros _. change (String c (a ++ b)) with (String c a ++ b).
      now rewrite (prefix_app _ _ b E).
    + intros H. destruct (String.prefix x (String c (a ++ b))); [reflexivity|].
      now apply IH.
Qed.

Lemma includes_app_r a : forall b x, Js.includes b x = true -> Js.includes (a ++ b) x = true.
Proof.
  induction a as [|c a IH]; intros b x H; [exact H|].
  cbn [Js.includes append].
  destruct (String.prefix x (String c (a ++ b))); [reflexivity|]. now apply IH.
Qed.

Lemma includes_self x : Js.includes x x = true.
Proof.
  destruct x as [|c x]; [reflexivity|]. cbn [Js.includes].
  replace (String c x) with (String c x ++ "") at 2.
  - now rewrite prefix_self.
  - simpl. f_equal. induction x; simpl; congruence.
Qed.

Lemma includes_join sep l x : In x l -> Js.includes (Js.join sep l) x = true.
Proof.
  induction l as [|p l IH]; [contradiction|].
  intros [->|Hin].
  - destruct l as [|q l]; cbn [Js.join].
    + apply includes_self.
    + apply includes_app_l, includes_self.
  - destruct l as [|q l]; [contradiction|]. cbn [Js.join].
    apply includes_app_r, includes_app_r. now apply IH.
Qed.

(** Removing the first [.md] of a file name gives its stem when the stem
    holds no [.md] of its own. *)
Lemma replace_extension stem :
  Js.includes stem ".md" = false -> Js.replace (stem ++ ".md") ".md" "" = stem.
Proof.
  induction stem as [|c stem IH]; [reflexivity|].
  cbn [Js.includes]. destruct (String.prefix ".md" (String c stem)) eqn:E; [discriminate|].
  intros H. specialize (IH H).
  cbn [append Js.replace].
  assert (Hp : String.prefix ".md" (String c (stem ++ ".md")) = false).
  { revert E. cbn [String.prefix]. destruct (ascii_dec "." c); [|reflexivity].
    destruct stem as [|a stem]; [reflexivity|].
    cbn [append String.prefix]. destruct (ascii_dec "m" a); [|reflexivity].
    destruct stem as [|b stem]; [reflexivity|].
    cbn [append String.prefix]. destruct (ascii_dec "d" b); [|reflexivity].
    now destruct stem. }
  rewrite Hp. now rewrite IH.
Qed.





End StringFacts.

(** ** Decoding a record file *)

Section DecodeFacts.

Context {rt : Runtime}.


Lemma decode_entry_unparsed password file fileContent data body :
  matter fileContent = Some (data, body) ->
  JSON_parse (entryContent password body) = None ->
  decode_entry password file fileContent = Throw SyntaxError.
Proof.
  intros Hm Hp. unfold decode_entry. rewrite Hm. cbn [of_option exc_bind].
  now rewrite Hp.
Qed.

(** The sentinel that replaces a body that does not decrypt is not JSON,
    and neither is a decryption under the wrong key. *)
Lemma entryContent_unreadable p body :
  JSON_parse "[Unable to decrypt entry]" = None ->
  unreadable (AES_decrypt body p) ->
  JSON_parse (entryContent (Some p) body) = None.
Proof.
  intros Hs Hu. unfold entryContent, decrypt, unreadable in *.
  destruct (AES_decrypt body p); cbn [of_option]; assumption.
Qed.

Lemma mapM_throw {A B} (f : A -> exc B) l x e :
  In x l -> f x = Throw e -> exists e', mapM f l = Throw e'.
Proof.
  induction l as [|a l IH]; [contradiction|].
  intros [->|Hin] Hx; cbn [mapM].
  - rewrite Hx. eauto.
  - destruct (f a); [|eauto].
    destruct (IH Hin Hx) as [e' ->]. eauto.
Qed.


Lemma mapM_Forall2 {A B} (f : A -> exc B) l rs :
  mapM f l = Ok rs -> Forall2 (fun a r => f a = Ok r) l rs.
Proof.
  revert rs. induction l as [|a l IH]; intros rs; cbn [mapM].
  - intros [= <-]. constructor.
  - destruct (f a) as [b|] eqn:Ea; [|discriminate].
    destruct (mapM f l) as [bs|]; [|discriminate].
    intros [= <-]. constructor; [assumption|now apply IH].
Qed.

(** One file that does not decode empties the listing. *)
Lemma listing_aborts w root startDate endDate file fileContent e :
  configured w root ->
  In (file, fileContent) (stored_files w) ->
  decode_entry (session_password w) file fileContent = Throw e ->
  fst (get_daily_entries startDate endDate w) = [].
Proof.
  intros Hc Hin He. rewrite (get_daily_entries_eq _ _ _ _ Hc). cbn [fst].
  unfold stored_entries.
  destruct (mapM_throw (fun fc => decode_entry (session_password w) (fst fc) (snd fc))
                       _ _ e Hin He) as [e' ->].
  reflexivity.
Qed.



Lemma range_filter_incl startDate endDate l :
  incl (range_filter startDate endDate l) l.
Proof.
  unfold range_filter. intros x Hx.
  assert (H1 : forall (b : option string) (f : string -> value -> bool) l',
             In x match b with
                  | Some s => if truthy_str b then filter (f s) l' else l'
                  | None => l'
                  end -> In x l').
  { intros b f l' H. destruct b as [s|]; [|assumption].
    destruct (truthy_str (Some s)); [|assumption].
    apply filter_In in H. tauto. }
  apply (H1 endDate (fun s e => js_le (entry_date e) s)) in Hx.
  now apply (H1 startDate (fun s e => js_ge (entry_date e) s)) in Hx.
Qed.

Lemma mapM_In_inv {A B} (f : A -> exc B) l rs r :
  mapM f l = Ok rs -> In r rs -> exists x, In x l /\ f x = Ok r.
Proof.
  revert rs. induction l as [|a l IH]; intros rs; cbn [mapM].
  - intros [= <-] [].
  - destruct (f a) as [b|] eqn:Ea; [|discriminate].
    destruct (mapM f l) as [bs|]; [|discriminate].
    intros [= <-] [->|Hin].
    + exists a. split; [now left|assumption].
    + destruct (IH bs eq_refl Hin) as (x & Hx & Hfx).
      exists x. split; [now right|assumption].
Qed.

Lemma filterM_incl {A} (pred : A -> exc bool) l kept :
  filterM pred l = Ok kept -> incl kept l.
Proof.
  revert kept. induction l as [|a l IH]; intros kept; cbn [filterM].
  - intros [= <-]. apply incl_refl.
  - destruct (pred a) as [b|]; [|discriminate].
    destruct (filterM pred l) as [r|]; [|discriminate].
    intros [= <-]. specialize (IH r eq_refl).
    destruct b; intros x Hx.
    + destruct Hx as [->|Hx]; [now left|right; now apply IH].
    + right. now apply IH.
Qed.

Lemma search_filter_incl query tags entries found :
  search_filter query tags entries = Ok found -> incl found entries.
Proof.
  unfold search_filter. cbv zeta.
  destruct (negb (String.eqb query "") && negb (String.eqb (Js.trim query) "")).
  - destruct (filterM (text_matches (Js.toLowerCase query)) entries) as [kept|] eqn:E;
      [|discriminate].
    cbn [exc_bind]. apply filterM_incl in E.
    destruct tags as [|t tags].
    + intros [= <-]. exact E.
    + intros H. apply filterM_incl in H. intros x Hx. apply E. now apply H.
  - cbn [exc_bind]. destruct tags as [|t tags].
    + intros [= <-]. apply incl_refl.
    + apply filterM_incl.
Qed.

(** What a decoded record is made of. *)
Lemma decode_entry_inv password file fileContent r :
  decode_entry password file fileContent = Ok r ->
  exists data body entry header_date date,
    matter fileContent = Some (data, body)
    /\ JSON_parse (entryContent password body) = Some entry
    /\ get_prop data "date" = Ok header_date
    /\ js_or header_date (get_prop entry "date") = Ok date
    /\ r = VObj (set_key "date" date
                        (set_key "id" (VStr (Js.replace file ".md" ""))
                                 (spread entry))).
Proof.
  unfold decode_entry.
  destruct (matter fileContent) as [[data body]|] eqn:Em; [|discriminate].
  cbn [of_option exc_bind].
  destruct (JSON_parse (entryContent password body)) as [entry|] eqn:Ep;
    [|discriminate].
  cbn [of_option exc_bind].
  destruct (get_prop data "date") as [header_date|] eqn:Eh; [|discriminate].
  cbn [exc_bind].
  destruct (js_or header_date (get_prop entry "date")) as [date|] eqn:Ed;
    [|discriminate].
  cbn [exc_bind]. intros [= <-].
  exists data, body, entry, header_date, date. repeat split; assumption.
Qed.

(** Every record of a listing or of a search is the decoding of a file. *)
Lemma listed_is_decoded w root startDate endDate r :
  configured w root ->
  In r (fst (get_daily_entries startDate endDate w)) ->
  exists file fileContent,
    In (file, fileContent) (stored_files w)
    /\ decode_entry (session_password w) file fileContent = Ok r.
Proof.
  intros Hc. rewrite (get_daily_entries_eq _ _ _ _ Hc). cbn [fst].
  destruct (stored_entries w) as [entries|] eqn:He; [|contradiction].
  intros Hin.
  assert (Hr : In r entries).
  { apply (range_filter_incl startDate endDate).
    eapply Permutation_in; [apply js_sort_perm|exact Hin]. }
  destruct (mapM_In_inv _ _ _ _ He Hr) as ([file fileContent] & Hf & Hd).
  exists file, fileContent. now split.
Qed.

Lemma found_is_decoded w root query tags r :
  configured w root ->
  In r (fst (search_entries query tags w)) ->
  exists file fileContent,
    In (file, fileContent) (stored_files w)
    /\ decode_entry (session_password w) file fileContent = Ok r.
Proof.
  intros Hc. rewrite (search_entries_eq _ _ _ _ Hc). cbn [fst].
  destruct (stored_entries w) as [entries|] eqn:He; [|contradiction].
  destruct (search_filter query tags entries) as [found|] eqn:Ef; [|contradiction].
  intros Hin. apply (search_filter_incl _ _ _ _ Ef) in Hin.
  destruct (mapM_In_inv _ _ _ _ He Hin) as ([file fileContent] & Hf & Hd).
  exists file, fileContent. now split.
Qed.

End DecodeFacts.

(** ** The CSV export *)

Module CsvFacts.

Import Zod Shape.













End CsvFacts.

(** ** Every violation is reported *)

Module ValidationFacts.

Import Zod Shape.

Lemma parse_elements_In (f : list string -> value -> list issue * value) p iss :
  forall l i x j,
    nth_error l i = Some x ->
    In iss (fst (f (p ++ [Js.string_of_nat (j + i)])%list x)) ->
    In iss (fst (parse_elements f p j l)).
Proof.
  induction l as [|y l IH]; intros i x j Hn Hin; [now destruct i|].
  cbn [parse_elements].
  destruct i as [|i]; cbn [nth_error] in Hn.
  - injection Hn as ->. rewrite Nat.add_0_r in Hin.
    destruct (f (p ++ [Js.string_of_nat j])%list x) as [is1 o1].
    destruct (parse_elements f p (S j) l) as [is2 o2].
    cbn [fst] in *. apply in_or_app. now left.
  - specialize (IH i x (S j) Hn).
    rewrite Nat.add_succ_comm in IH. specialize (IH Hin).
    destruct (f (p ++ [Js.string_of_nat j])%list y) as [is1 o1].
    destruct (parse_elements f p (S j) l) as [is2 o2].
    cbn [fst] in *. apply in_or_app. now right.
Qed.

Lemma parse_fields_In (f : ztype -> list string -> value -> list issue * value)
      p ps iss k tk :
  forall sh,
    In (k, tk) sh ->
    In iss (fst (f tk (p ++ [k])%list (field k ps))) ->
    In iss (fst (parse_fields f p ps sh)).
Proof.
  induction sh as [|[k' tk'] sh IH]; intros Hin Hiss; [contradiction|].
  cbn [parse_fields]. destruct Hin as [[= -> ->]|Hin].
  - destruct (f tk (p ++ [k])%list (field k ps)) as [is1 o1].
    destruct (parse_fields f p ps sh) as [is2 o2].
    cbn [fst] in *. apply in_or_app. now left.
  - specialize (IH Hin Hiss).
    destruct (f tk' (p ++ [k'])%list (field k' ps)) as [is1 o1].
    destruct (parse_fields f p ps sh) as [is2 o2].
    cbn [fst] in *. apply in_or_app. now right.
Qed.

Lemma parse_array element p l :
  fst (parse (ZArray element) p (VArr l))
  = fst (parse_elements (parse element) p O l).
Proof.
  cbn [parse]. now destruct (parse_elements (parse element) p 0%nat l).
Qed.

Lemma parse_object shape p ps :
  fst (parse (ZObject shape) p (VObj ps)) = fst (parse_fields parse p ps shape).
Proof.
  cbn [parse]. now destruct (parse_fields parse p ps shape).
Qed.

(** Each violation of the schema is the path of an issue, and the issue
    gives a reason. *)
Lemma parse_complete t v q :
  violates t v q ->
  forall p, exists iss,
      In iss (fst (parse t p v)) /\ path iss = (p ++ q)%list /\ message iss <> "".
Proof.
  induction 1 as [checks v Hv|checks s c Hc Hfail|lo hi v Hv|lo hi n Hlo|lo hi n Hhi
                  |options v Hv|element v Hv|element l i x q Hn Hx IH
                  |shape v Hv|shape ps k tk q Hk Hx IH|inner v q Hv Hx IH];
    intros p.
  - exists (invalid_type p "string" v). rewrite app_nil_r.
    split; [|split; [reflexivity|discriminate]].
    destruct v; try (now left). now destruct (Hv s).
  - destruct c as [n|source pattern]; cbn [check_ok] in Hfail.
    + eexists. split; [|split].
      * cbn [parse fst]. apply in_flat_map. exists (MinLength n).
        split; [assumption|]. cbn [check_issues]. rewrite Hfail. now left.
      * cbn [path]. now rewrite app_nil_r.
      * discriminate.
    + eexists. split; [|split].
      * cbn [parse fst]. apply in_flat_map. exists (Regex source pattern).
        split; [assumption|]. cbn [check_issues]. rewrite Hfail. now left.
      * cbn [path]. now rewrite app_nil_r.
      * discriminate.
  - exists (invalid_type p "number" v). rewrite app_nil_r.
    split; [|split; [reflexivity|discriminate]].
    destruct v; try (now left). now destruct (Hv n).
  - destruct lo as [m|]; [|discriminate]. cbn [above] in Hlo.
    eexists. split; [|split].
    + cbn [parse fst]. apply in_or_app. left.
      cbn [minimum_issues]. rewrite Hlo. now left.
    + cbn [path]. now rewrite app_nil_r.
    + discriminate.
  - destruct hi as [m|]; [|discriminate]. cbn [below] in Hhi.
    eexists. split; [|split].
    + cbn [parse fst]. apply in_or_app. right.
      cbn [maximum_issues]. rewrite Hhi. now left.
    + cbn [path]. now rewrite app_nil_r.
    + discriminate.
  - exists (invalid_option p options). rewrite app_nil_r.
    split; [|split; [reflexivity|discriminate]].
    destruct v; try (now left). cbn [parse].
    destruct (existsb (String.eqb s) options) eqn:E; [|now left].
    apply existsb_exists in E. destruct E as (o & Ho & Hso).
    apply String.eqb_eq in Hso. subst o. now destruct (Hv s eq_refl).
  - exists (invalid_type p "array" v). rewrite app_nil_r.
    split; [|split; [reflexivity|discriminate]].
    destruct v; try (now left). now destruct (Hv elems).
  - destruct (IH (p ++ [Js.string_of_nat i])%list) as (iss & Hin & Hpath & Hmsg).
    exists iss. split; [|split].
    + rewrite parse_array. now apply (parse_elements_In _ _ _ l i x O Hn).
    + rewrite Hpath. now rewrite <- app_assoc.
    + assumption.
  - exists (invalid_type p "object" v). rewrite app_nil_r.
    split; [|split; [reflexivity|discriminate]].
    destruct v; try (now left). now destruct (Hv props0).
  - destruct (IH (p ++ [k])%list) as (iss & Hin & Hpath & Hmsg).
    exists iss. split; [|split].
    + rewrite parse_object. now apply (parse_fields_In _ _ _ _ k tk shape Hk).
    + rewrite Hpath. now rewrite <- app_assoc.
    + assumption.
  - destruct (IH p) as (iss & Hin & Hpath & Hmsg).
    exists iss. split; [|split]; try assumption.
    destruct v; try assumption. congruence.
Qed.

(** The error text of [validateData] holds the rendering of every issue. *)
Lemma validateData_error schema data iss :
  In iss (fst (parse schema [] data)) ->
  exists error,
    validateData schema data = inr error
    /\ Js.includes error (render_issue iss) = true.
Proof.
  intros Hin. unfold validateData.
  destruct (parse schema [] data) as [issues out]. cbn [fst] in Hin.
  destruct issues as [|i issues]; [contradiction|].
  eexists. split; [reflexivity|].
  apply StringFacts.includes_app_r, StringFacts.includes_join.
  now apply in_map.
Qed.

Lemma violation_named schema data q :
  violates schema data q ->
  exists error reason,
    validateData schema data = inr error
    /\ reason <> ""
    /\ Js.includes error (Js.join "." q ++ ": " ++ reason) = true.
Proof.
  intros Hv. destruct (parse_complete _ _ _ Hv []) as (iss & Hin & Hpath & Hmsg).
  destruct (validateData_error _ _ _ Hin) as (error & He & Hinc).
  exists error, (message iss). repeat split; try assumption.
  unfold render_issue in Hinc. now rewrite Hpath in Hinc.
Qed.

End ValidationFacts.

(** ** export-data *)

Section ExportFacts.

Context {rt : Runtime}.

Lemma export_csv_eq w root startDate endDate filePath entries csv :
  configured w root ->
  filePath <> "" ->
  stored_entries w = Ok entries ->
  csv_of (js_sort by_date_desc (range_filter (Some startDate) (Some endDate) entries))
  = Ok csv ->
  export_data CSV startDate endDate (Some filePath) w
  = (true,
     logged w (ensure_calls root ++ load_calls (path_join root "daily") w
               ++ [WriteFile filePath csv])).
Proof.
  intros Hc Hp He Hcsv. unfold export_data. cbn [truthy_str].
  apply String.eqb_neq in Hp. rewrite Hp. cbn [negb].
  unfold try_handler.
  rewrite (bind_ok _ _ _ _ _ (ensureDataPath_configured _ _ Hc)).
  unfold bind at 1. rewrite load_entries_eq, stored_entries_logged, He.
  cbv zeta. unfold bind, lift. rewrite Hcsv.
  unfold fs_writeFile_export, call, ret.
  rewrite with_call_logged, !logged_logged, <- ?app_assoc. reflexivity.
Qed.

Lemma export_json_eq w root startDate endDate filePath entries :
  configured w root ->
  filePath <> "" ->
  stored_entries w = Ok entries ->
  export_data JSON startDate endDate (Some filePath) w
  = (true,
     logged w (ensure_calls root ++ load_calls (path_join root "daily") w
               ++ [WriteFile filePath
                     (JSON_stringify
                        (VArr (fst (get_daily_entries (Some startDate) (Some endDate)
                                                      w))))])).
Proof.
  intros Hc Hp He. unfold export_data. cbn [truthy_str].
  apply String.eqb_neq in Hp. rewrite Hp. cbn [negb].
  unfold try_handler.
  rewrite (bind_ok _ _ _ _ _ (ensureDataPath_configured _ _ Hc)).
  unfold bind at 1. rewrite load_entries_eq, stored_entries_logged, He.
  cbv zeta. unfold bind, fs_writeFile_export, call, ret.
  rewrite with_call_logged, !logged_logged, <- ?app_assoc.
  now rewrite (get_daily_entries_eq _ _ _ _ Hc), He.
Qed.

End ExportFacts.

(** * The claims of the storage specification *)

(** ** C2: one unreadable file *)

(** C2.  The code at a store of two readable records and one file whose
    body does not decrypt: without the damaged file the listing has the two
    records, with it the listing is empty. *)
Theorem corrupted_file_empties_listing :
  length (fst (get_daily_entries None None Sample.two_days)) = 2%nat
  /\ length (stored_files Sample.one_corrupted) = 3%nat
  /\ fst (get_daily_entries None None Sample.one_corrupted) = []
  /\ fst (search_entries "" [] Sample.one_corrupted) = [].
Proof. vm_compute. repeat split; reflexivity. Qed.

(** ** C3: how a save writes *)

(** C3, as stated, fails: the save of 2026-01-10 is no temp-file-then-rename
    write to its canonical path. *)
Lemma save_is_not_atomic :
  ~ atomic_write (fsLog (Sample.save "s1" Sample.jan10 Sample.unlocked))
                 "/data/daily/2026-01-10.md".
Proof.
  intros [Hnone _]. apply (Hnone Sample.jan10_file).
  vm_compute. right. right. left. reflexivity.
Qed.

(** C3 (as amended).  A save of a daily record or of the settings makes the
    two [mkdir] calls of [ensureDataPath] and then, if the input passes
    validation, exactly one [writeFile] straight to the canonical path,
    which then holds the content; no other path is written and nothing is
    renamed.  If validation fails nothing is written. *)
Theorem saves_write_in_place {rt : Runtime} (w : World) (root salt : string) :
  configured w root ->
  (forall entry,
      let w' := snd (save_daily_entry salt entry w) in
      match Zod.validateData Zod.DailyEntrySchema entry with
      | inl validated =>
          let file := saved_file salt w validated in
          fsLog w' = (fsLog w ++ ensure_calls root
                      ++ [WriteFile (daily_path root (date_string validated)) file])%list
          /\ lookup (date_string validated ++ ".md") (daily w') = Some file
      | inr _ =>
          fsLog w' = (fsLog w ++ ensure_calls root)%list /\ daily w' = daily w
      end)
  /\ (forall data,
         let w' := snd (save_app_data salt data w) in
         match Zod.validateData Zod.AppDataSchema data with
         | inl validated =>
             let content := saved_content salt w (JSON_stringify validated) in
             fsLog w' = (fsLog w ++ ensure_calls root
                         ++ [WriteFile (settings_path root) content])%list
             /\ appData w' = Some content
         | inr _ =>
             fsLog w' = (fsLog w ++ ensure_calls root)%list /\ appData w' = appData w
         end).
Proof.
  intros Hc. split.
  - intros entry. cbv zeta.
    destruct (Zod.validateData Zod.DailyEntrySchema entry) as [validated|error] eqn:Hv.
    + rewrite (save_daily_entry_valid _ _ _ _ _ Hc Hv). cbn [snd fsLog daily with_daily logged].
      split; [reflexivity|apply lookup_set_key_same].
    + rewrite (save_daily_entry_invalid _ _ _ _ _ Hc Hv). now split.
  - intros data. cbv zeta.
    destruct (Zod.validateData Zod.AppDataSchema data) as [validated|error] eqn:Hv.
    + rewrite (save_app_data_valid _ _ _ _ _ Hc Hv). now split.
    + rewrite (save_app_data_invalid _ _ _ _ _ Hc Hv). now split.
Qed.

Lemma saves_write_in_place_witness :
  configured Sample.unlocked "/data"
  /\ fsLog (snd (save_daily_entry "s1" Sample.jan10 Sample.unlocked))
     = [ Mkdir "/data"; Mkdir "/data/daily";
         WriteFile "/data/daily/2026-01-10.md" Sample.jan10_file ].
Proof.
  assert (Hc : configured Sample.unlocked "/data") by (split; [reflexivity|discriminate]).
  split; [exact Hc|].
  assert (Hv : Zod.validateData Zod.DailyEntrySchema Sample.jan10 = inl Sample.jan10)
    by (vm_compute; reflexivity).
  pose proof (proj1 (saves_write_in_place (rt := Ref.runtime)
                       Sample.unlocked "/data" "s1" Hc) Sample.jan10) as H.
  cbv zeta in H. rewrite Hv in H. destruct H as [Hlog _].
  rewrite Hlog. vm_compute. reflexivity.
Defined.

(** ** C7: deleting twice *)

(** C7, as stated, fails: the second of two deletes of 2026-01-10 replies
    with an error. *)
Lemma second_delete_reports_an_error :
  ~ no_error (fst (delete_daily_entry "2026-01-10"
                     (snd (delete_daily_entry "2026-01-10" Sample.two_days)))).
Proof. vm_compute. exact (fun H => H). Qed.

(** C7 (as amended).  Deleting a date whose file exists removes the file and
    replies with success; deleting a date with no file replies with the
    ENOENT error and leaves the directory as it is.  So of two deletes in
    succession the second always replies with that error; neither throws. *)
Theorem delete_reports_a_missing_file (w : World) (root date : string) :
  configured w root ->
  NoDup (map fst (daily w)) ->
  let first := delete_daily_entry date w in
  let second := delete_daily_entry date (snd first) in
  (forall content,
      lookup (date ++ ".md") (daily w) = Some content ->
      fst first = Success None
      /\ daily (snd first) = remove_key (date ++ ".md") (daily w))
  /\ (lookup (date ++ ".md") (daily w) = None ->
      fst first = Failure ENOENT /\ daily (snd first) = daily w)
  /\ lookup (date ++ ".md") (daily (snd first)) = None
  /\ fst second = Failure ENOENT
  /\ daily (snd second) = daily (snd first).
Proof.
  intros Hc Hnd. cbv zeta.
  assert (Hfirst : configured (snd (delete_daily_entry date w)) root
                   /\ lookup (date ++ ".md") (daily (snd (delete_daily_entry date w))) = None).
  { destruct (lookup (date ++ ".md") (daily w)) as [content|] eqn:Hl.
    - rewrite (delete_daily_entry_present _ _ _ _ Hc Hl). cbn [snd daily with_daily].
      split; [exact Hc|]. apply lookup_not_in_keys. now apply keys_remove_key.
    - rewrite (delete_daily_entry_absent _ _ _ Hc Hl). split; [exact Hc|exact Hl]. }
  destruct Hfirst as [Hc' Hgone].
  split; [|split; [|split; [|split]]].
  - intros content Hl. rewrite (delete_daily_entry_present _ _ _ _ Hc Hl). now split.
  - intros Hl. rewrite (delete_daily_entry_absent _ _ _ Hc Hl). now split.
  - exact Hgone.
  - now rewrite (delete_daily_entry_absent _ _ _ Hc' Hgone).
  - now rewrite (delete_daily_entry_absent _ _ _ Hc' Hgone).
Qed.

Lemma delete_reports_a_missing_file_witness :
  fst (delete_daily_entry "2026-01-10" Sample.two_days) = Success None
  /\ fst (delete_daily_entry "2026-01-10"
            (snd (delete_daily_entry "2026-01-10" Sample.two_days)))
     = Failure ENOENT.
Proof.
  assert (Hc : configured Sample.two_days "/data") by (split; [reflexivity|discriminate]).
  assert (Hnd : NoDup (map fst (daily Sample.two_days))).
  { vm_compute. repeat constructor; simpl; intuition discriminate. }
  pose proof (delete_reports_a_missing_file Sample.two_days "/data" "2026-01-10" Hc Hnd)
    as (Hpresent & _ & _ & Hsecond & _).
  split; [|exact Hsecond].
  refine (proj1 (Hpresent Sample.jan10_file _)).
  vm_compute. reflexivity.
Defined.

(** ** C4: verifying a candidate password *)

(** C4.  The code, run with the cipher of crypto-js.  In a data folder
    without a settings file a candidate is accepted and becomes the
    session password.  In the data folder whose settings were saved under
    the session password hunter2, after a restart, the settings file holds
    the blob below; the password hunter2 is accepted and the candidate
    guess1 is refused; but under guess500 the blob decrypts to the one
    character 7, which is JSON: the candidate is accepted, it becomes the
    session password, and get-app-data then serves the number 7 for the
    settings. *)
Theorem wrong_password_is_accepted :
  let blob :=
    "U2FsdGVkX19jYWxvcmllcwk7y5RwgiVJuXzcRmEaWHoiPRb5jVvIygk08Do2UP9eDCeunjS8fuAE1wrHjmptZWi9b3rczf1A12VjiUh0BoU8xLzWpIEozsR0/RKJj6/hI1/7S5o6YBVmLzyDZbQjHY6TH1qzOavxKWZuR/dnNZNcmJ2ynvKyqhy0F/j1DuQOM+uNbD2RLcqHFxDmlmgIxGwYD8w/19CPpTSDQs/RzyCj653GAUMaM+FPfVvKm0BUiqTuFG1Nk9WBMHzVLbyPjVwbfj6NHxNIkaTkS8ZdDQO01w8FG/4m2BRX2MSa9Nv6" in
  let verify := verify_password (rt := CryptoJS.runtime) in
  fst (verify "anything" Sample.empty) = true
  /\ encryptionPassword (snd (verify "anything" Sample.empty)) = Some "anything"
  /\ appData Sealed.locked = Some blob
  /\ encryptionPassword Sealed.locked = None
  /\ option_map (JSON_parse (Runtime := CryptoJS.runtime))
                (CryptoJS.decrypt blob "hunter2")
     = Some (Some Sample.settings)
  /\ fst (verify "hunter2" Sealed.locked) = true
  /\ fst (verify "guess1" Sealed.locked) = false
  /\ encryptionPassword (snd (verify "guess1" Sealed.locked)) = None
  /\ CryptoJS.decrypt blob "guess500" = Some "7"
  /\ fst (verify "guess500" Sealed.locked) = true
  /\ encryptionPassword (snd (verify "guess500" Sealed.locked)) = Some "guess500"
  /\ fst (get_app_data (rt := CryptoJS.runtime) (snd (verify "guess500" Sealed.locked)))
     = VNum 7.
Proof. vm_compute. repeat split; reflexivity. Qed.

(** ** C6: the order of search results *)

(** C6.  The code at a store whose directory lists 2026-01-10 before
    2026-01-11: the unbounded listing is dated 11, 10 (descending) while
    the search, with no text and no tag, is dated 10, 11, and so is the
    search for a tag both records would need to be re-ordered for. *)
Theorem search_keeps_directory_order :
  map date_string (fst (get_daily_entries None None Sample.two_days))
  = ["2026-01-11"; "2026-01-10"]
  /\ map date_string (fst (search_entries "" [] Sample.two_days))
     = ["2026-01-10"; "2026-01-11"]
  /\ map date_string (fst (search_entries "a" [] Sample.two_days))
     = ["2026-01-10"; "2026-01-11"].
Proof. vm_compute. repeat split; reflexivity. Qed.

(** ** C5: listing a date range *)

(** C5, as stated, fails: of three records saved for 2026-02-28, 2026-02-30
    and 2026-03-01, the listing puts 2026-02-30 first, before 2026-03-01:
    it is not sorted by date descending. *)
Lemma february_30_is_listed_first :
  let listing := fst (get_daily_entries None None Cases.february) in
  map fst (stored_files Cases.february)
  = ["2026-02-28.md"; "2026-02-30.md"; "2026-03-01.md"]
  /\ map date_string listing = ["2026-02-30"; "2026-03-01"; "2026-02-28"]
  /\ ~ StronglySorted date_geq listing.
Proof.
  cbv zeta. split; [vm_compute; reflexivity|]. split; [vm_compute; reflexivity|].
  intros H. vm_compute in H.
  inversion H as [|? ? _ Hfirst]; subst.
  inversion Hfirst as [|? ? Hlt _]; subst.
  vm_compute in Hlt. discriminate Hlt.
Qed.

Lemma dated_string (e : value) :
  match get_prop_opt e "date" with
  | VStr _ => true
  | _ => false
  end = true ->
  dated e.
Proof.
  unfold dated, entry_date, date_string.
  now destruct (get_prop_opt e "date").
Qed.

(** C5 (as amended).  In a selected data folder whose record files all
    decode, to records dated by a string: the listing is, up to order, the
    records whose date lies within the bounds as a string, both inclusive,
    an absent bound ([undefined] or the empty string) imposing nothing.
    When the engine reads a time in the date of each of them, the listing
    is ordered by these times, most recent first; and when moreover the
    times are in the order of the strings, as they are for calendar dates,
    it is sorted by date descending. *)
Theorem list_is_the_range_ordered_by_time
        {rt : Runtime} (w : World) (root : string)
        (startDate endDate : option string) (entries : list value) :
  configured w root ->
  stored_entries w = Ok entries ->
  Forall dated entries ->
  let in_range := filter (fun e => within startDate endDate (date_string e)) entries in
  let result := fst (get_daily_entries startDate endDate w) in
  Permutation result in_range
  /\ (forallb readable in_range = true -> StronglySorted no_older result)
  /\ (chronological in_range = true -> StronglySorted date_geq result).
Proof.
  intros Hc He Hdated. cbv zeta.
  rewrite (get_daily_entries_eq _ _ _ _ Hc), He. cbn [fst].
  rewrite (range_filter_within _ _ _ Hdated).
  set (kept := filter (fun e => within startDate endDate (date_string e)) entries).
  assert (Hkey : forall a b,
             readable a = true -> readable b = true ->
             keeps_before by_date_desc a b = (time_key b <=? time_key a)).
  { intros a b. unfold readable, keeps_before, by_date_desc, time_key.
    destruct (Date_getTime (entry_date a)) as [ta|]; [|discriminate].
    destruct (Date_getTime (entry_date b)) as [tb|]; [|discriminate].
    intros _ _. destruct (tb - ta <=? 0) eqn:E1, (tb <=? ta) eqn:E2; try reflexivity; lia. }
  split; [apply js_sort_perm|]. split.
  - intros Hread.
    apply (js_sort_sorted time_key (fun e => readable e = true)); [exact Hkey|].
    apply Forall_forall. now apply forallb_forall.
  - intros Hchrono.
    assert (Hin : forall x, In x (js_sort by_date_desc kept) -> In x kept).
    { intros x Hx. eapply Permutation_in; [apply js_sort_perm|exact Hx]. }
    apply (StronglySorted_on (fun a b => time_key b <= time_key a)).
    + intros a b Ha Hb Hab. unfold date_geq.
      destruct (agree_dates b a (chronological_agree _ _ _ Hchrono (Hin b Hb) (Hin a Ha)))
        as (_ & _ & _ & Horder).
      now apply Horder.
    + apply (js_sort_sorted time_key (fun e => In e kept)).
      * intros a b Ha Hb.
        destruct (agree_dates a b (chronological_agree _ _ _ Hchrono Ha Hb))
          as (_ & _ & Hcmp & _).
        exact Hcmp.
      * apply Forall_forall. now intros e He'.
Qed.

Lemma list_is_the_range_ordered_by_time_witness :
  let listing :=
    fst (get_daily_entries (Some "2026-01-10") (Some "2026-01-12") Sample.five_days) in
  Permutation listing
              (filter (fun e => within (Some "2026-01-10") (Some "2026-01-12")
                                       (date_string e))
                      (Sample.listed Sample.five_days))
  /\ StronglySorted no_older listing
  /\ StronglySorted date_geq listing.
Proof.
  assert (Hc : configured Sample.five_days "/data") by (split; [reflexivity|discriminate]).
  assert (He : stored_entries Sample.five_days = Ok (Sample.listed Sample.five_days))
    by (vm_compute; reflexivity).
  assert (Hd : Forall dated (Sample.listed Sample.five_days)).
  { apply Forall_forall. intros e Hin. apply dated_string. revert e Hin.
    apply forallb_forall. vm_compute. reflexivity. }
  destruct (list_is_the_range_ordered_by_time (rt := Ref.runtime)
              Sample.five_days "/data" (Some "2026-01-10") (Some "2026-01-12")
              (Sample.listed Sample.five_days) Hc He Hd)
    as (Hperm & Htime & Hdate).
  split; [exact Hperm|]. split.
  - apply Htime. vm_compute. reflexivity.
  - apply Hdate. vm_compute. reflexivity.
Defined.

(** The range of the specification's example: of the five days 01-09 to
    01-13 the bounds 01-10 and 01-12 keep three, most recent first. *)
Example range_of_five_days :
  map date_string
      (fst (get_daily_entries (Some "2026-01-10") (Some "2026-01-12") Sample.five_days))
  = ["2026-01-12"; "2026-01-11"; "2026-01-10"].
Proof. vm_compute. reflexivity. Qed.

(** ** C8: validation before any write *)



(** ** C9: the CSV export *)




(** The export of the two sample days, as text. *)
Example csv_of_two_days :
  csv_of (fst (get_daily_entries (Some "2026-01-01") (Some "2026-01-31") Sample.two_days))
  = Ok ("Date,Total Calories,Protein,Carbs,Fats,Exercise Calories,Weight,Water Glasses"
        ++ Js.nl ++ "2026-01-11,700,28,80,30,0,,3"
        ++ Js.nl ++ "2026-01-10,255,16,35,4,0,,6" ++ Js.nl).
Proof. vm_compute. reflexivity. Qed.

(** ** C10: the date and the id of a listed record *)

(** C10, as stated, fails: a file whose front matter holds an empty date is
    listed with the date of its body. *)
Lemma empty_header_date_is_overridden :
  let w := Sample.empty_header_date in
  let fileContent := snd (hd (EmptyString, EmptyString) (stored_files w)) in
  let data := match matter fileContent with
              | Some parts => fst parts
              | None => VUndef
              end in
  lookup "date" (spread data) = Some (VStr "")
  /\ map (fun r => get_prop_opt r "date") (fst (get_daily_entries None None w))
     = [VStr "2026-01-12"].
Proof. vm_compute. split; reflexivity. Qed.

(** C10 (as amended).  In a selected data folder every record of a listing
    or of a search (and so of an export, which writes a listing) is the
    decoding of one [.md] file of [daily/].  Its date is the date of the
    file's front matter when that is truthy (a non-empty string), and the
    date of the body JSON when the front matter has none or a falsy one.
    Its id is the stem of the file name, whatever id the body holds, when
    the stem holds no [.md] of its own, as with every file a save names. *)
Theorem records_carry_header_date_and_file_stem
        {rt : Runtime} (w : World) (root : string)
        (startDate endDate : option string) (query : string) (tags : list string)
        (r : value) :
  configured w root ->
  In r (fst (get_daily_entries startDate endDate w))
  \/ In r (fst (search_entries query tags w)) ->
  exists file fileContent data body entry header_date,
    In (file, fileContent) (stored_files w)
    /\ matter fileContent = Some (data, body)
    /\ JSON_parse (entryContent (session_password w) body) = Some entry
    /\ get_prop data "date" = Ok header_date
    /\ (truthy header_date = true -> get_prop_opt r "date" = header_date)
    /\ (truthy header_date = false ->
        get_prop entry "date" = Ok (get_prop_opt r "date"))
    /\ (forall stem,
           file = stem ++ ".md" -> Js.includes stem ".md" = false ->
           get_prop_opt r "id" = VStr stem).
Proof.
  intros Hc Hin.
  assert (Hdec : exists file fileContent,
             In (file, fileContent) (stored_files w)
             /\ decode_entry (session_password w) file fileContent = Ok r).
  { destruct Hin as [Hin|Hin].
    - exact (listed_is_decoded _ _ _ _ _ Hc Hin).
    - exact (found_is_decoded _ _ _ _ _ Hc Hin). }
  destruct Hdec as (file & fileContent & Hfile & Hd).
  destruct (decode_entry_inv _ _ _ _ Hd)
    as (data & body & entry & header_date & date & Hm & Hp & Hh & Hor & ->).
  exists file, fileContent, data, body, entry, header_date.
  assert (Hdate : get_prop_opt
                    (VObj (set_key "date" date
                             (set_key "id" (VStr (Js.replace file ".md" ""))
                                      (spread entry)))) "date" = date).
  { cbn [get_prop_opt]. now rewrite lookup_set_key_same. }
  assert (Hid : get_prop_opt
                  (VObj (set_key "date" date
                           (set_key "id" (VStr (Js.replace file ".md" ""))
                                    (spread entry)))) "id"
                = VStr (Js.replace file ".md" "")).
  { cbn [get_prop_opt]. rewrite lookup_set_key_other by discriminate.
    now rewrite lookup_set_key_same. }
  repeat split; try assumption.
  - intros Ht. rewrite Hdate. unfold js_or in Hor. rewrite Ht in Hor. congruence.
  - intros Ht. rewrite Hdate. unfold js_or in Hor. now rewrite Ht in Hor.
  - intros stem -> Hstem. rewrite Hid.
    now rewrite (StringFacts.replace_extension stem Hstem).
Qed.

Lemma records_carry_header_date_and_file_stem_witness :
  let r := hd VUndef (fst (get_daily_entries None None Sample.two_days)) in
  exists file header_date,
    In file (map fst (stored_files Sample.two_days))
    /\ (truthy header_date = true -> get_prop_opt r "date" = header_date)
    /\ (forall stem,
           file = stem ++ ".md" -> Js.includes stem ".md" = false ->
           get_prop_opt r "id" = VStr stem).
Proof.
  cbv zeta.
  assert (Hc : configured Sample.two_days "/data") by (split; [reflexivity|discriminate]).
  assert (Hin : In (hd VUndef (fst (get_daily_entries None None Sample.two_days)))
                   (fst (get_daily_entries None None Sample.two_days))).
  { vm_compute. left. reflexivity. }
  destruct (records_carry_header_date_and_file_stem (rt := Ref.runtime)
              Sample.two_days "/data" None None "" []
              (hd VUndef (fst (get_daily_entries None None Sample.two_days)))
              Hc (or_introl Hin))
    as (file & fileContent & data & body & entry & header_date
        & Hfile & _ & _ & _ & Hdate & _ & Hid).
  exists file, header_date. split; [|split; assumption].
  apply in_map_iff. exists (file, fileContent). split; [reflexivity|exact Hfile].
Defined.

(** The two sample days as listed: each record has the date of its file's
    front matter and the stem of the file name as its id. *)
Example two_days_ids_and_dates :
  map (fun r => (get_prop_opt r "id", get_prop_opt r "date"))
      (fst (get_daily_entries None None Sample.two_days))
  = [ (VStr "2026-01-11", VStr "2026-01-11"); (VStr "2026-01-10", VStr "2026-01-10") ].
Proof. vm_compute. reflexivity. Qed.

(** ** C1: saving and reading back *)




(** * Further properties of the handlers and of their callers *)

(** ** Handlers without a data folder, and handlers that only read *)

Section FolderFacts.

Context {rt : Runtime}.

Lemma logged_nil w : logged w [] = w.
Proof. destruct w. unfold logged. cbn. now rewrite app_nil_r. Qed.

Lemma configured_or_not w : (exists root, configured w root) \/ unconfigured w.
Proof.
  unfold configured, unconfigured. destruct (dataPath w) as [root|]; [|now right].
  destruct (String.eqb root "") eqn:E.
  - apply String.eqb_eq in E. subst. now right.
  - apply String.eqb_neq in E. left. now exists root.
Qed.

Lemma ensureDataPath_unconfigured w :
  unconfigured w -> ensureDataPath w = (Throw DataPathNotSet, w).
Proof.
  unfold unconfigured, ensureDataPath. destruct (dataPath w) as [root|]; [|reflexivity].
  cbn [truthy_str]. now destruct (String.eqb root "").
Qed.

Lemma try_handler_throw {A B} (m : M A) (k : A -> M B) (h : js_error -> B) w e w' :
  m w = (Throw e, w') -> try_handler (bind m k) h w = (h e, w').
Proof. intros H. unfold try_handler, bind. now rewrite H. Qed.

Lemma get_app_data_fresh w root :
  configured w root ->
  appData w = None ->
  get_app_data w
  = (default_app_data,
     logged w (ensure_calls root ++ [ExistsSync (settings_path root)])).
Proof.
  intros Hc Ha. unfold get_app_data, try_handler.
  rewrite (bind_ok _ _ _ _ _ (ensureDataPath_configured _ _ Hc)).
  unfold fs_existsSync_appData, bind, call, get_world, ret.
  rewrite with_call_logged, logged_logged. cbn [appData logged]. rewrite Ha.
  reflexivity.
Qed.

Lemma get_app_data_stored w root content :
  configured w root ->
  appData w = Some content ->
  get_app_data w
  = (read_settings w content,
     logged w (ensure_calls root
               ++ [ExistsSync (settings_path root); ReadFile (settings_path root)])).
Proof.
  intros Hc Ha. unfold get_app_data, try_handler.
  rewrite (bind_ok _ _ _ _ _ (ensureDataPath_configured _ _ Hc)).
  unfold fs_existsSync_appData, fs_readFile_appData, bind, call, get_world, ret, lift.
  rewrite ?appData_with_call, ?appData_logged, Ha. cbn [negb of_option].
  rewrite ?appData_with_call, ?appData_logged, Ha. cbn [negb of_option].
  rewrite !with_call_logged, !logged_logged, <- ?app_assoc.
  unfold read_settings.
  change (session_password (logged w _)) with (session_password w).
  destruct (match session_password w with
            | Some p => decrypt content p
            | None => Ok content
            end) as [text|e]; [|reflexivity].
  now destruct (JSON_parse text).
Qed.

Lemma get_daily_entries_unconfigured w startDate endDate :
  unconfigured w -> get_daily_entries startDate endDate w = ([], w).
Proof.
  intros Hu. unfold get_daily_entries.
  now rewrite (try_handler_throw _ _ _ _ _ _ (ensureDataPath_unconfigured w Hu)).
Qed.

Lemma search_entries_unconfigured w query tags :
  unconfigured w -> search_entries query tags w = ([], w).
Proof.
  intros Hu. unfold search_entries.
  now rewrite (try_handler_throw _ _ _ _ _ _ (ensureDataPath_unconfigured w Hu)).
Qed.

Lemma get_app_data_unconfigured w :
  unconfigured w -> get_app_data w = (VNull, w).
Proof.
  intros Hu. unfold get_app_data.
  now rewrite (try_handler_throw _ _ _ _ _ _ (ensureDataPath_unconfigured w Hu)).
Qed.

Lemma verify_password_unconfigured w candidate :
  unconfigured w -> verify_password candidate w = (false, w).
Proof.
  intros Hu. unfold verify_password.
  now rewrite (try_handler_throw _ _ _ _ _ _ (ensureDataPath_unconfigured w Hu)).
Qed.

End FolderFacts.

(** Without a data folder every handler of the record store replies with
    its failure value and calls nothing: no directory is created, no file
    is read or written, and the session password stays what it was.  The
    save handlers report the missing folder before they validate their
    input. *)
Theorem handlers_need_a_data_folder
        {rt : Runtime} (w : World) (startDate endDate : option string)
        (query : string) (tags : list string) (salt : string) (entry data : value)
        (entryId candidate : string) (format : export_format)
        (from to filePath : string) :
  unconfigured w ->
  get_daily_entries startDate endDate w = ([], w)
  /\ search_entries query tags w = ([], w)
  /\ save_daily_entry salt entry w = (Failure DataPathNotSet, w)
  /\ delete_daily_entry entryId w = (Failure DataPathNotSet, w)
  /\ get_app_data w = (VNull, w)
  /\ save_app_data salt data w = (Failure DataPathNotSet, w)
  /\ verify_password candidate w = (false, w)
  /\ (filePath <> "" ->
      export_data format from to (Some filePath) w = (false, w)).
Proof.
  intros Hu. pose proof (ensureDataPath_unconfigured w Hu) as He.
  split; [exact (get_daily_entries_unconfigured _ _ _ Hu)|].
  split; [exact (search_entries_unconfigured _ _ _ Hu)|].
  split; [unfold save_daily_entry; now rewrite (try_handler_throw _ _ _ _ _ _ He)|].
  split; [unfold delete_daily_entry; now rewrite (try_handler_throw _ _ _ _ _ _ He)|].
  split; [exact (get_app_data_unconfigured _ Hu)|].
  split; [unfold save_app_data; now rewrite (try_handler_throw _ _ _ _ _ _ He)|].
  split; [exact (verify_password_unconfigured _ _ Hu)|].
  intros Hp. unfold export_data. cbn [truthy_str].
  apply String.eqb_neq in Hp. rewrite Hp. cbn [negb].
  now rewrite (try_handler_throw _ _ _ _ _ _ He).
Qed.

Lemma handlers_need_a_data_folder_witness :
  save_daily_entry "s1" Sample.jan10 (mkWorld None (Some "hunter2") [] None [])
  = (Failure DataPathNotSet, mkWorld None (Some "hunter2") [] None [])
  /\ get_daily_entries None None (mkWorld (Some "") None [] None [])
     = ([], mkWorld (Some "") None [] None []).
Proof.
  split.
  - refine (proj1 (proj2 (proj2 (handlers_need_a_data_folder (rt := Ref.runtime)
              (mkWorld None (Some "hunter2") [] None []) None None "" [] "s1"
              Sample.jan10 VNull "" "" CSV "" "" "" _)))).
    reflexivity.
  - refine (proj1 (handlers_need_a_data_folder (rt := Ref.runtime)
              (mkWorld (Some "") None [] None []) None None "" [] "s1"
              Sample.jan10 VNull "" "" CSV "" "" "" _)).
    reflexivity.
Defined.

Section ReadingFacts.

Context {rt : Runtime}.

Lemma only_reads_refl w : only_reads w w.
Proof. exists []. now rewrite logged_nil. Qed.

Lemma reads_load_calls dailyPath w : forallb reads (load_calls dailyPath w) = true.
Proof.
  unfold load_calls. cbn [forallb reads]. apply forallb_forall.
  intros c Hc. apply in_map_iff in Hc. now destruct Hc as (fc & <- & _).
Qed.

Lemma verify_password_cases w root candidate :
  configured w root ->
  exists calls,
    forallb reads calls = true
    /\ (verify_password candidate w = (false, logged w calls)
        \/ verify_password candidate w
           = (true, with_password (logged w calls) (Some candidate))).
Proof.
  intros Hc. destruct (appData w) as [content|] eqn:Ha.
  - exists (ensure_calls root
            ++ [ExistsSync (settings_path root); ReadFile (settings_path root)])%list.
    split; [reflexivity|].
    destruct (AES_decrypt content candidate) as [text|] eqn:Hd.
    + destruct (JSON_parse text) as [v|] eqn:Hp.
      * right. exact (verify_password_readable _ _ _ _ _ _ Hc Ha Hd Hp).
      * left. apply (verify_password_unreadable _ _ _ _ Hc Ha).
        unfold unreadable. now rewrite Hd.
    + left. apply (verify_password_unreadable _ _ _ _ Hc Ha).
      unfold unreadable. now rewrite Hd.
  - exists (ensure_calls root ++ [ExistsSync (settings_path root)])%list.
    split; [reflexivity|]. right. exact (verify_password_fresh _ _ _ Hc Ha).
Qed.

Lemma get_daily_entries_reads w startDate endDate :
  only_reads w (snd (get_daily_entries startDate endDate w)).
Proof.
  destruct (configured_or_not w) as [[root Hc]|Hu].
  - rewrite (get_daily_entries_eq _ _ _ _ Hc). cbn [snd].
    eexists. split; [reflexivity|].
    rewrite forallb_app. now rewrite reads_load_calls.
  - rewrite (get_daily_entries_unconfigured _ _ _ Hu). apply only_reads_refl.
Qed.

Lemma search_entries_reads w query tags :
  only_reads w (snd (search_entries query tags w)).
Proof.
  destruct (configured_or_not w) as [[root Hc]|Hu].
  - rewrite (search_entries_eq _ _ _ _ Hc). cbn [snd].
    eexists. split; [reflexivity|].
    rewrite forallb_app. now rewrite reads_load_calls.
  - rewrite (search_entries_unconfigured _ _ _ Hu). apply only_reads_refl.
Qed.

Lemma get_app_data_reads w : only_reads w (snd (get_app_data w)).
Proof.
  destruct (configured_or_not w) as [[root Hc]|Hu].
  - destruct (appData w) as [content|] eqn:Ha.
    + rewrite (get_app_data_stored _ _ _ Hc Ha). cbn [snd].
      eexists. split; reflexivity.
    + rewrite (get_app_data_fresh _ _ Hc Ha). cbn [snd].
      eexists. split; reflexivity.
  - rewrite (get_app_data_unconfigured _ Hu). apply only_reads_refl.
Qed.

Lemma verify_password_reads w candidate :
  only_reads w (with_password (snd (verify_password candidate w))
                              (encryptionPassword w)).
Proof.
  destruct (configured_or_not w) as [[root Hc]|Hu].
  - destruct (verify_password_cases w root candidate Hc) as (calls & Hr & [H|H]);
      rewrite H; cbn [snd]; exists calls; split; try exact Hr;
      destruct w; reflexivity.
  - rewrite (verify_password_unconfigured _ _ Hu). cbn [snd].
    destruct w. apply only_reads_refl.
Qed.

Lemma only_reads_trans w1 w2 w3 :
  only_reads w1 w2 -> only_reads w2 w3 -> only_reads w1 w3.
Proof.
  intros (c1 & -> & H1) (c2 & -> & H2). exists (c1 ++ c2)%list.
  split; [apply logged_logged|]. now rewrite forallb_app, H1, H2.
Qed.

(** The result of verify-password depends on the data folder and on the
    settings file alone. *)
Lemma verify_password_result w w' root candidate :
  configured w root -> configured w' root -> appData w = appData w' ->
  fst (verify_password candidate w) = fst (verify_password candidate w').
Proof.
  intros Hc Hc' Ha. destruct (appData w) as [content|] eqn:Hw; symmetry in Ha.
  - destruct (AES_decrypt content candidate) as [text|] eqn:Hd.
    + destruct (JSON_parse text) as [v|] eqn:Hp.
      * now rewrite (verify_password_readable _ _ _ _ _ _ Hc Hw Hd Hp),
          (verify_password_readable _ _ _ _ _ _ Hc' Ha Hd Hp).
      * assert (Hu : unreadable (AES_decrypt content candidate))
          by (unfold unreadable; now rewrite Hd).
        now rewrite (verify_password_unreadable _ _ _ _ Hc Hw Hu),
          (verify_password_unreadable _ _ _ _ Hc' Ha Hu).
    + assert (Hu : unreadable (AES_decrypt content candidate))
        by (unfold unreadable; now rewrite Hd).
      now rewrite (verify_password_unreadable _ _ _ _ Hc Hw Hu),
        (verify_password_unreadable _ _ _ _ Hc' Ha Hu).
  - now rewrite (verify_password_fresh _ _ _ Hc Hw), (verify_password_fresh _ _ _ Hc' Ha).
Qed.

End ReadingFacts.

(** The handlers that list, search and read the settings never write: in
    every world, whatever the files hold and whether or not the handler
    fails, the world after the call is the world before with [mkdir],
    [existsSync], [readdir] and [readFile] calls added to the log.
    verify-password is the same, except that it may set the session
    password. *)
Theorem reading_handlers_write_nothing
        {rt : Runtime} (w : World) (startDate endDate : option string)
        (query : string) (tags : list string) (candidate : string) :
  only_reads w (snd (get_daily_entries startDate endDate w))
  /\ only_reads w (snd (search_entries query tags w))
  /\ only_reads w (snd (get_app_data w))
  /\ only_reads w (with_password (snd (verify_password candidate w))
                                  (encryptionPassword w)).
Proof.
  split; [apply get_daily_entries_reads|].
  split; [apply search_entries_reads|].
  split; [apply get_app_data_reads|apply verify_password_reads].
Qed.

(** ** export-data *)

Section ExportMoreFacts.

Context {rt : Runtime}.

Lemma export_data_unreadable w root format from to filePath e :
  configured w root ->
  filePath <> "" ->
  stored_entries w = Throw e ->
  export_data format from to (Some filePath) w
  = (false, logged w (ensure_calls root ++ load_calls (path_join root "daily") w)).
Proof.
  intros Hc Hp He. unfold export_data. cbn [truthy_str].
  apply String.eqb_neq in Hp. rewrite Hp. cbn [negb].
  unfold try_handler.
  rewrite (bind_ok _ _ _ _ _ (ensureDataPath_configured _ _ Hc)).
  unfold bind at 1. rewrite load_entries_eq, stored_entries_logged, He.
  now rewrite logged_logged.
Qed.

Lemma export_csv_fails w root from to filePath entries e :
  configured w root ->
  filePath <> "" ->
  stored_entries w = Ok entries ->
  csv_of (js_sort by_date_desc (range_filter (Some from) (Some to) entries)) = Throw e ->
  export_data CSV from to (Some filePath) w
  = (false, logged w (ensure_calls root ++ load_calls (path_join root "daily") w)).
Proof.
  intros Hc Hp He Hcsv. unfold export_data. cbn [truthy_str].
  apply String.eqb_neq in Hp. rewrite Hp. cbn [negb].
  unfold try_handler.
  rewrite (bind_ok _ _ _ _ _ (ensureDataPath_configured _ _ Hc)).
  unfold bind at 1. rewrite load_entries_eq, stored_entries_logged, He.
  cbv zeta. unfold bind, lift. rewrite Hcsv.
  now rewrite logged_logged.
Qed.

End ExportMoreFacts.

(** An export writes the listing of its date range, whole, or nothing.
    With a file chosen in the save dialog and a data folder selected, the
    handler reads what get-daily-entries reads; if the records load, the
    JSON export writes [JSON.stringify] of the very list get-daily-entries
    returns for the range, and the CSV export writes the finished document,
    both in one [writeFile] to the chosen path; if a record does not load,
    or a row of the CSV cannot be built, it writes nothing and reports
    failure.  With the dialog canceled it does nothing at all. *)
Theorem export_writes_the_listing_or_nothing
        {rt : Runtime} (w : World) (root from to filePath : string) :
  configured w root ->
  filePath <> "" ->
  let listing := fst (get_daily_entries (Some from) (Some to) w) in
  let read := (ensure_calls root ++ load_calls (path_join root "daily") w)%list in
  match stored_entries w with
  | Ok _ =>
      export_data JSON from to (Some filePath) w
      = (true, logged w (read ++ [WriteFile filePath (JSON_stringify (VArr listing))]))
      /\ match csv_of listing with
         | Ok csv =>
             export_data CSV from to (Some filePath) w
             = (true, logged w (read ++ [WriteFile filePath csv]))
         | Throw _ =>
             export_data CSV from to (Some filePath) w = (false, logged w read)
         end
  | Throw _ =>
      forall format,
        export_data format from to (Some filePath) w = (false, logged w read)
  end
  /\ forall format, export_data format from to None w = (false, w).
Proof.
  intros Hc Hp. cbv zeta. split; [|reflexivity].
  destruct (stored_entries w) as [entries|e] eqn:He.
  - split.
    + rewrite (export_json_eq _ _ _ _ _ _ Hc Hp He). now rewrite <- app_assoc.
    + rewrite (get_daily_entries_eq _ _ _ _ Hc), He. cbn [fst].
      destruct (csv_of _) as [csv|e] eqn:Hcsv.
      * rewrite (export_csv_eq _ _ _ _ _ _ _ Hc Hp He Hcsv). now rewrite <- app_assoc.
      * exact (export_csv_fails _ _ _ _ _ _ _ Hc Hp He Hcsv).
  - intros format. exact (export_data_unreadable _ _ _ _ _ _ _ Hc Hp He).
Qed.

Lemma export_writes_the_listing_or_nothing_witness :
  fst (export_data JSON "2026-01-01" "2026-01-31" (Some "/tmp/export.json")
                   Sample.two_days) = true
  /\ export_data CSV "2026-01-01" "2026-01-31" (Some "/tmp/export.csv")
                 Sample.one_corrupted
     = (false,
        logged Sample.one_corrupted
               (ensure_calls "/data" ++ load_calls "/data/daily" Sample.one_corrupted)).
Proof.
  assert (Hc : configured Sample.two_days "/data") by (split; [reflexivity|discriminate]).
  assert (Hc' : configured Sample.one_corrupted "/data")
    by (split; [reflexivity|discriminate]).
  assert (He : stored_entries Sample.two_days = Ok (Sample.listed Sample.two_days))
    by (vm_compute; reflexivity).
  assert (He' : stored_entries Sample.one_corrupted = Throw SyntaxError)
    by (vm_compute; reflexivity).
  split.
  - pose proof (export_writes_the_listing_or_nothing (rt := Ref.runtime)
                  Sample.two_days "/data" "2026-01-01" "2026-01-31"
                  "/tmp/export.json" Hc ltac:(discriminate)) as H.
    cbv zeta in H. rewrite He in H. destruct H as [[Hjson _] _].
    rewrite Hjson. reflexivity.
  - pose proof (export_writes_the_listing_or_nothing (rt := Ref.runtime)
                  Sample.one_corrupted "/data" "2026-01-01" "2026-01-31"
                  "/tmp/export.csv" Hc' ltac:(discriminate)) as H.
    cbv zeta in H. rewrite He' in H. destruct H as [H _].
    exact (H CSV).
Defined.

(** ** The settings document *)

Section SettingsFacts.

Context {rt : Runtime}.

Lemma configured_with_appData w root a :
  configured w root -> configured (with_appData w a) root.
Proof. now intros [? ?]; split. Qed.

Lemma decrypt_saved_content salt w text :
  cipher_correct ->
  match session_password w with
  | Some p => decrypt (saved_content salt w text) p
  | None => Ok (saved_content salt w text)
  end = Ok text.
Proof.
  intros Hcorrect. unfold saved_content, decrypt, encrypt.
  destruct (session_password w) as [p|]; [|reflexivity].
  now rewrite Hcorrect.
Qed.

End SettingsFacts.

(** On a data folder without a settings file get-app-data replies with the
    built-in defaults (2000 kcal, 150 g protein, 200 g carbs, 65 g fats,
    target weight 180, 8 glasses, and empty lists) and creates no file; and
    these defaults are settings save-app-data accepts. *)
Theorem fresh_folder_serves_valid_defaults
        {rt : Runtime} (w : World) (root salt : string) :
  configured w root ->
  appData w = None ->
  get_app_data w
  = (default_app_data,
     logged w (ensure_calls root ++ [ExistsSync (settings_path root)]))
  /\ (exists validated,
         Zod.validateData Zod.AppDataSchema default_app_data = inl validated)
  /\ fst (save_app_data salt default_app_data w) = Success None.
Proof.
  intros Hc Ha. split; [exact (get_app_data_fresh _ _ Hc Ha)|].
  assert (Hv : exists validated,
             Zod.validateData Zod.AppDataSchema default_app_data = inl validated).
  { eexists. vm_compute. reflexivity. }
  split; [exact Hv|]. destruct Hv as [validated Hv].
  now rewrite (save_app_data_valid _ _ _ _ _ Hc Hv).
Qed.

Lemma fresh_folder_serves_valid_defaults_witness :
  fst (get_app_data Sample.empty) = default_app_data
  /\ fst (save_app_data "s0" default_app_data Sample.empty) = Success None.
Proof.
  assert (Hc : configured Sample.empty "/data") by (split; [reflexivity|discriminate]).
  destruct (fresh_folder_serves_valid_defaults (rt := Ref.runtime)
              Sample.empty "/data" "s0" Hc eq_refl) as (Hget & _ & Hsave).
  split; [now rewrite Hget|exact Hsave].
Defined.

(** Settings that pass validation and are saved come back from get-app-data
    as they were validated, under the session password they were saved
    with or with none set; [JSON.parse] is taken to read back what
    [JSON.stringify] wrote, and the cipher to decrypt what it encrypted. *)
Theorem settings_round_trip
        {rt : Runtime} (w : World) (root salt : string) (data validated : value) :
  configured w root ->
  Zod.validateData Zod.AppDataSchema data = inl validated ->
  cipher_correct ->
  JSON_parse (JSON_stringify validated) = Some validated ->
  fst (save_app_data salt data w) = Success None
  /\ fst (get_app_data (snd (save_app_data salt data w))) = validated.
Proof.
  intros Hc Hv Hcorrect Hjson.
  rewrite (save_app_data_valid _ _ _ _ _ Hc Hv). cbn [fst snd]. split; [reflexivity|].
  erewrite get_app_data_stored.
  2:{ apply configured_with_appData, configured_logged, Hc. }
  2:{ reflexivity. }
  cbn [fst]. unfold read_settings.
  change (session_password (with_appData (logged w _) _)) with (session_password w).
  rewrite (decrypt_saved_content salt w _ Hcorrect). now rewrite Hjson.
Qed.

Lemma settings_round_trip_witness :
  fst (get_app_data (snd (save_app_data "s0" Sample.settings Sample.unlocked)))
  = Sample.settings.
Proof.
  assert (Hc : configured Sample.unlocked "/data") by (split; [reflexivity|discriminate]).
  assert (Hv : Zod.validateData Zod.AppDataSchema Sample.settings = inl Sample.settings)
    by (vm_compute; reflexivity).
  assert (Hj : JSON_parse (JSON_stringify Sample.settings) = Some Sample.settings)
    by (vm_compute; reflexivity).
  exact (proj2 (settings_round_trip (rt := Ref.runtime) Sample.unlocked "/data" "s0"
                  Sample.settings Sample.settings Hc Hv RefFacts.cipher_correct Hj)).
Defined.

(** Once settings are saved under a non-empty session password [p],
    verify-password accepts [p], whatever the session password has become
    since (none, after a restart): [p] is the session password again, and
    the settings file is what it was. *)
Theorem saved_settings_accept_their_password
        {rt : Runtime} (w : World) (root salt p : string) (data validated parsed : value)
        (session : option string) :
  configured w root ->
  session_password w = Some p ->
  Zod.validateData Zod.AppDataSchema data = inl validated ->
  cipher_correct ->
  JSON_parse (JSON_stringify validated) = Some parsed ->
  let w' := with_password (snd (save_app_data salt data w)) session in
  fst (verify_password p w') = true
  /\ encryptionPassword (snd (verify_password p w')) = Some p
  /\ appData (snd (verify_password p w')) = appData w'
  /\ appData w' = Some (AES_encrypt salt (JSON_stringify validated) p).
Proof.
  intros Hc Hs Hv Hcorrect Hjson. cbv zeta.
  rewrite (save_app_data_valid _ _ _ _ _ Hc Hv). cbn [snd].
  set (w1 := with_password (with_appData _ _) session).
  assert (Hc1 : configured w1 root).
  { destruct Hc as [Hpath Hne]. split; [exact Hpath|exact Hne]. }
  assert (Ha1 : appData w1 = Some (AES_encrypt salt (JSON_stringify validated) p)).
  { unfold w1, saved_content, encrypt. cbn [appData with_appData with_password].
    now rewrite Hs. }
  rewrite (verify_password_readable _ _ _ _ _ _ Hc1 Ha1 (Hcorrect _ _ _) Hjson).
  cbn [fst snd]. repeat split; try reflexivity. exact Ha1.
Qed.

Lemma saved_settings_accept_their_password_witness :
  fst (verify_password "hunter2" Sample.locked) = true
  /\ encryptionPassword (snd (verify_password "hunter2" Sample.locked)) = Some "hunter2".
Proof.
  assert (Hc : configured Sample.unlocked "/data") by (split; [reflexivity|discriminate]).
  assert (Hv : Zod.validateData Zod.AppDataSchema Sample.settings = inl Sample.settings)
    by (vm_compute; reflexivity).
  assert (Hj : JSON_parse (JSON_stringify Sample.settings) = Some Sample.settings)
    by (vm_compute; reflexivity).
  destruct (saved_settings_accept_their_password (rt := Ref.runtime) Sample.unlocked
              "/data" "s0" "hunter2" Sample.settings Sample.settings Sample.settings None
              Hc eq_refl Hv RefFacts.cipher_correct Hj)
    as (Hyes & Hpw & _).
  split; [exact Hyes|exact Hpw].
Defined.

(** ** What a save and a delete leave alone *)



Lemma remove_key_set_key {A} k (v : A) l :
  remove_key k (set_key k v l) = remove_key k l.
Proof.
  induction l as [|[k' v'] l IH]; simpl.
  - now rewrite String.eqb_refl.
  - destruct (String.eqb k k') eqn:E; simpl.
    + now rewrite String.eqb_refl.
    + now rewrite E, IH.
Qed.

Lemma remove_key_absent {A} k (l : list (string * A)) :
  lookup k l = None -> remove_key k l = l.
Proof.
  induction l as [|[k' v'] l IH]; simpl; [reflexivity|].
  destruct (String.eqb k k'); [discriminate|]. intros H. now rewrite IH.
Qed.

Lemma lookup_none_not_in {A} k (l : list (string * A)) :
  lookup k l = None -> ~ In k (map fst l).
Proof.
  intros H Hin. destruct (lookup_in_keys k l Hin) as [v Hv]. congruence.
Qed.



(** The id a save replies with deletes the file the save wrote: after a
    successful save, delete-daily-entry with the id of the reply succeeds
    and leaves [daily/] as it was before the save, less the earlier file of
    that date if there was one. *)
Theorem delete_undoes_a_save
        {rt : Runtime} (w : World) (root salt : string) (entry validated : value) :
  configured w root ->
  Zod.validateData Zod.DailyEntrySchema entry = inl validated ->
  let name := date_string validated ++ ".md" in
  let saved := save_daily_entry salt entry w in
  let deleted := delete_daily_entry (date_string validated) (snd saved) in
  fst saved = Success (Some (VStr (date_string validated)))
  /\ fst deleted = Success None
  /\ daily (snd deleted) = remove_key name (daily w)
  /\ (lookup name (daily w) = None -> daily (snd deleted) = daily w).
Proof.
  intros Hc Hv. cbv zeta.
  rewrite (save_daily_entry_valid _ _ _ _ _ Hc Hv). cbn [fst snd].
  set (w1 := with_daily _ _).
  assert (Hc1 : configured w1 root) by (destruct Hc; now split).
  assert (Hl : lookup (date_string validated ++ ".md") (daily w1)
               = Some (saved_file salt w validated)).
  { unfold w1. cbn [daily with_daily]. apply lookup_set_key_same. }
  rewrite (delete_daily_entry_present _ _ _ _ Hc1 Hl). cbn [fst snd daily with_daily].
  unfold w1. cbn [daily with_daily]. rewrite remove_key_set_key.
  repeat split. intros Hnone. now apply remove_key_absent.
Qed.

Lemma delete_undoes_a_save_witness :
  daily (snd (delete_daily_entry "2026-01-12"
                (Sample.save "s3" Sample.jan12_draft Sample.two_days)))
  = daily Sample.two_days.
Proof.
  assert (Hc : configured Sample.two_days "/data") by (split; [reflexivity|discriminate]).
  assert (Hv : exists validated,
             Zod.validateData Zod.DailyEntrySchema Sample.jan12_draft = inl validated
             /\ date_string validated = "2026-01-12").
  { eexists. split; vm_compute; reflexivity. }
  destruct Hv as (validated & Hv & Hd).
  destruct (delete_undoes_a_save (rt := Ref.runtime) Sample.two_days "/data" "s3"
              Sample.jan12_draft validated Hc Hv) as (_ & _ & _ & Hsame).
  rewrite Hd in Hsame. apply Hsame. vm_compute. reflexivity.
Defined.

(** ** What validation returns *)

Module NormalFacts.

Import Zod Shape.

Lemma check_ok_issues p s c : check_ok s c = true -> check_issues p s c = [].
Proof.
  destruct c as [n|source pattern]; simpl; intros H; now rewrite H.
Qed.

Lemma checks_ok_issues p s checks :
  forallb (check_ok s) checks = true -> flat_map (check_issues p s) checks = [].
Proof.
  induction checks as [|c checks IH]; simpl; [reflexivity|].
  intros H. apply andb_prop in H. destruct H as [H1 H2].
  now rewrite (check_ok_issues _ _ _ H1), IH.
Qed.

Lemma above_issues p n lo : above lo n = true -> minimum_issues p n lo = [].
Proof. destruct lo as [m|]; simpl; [|reflexivity]. intros H. now rewrite H. Qed.

Lemma below_issues p n hi : below hi n = true -> maximum_issues p n hi = [].
Proof. destruct hi as [m|]; simpl; [|reflexivity]. intros H. now rewrite H. Qed.

Lemma parse_elements_conforming (f : list string -> value -> list issue * value)
      (ok : value -> bool) p :
  (forall q v, ok v = true -> fst (f q v) = []) ->
  forall l i, forallb ok l = true -> fst (parse_elements f p i l) = [].
Proof.
  intros Hf. induction l as [|x l IH]; intros i; simpl; [reflexivity|].
  intros H. apply andb_prop in H. destruct H as [Hx Hl].
  specialize (Hf (p ++ [Js.string_of_nat i])%list x Hx).
  specialize (IH (S i) Hl).
  destruct (f (p ++ [Js.string_of_nat i])%list x) as [is1 o1].
  destruct (parse_elements f p (S i) l) as [is2 o2]. simpl in *.
  now subst.
Qed.

Lemma parse_fields_conforming (f : ztype -> list string -> value -> list issue * value)
      (ok : ztype -> value -> bool) p ps :
  forall sh,
    Forall (fun kt => forall q v, ok (snd kt) v = true -> fst (f (snd kt) q v) = []) sh ->
    all_fields ok ps sh = true ->
    fst (parse_fields f p ps sh) = [].
Proof.
  induction sh as [|[k tk] sh IH]; intros Hall; simpl; [reflexivity|].
  inversion Hall as [|? ? Hk Hsh]; subst. simpl in Hk.
  intros H. apply andb_prop in H. destruct H as [H1 H2].
  specialize (Hk (p ++ [k])%list (field k ps) H1).
  specialize (IH Hsh H2).
  destruct (f tk (p ++ [k])%list (field k ps)) as [is1 o1].
  destruct (parse_fields f p ps sh) as [is2 o2]. simpl in *.
  now subst.
Qed.

(** A value of the schema's shape raises no issue. *)
Lemma parse_conforming t :
  forall p v, conforms t v = true -> fst (parse t p v) = [].
Proof.
  induction t as [checks|lo hi|options|element IH|shape IH|inner IH]
    using ZodFacts.ztype_nested_ind; intros p v; simpl.
  - destruct v; try discriminate. simpl. apply checks_ok_issues.
  - destruct v; try discriminate. simpl.
    intros H. apply andb_prop in H. destruct H as [H1 H2].
    now rewrite (above_issues _ _ _ H1), (below_issues _ _ _ H2).
  - destruct v; try discriminate. intros H. now rewrite H.
  - destruct v as [| | | | | |elems|ps]; try discriminate. intros H.
    pose proof (parse_elements_conforming (parse element) (conforms element) p
                  IH elems 0%nat H) as Hs.
    now destruct (parse_elements (parse element) p 0%nat elems).
  - destruct v as [| | | | | |elems|ps]; try discriminate. intros H.
    pose proof (parse_fields_conforming parse conforms p ps shape IH H) as Hs.
    now destruct (parse_fields parse p ps shape).
  - destruct v; try reflexivity; apply IH.
Qed.

Lemma validateData_conforming schema data :
  conforms schema data = true ->
  validateData schema data = inl (snd (parse schema [] data)).
Proof.
  intros H. unfold validateData.
  pose proof (parse_conforming schema [] data H) as Hs.
  destruct (parse schema [] data) as [issues out]. simpl in Hs. now subst.
Qed.

Lemma parse_elements_stable (f : list string -> value -> list issue * value) p q :
  stable f ->
  forall l i j,
    fst (parse_elements f p i l) = [] ->
    parse_elements f q j (snd (parse_elements f p i l))
    = ([], snd (parse_elements f p i l)).
Proof.
  intros Hf. induction l as [|x l IH]; intros i j; simpl; [reflexivity|].
  specialize (Hf (p ++ [Js.string_of_nat i])%list (q ++ [Js.string_of_nat j])%list x).
  specialize (IH (S i) (S j)).
  destruct (f (p ++ [Js.string_of_nat i])%list x) as [is1 o1].
  destruct (parse_elements f p (S i) l) as [is2 o2]. simpl in *.
  intros H. apply app_eq_nil in H. destruct H as [-> ->].
  now rewrite Hf, IH.
Qed.

Lemma parse_fields_field (f : ztype -> list string -> value -> list issue * value)
      p ps :
  forall sh k tk,
    each_field (fun _ => true) sh = true ->
    In (k, tk) sh ->
    field k (snd (parse_fields f p ps sh)) = snd (f tk (p ++ [k])%list (field k ps)).
Proof.
  induction sh as [|[k' tk'] sh IH]; intros k tk Hkeys Hin; [destruct Hin|].
  simpl in Hkeys. apply andb_prop in Hkeys. destruct Hkeys as [Hfresh Hkeys].
  rewrite andb_true_r in Hfresh. apply ZodFacts.fresh_not_in in Hfresh.
  pose proof (ZodFacts.parse_fields_keys f p ps sh) as Hsub.
  specialize (IH k tk Hkeys). simpl.
  destruct (f tk' (p ++ [k'])%list (field k' ps)) as [is1 o1] eqn:E1.
  destruct (parse_fields f p ps sh) as [is2 o2]. simpl in *.
  destruct Hin as [[= -> ->]|Hin].
  - rewrite E1. simpl. destruct (is_undef o1) eqn:Hu.
    + apply ZodFacts.is_undef_true in Hu. subst o1.
      apply ZodFacts.field_not_in. intros Hk. apply Hfresh. now apply Hsub.
    + unfold field. simpl. now rewrite String.eqb_refl.
  - assert (Hne : k <> k').
    { intros ->. apply Hfresh. apply in_map_iff. now exists (k', tk). }
    rewrite <- (IH Hin). destruct (is_undef o1); [reflexivity|].
    unfold field. simpl. apply String.eqb_neq in Hne. now rewrite Hne.
Qed.

Lemma parse_fields_stable (f : ztype -> list string -> value -> list issue * value)
      p q ps full :
  forall sh,
    Forall (fun kt => stable (f (snd kt))) sh ->
    (forall k tk, In (k, tk) sh ->
                  field k full = snd (f tk (p ++ [k])%list (field k ps))) ->
    fst (parse_fields f p ps sh) = [] ->
    parse_fields f q full sh = ([], snd (parse_fields f p ps sh)).
Proof.
  induction sh as [|[k tk] sh IH]; intros Hall Hfull; simpl; [reflexivity|].
  inversion Hall as [|? ? Hk Hsh]; subst. simpl in Hk.
  rewrite (Hfull k tk) by now left.
  specialize (Hk (p ++ [k])%list (q ++ [k])%list (field k ps)).
  assert (IH' := IH Hsh (fun k' tk' Hin => Hfull k' tk' (or_intror Hin))).
  destruct (f tk (p ++ [k])%list (field k ps)) as [is1 o1].
  destruct (parse_fields f p ps sh) as [is2 o2]. simpl in *.
  intros H. apply app_eq_nil in H. destruct H as [-> ->].
  now rewrite Hk, IH'.
Qed.

Lemma parse_stable t : distinct_keys t = true -> stable (parse t).
Proof.
  induction t as [checks|lo hi|options|element IH|shape IH|inner IH]
    using ZodFacts.ztype_nested_ind; intros Hd p q v; simpl.
  - destruct v; simpl; try discriminate. intros H.
    now rewrite (checks_ok_issues q _ _ (ZodFacts.checks_pass _ _ _ H)).
  - destruct v; simpl; try discriminate.
    intros H. apply app_eq_nil in H. destruct H as [H1 H2].
    now rewrite (above_issues q _ _ (ZodFacts.minimum_issues_nil _ _ _ H1)),
      (below_issues q _ _ (ZodFacts.maximum_issues_nil _ _ _ H2)).
  - destruct v; simpl; try discriminate.
    destruct (existsb (String.eqb s) options) eqn:E; simpl; [|discriminate].
    now rewrite E.
  - destruct v as [| | | | | |elems|ps]; simpl; try discriminate.
    pose proof (parse_elements_stable (parse element) p q (IH Hd) elems 0%nat 0%nat)
      as Hs.
    destruct (parse_elements (parse element) p 0%nat elems) as [issues out].
    simpl in *. intros H. now rewrite (Hs H).
  - destruct v as [| | | | | |elems|ps]; simpl; try discriminate.
    simpl in Hd. apply ZodFacts.each_field_weaken in Hd. destruct Hd as [Hk Hd].
    assert (Hall : Forall (fun kt => stable (parse (snd kt))) shape).
    { rewrite Forall_forall in *. intros kt Hin. apply IH; auto. }
    pose proof (parse_fields_stable parse p q ps
                  (snd (parse_fields parse p ps shape)) shape Hall
                  (fun k tk Hin => parse_fields_field parse p ps shape k tk Hk Hin))
      as Hs.
    destruct (parse_fields parse p ps shape) as [issues out].
    simpl in *. intros H. now rewrite (Hs H).
  - assert (Hopt : fst (parse inner p v) = [] ->
                   parse (ZOptional inner) q (snd (parse inner p v))
                   = ([], snd (parse inner p v))).
    { intros H. pose proof (IH Hd p q v H) as Hs. simpl.
      destruct (snd (parse inner p v)); try exact Hs. reflexivity. }
    destruct v; try exact Hopt. reflexivity.
Qed.

End NormalFacts.

(** What validation hands to the save handlers is in normal form: it has
    the schema's shape, an object of it has no key outside the schema
    (unknown keys of the input are dropped), and validating it again
    returns it unchanged. *)
Theorem validation_normalises (schema : Zod.ztype) (data validated : value) :
  Shape.distinct_keys schema = true ->
  Zod.validateData schema data = inl validated ->
  Shape.conforms schema validated = true
  /\ Zod.validateData schema validated = inl validated
  /\ forall shape,
      schema = Zod.ZObject shape ->
      exists ps, validated = VObj ps /\ incl (map fst ps) (map fst shape).
Proof.
  intros Hd Hv.
  split; [exact (ZodFacts.validateData_sound _ _ _ Hd Hv)|].
  unfold Zod.validateData in *.
  pose proof (NormalFacts.parse_stable schema Hd [] [] data) as Hs.
  destruct (Zod.parse schema [] data) as [issues out] eqn:Hp.
  destruct issues; [|discriminate]. injection Hv as <-.
  simpl in Hs. split; [now rewrite (Hs eq_refl)|].
  intros shape ->. simpl in Hp.
  destruct data as [| | | | | |elems|ps]; try discriminate.
  pose proof (ZodFacts.parse_fields_keys Zod.parse [] ps shape) as Hkeys.
  destruct (Zod.parse_fields Zod.parse [] ps shape) as [issues kept].
  injection Hp as _ <-. exists kept. split; [reflexivity|].
  intros k Hk. now apply Hkeys.
Qed.

Lemma validation_normalises_witness :
  Zod.validateData Zod.DailyEntrySchema
    (VObj (("mood", VStr "fine") :: spread Sample.jan10))
  = inl Sample.jan10
  /\ Zod.validateData Zod.DailyEntrySchema Sample.jan10 = inl Sample.jan10.
Proof.
  assert (Hv : Zod.validateData Zod.DailyEntrySchema
                 (VObj (("mood", VStr "fine") :: spread Sample.jan10))
               = inl Sample.jan10) by (vm_compute; reflexivity).
  split; [exact Hv|].
  exact (proj1 (proj2 (validation_normalises Zod.DailyEntrySchema _ _
                         DailyEntrySchema_distinct Hv))).
Defined.

Lemma date_format_chars d :
  Shape.check_ok d Zod.date_regex = true ->
  String.length d = 10%nat
  /\ Forall (fun c => date_char c = true) (list_ascii_of_string d).
Proof.
  unfold Shape.check_ok, Zod.date_regex, date_char.
  destruct d as [|c0 [|c1 [|c2 [|c3 [|c4 [|c5 [|c6 [|c7 [|c8 [|c9 [|c10 d]]]]]]]]]]];
    cbn [Zod.regex_test]; try discriminate;
    try (now rewrite ?andb_false_r).
  intros H.
  repeat match type of H with
         | (_ && _)%bool = true => apply andb_prop in H; destruct H as [? H]
         end.
  split; [reflexivity|]. cbn [list_ascii_of_string].
  repeat constructor;
    match goal with
    | Hc : Zod.is_digit ?c = true |- (Zod.is_digit ?c || _)%bool = true =>
        now rewrite Hc
    | Hc : Ascii.eqb ?a ?c = true |- (_ || Ascii.eqb ?c ?a)%bool = true =>
        rewrite Ascii.eqb_sym, Hc; apply orb_true_r
    end.
Qed.

(** The file a save writes is named by the validated date alone:
    [daily/<date>.md], where [<date>] is ten characters, each a digit or a
    dash.  No path separator and no dot of the input reaches the file
    name, and the save makes no other write. *)
Theorem saved_file_name_is_a_date
        {rt : Runtime} (w : World) (root salt : string) (entry validated : value) :
  configured w root ->
  Zod.validateData Zod.DailyEntrySchema entry = inl validated ->
  let d := date_string validated in
  String.length d = 10%nat
  /\ Forall (fun c => date_char c = true) (list_ascii_of_string d)
  /\ filter (fun c => negb (reads c)) (fsLog (snd (save_daily_entry salt entry w)))
     = (filter (fun c => negb (reads c)) (fsLog w)
        ++ [WriteFile (path_join (path_join root "daily") (d ++ ".md"))
                      (saved_file salt w validated)])%list.
Proof.
  intros Hc Hv. cbv zeta.
  pose proof (ZodFacts.validateData_sound _ _ _ DailyEntrySchema_distinct Hv) as Hs.
  destruct (validated_date _ Hs) as [_ Hd].
  destruct (date_format_chars _ Hd) as [Hlen Hchars].
  split; [exact Hlen|]. split; [exact Hchars|].
  rewrite (save_daily_entry_valid _ _ _ _ _ Hc Hv).
  cbn [snd fsLog with_daily logged]. rewrite !filter_app. reflexivity.
Qed.

Lemma saved_file_name_is_a_date_witness :
  filter (fun c => negb (reads c))
         (fsLog (snd (save_daily_entry "s1" Sample.jan10 Sample.unlocked)))
  = [WriteFile "/data/daily/2026-01-10.md" Sample.jan10_file].
Proof.
  assert (Hc : configured Sample.unlocked "/data") by (split; [reflexivity|discriminate]).
  assert (Hv : Zod.validateData Zod.DailyEntrySchema Sample.jan10 = inl Sample.jan10)
    by (vm_compute; reflexivity).
  destruct (saved_file_name_is_a_date (rt := Ref.runtime) Sample.unlocked "/data" "s1"
              Sample.jan10 Sample.jan10 Hc Hv) as (_ & _ & Hlog).
  rewrite Hlog. vm_compute. reflexivity.
Defined.

(** ** What search-entries selects *)

Module SearchFacts.

Import Zod Shape.

Lemma someM_existsb {A} (pred : A -> exc bool) (b : A -> bool) l :
  (forall x, In x l -> pred x = Ok (b x)) -> someM pred l = Ok (existsb b l).
Proof.
  induction l as [|x l IH]; intros H; simpl; [reflexivity|].
  rewrite (H x) by now left.
  destruct (b x); [reflexivity|]. apply IH. intros y Hy. apply H. now right.
Qed.

Lemma filterM_filter {A} (pred : A -> exc bool) (b : A -> bool) l :
  (forall x, In x l -> pred x = Ok (b x)) -> filterM pred l = Ok (filter b l).
Proof.
  induction l as [|x l IH]; intros H; simpl; [reflexivity|].
  rewrite (H x) by now left.
  rewrite IH; [reflexivity|]. intros y Hy. apply H. now right.
Qed.

Lemma filterM_throws {A} (pred : A -> exc bool) l x e :
  In x l -> pred x = Throw e -> exists e', filterM pred l = Throw e'.
Proof.
  induction l as [|y l IH]; intros Hin Hx; [destruct Hin|]. simpl.
  destruct (pred y) as [b|e0] eqn:Hy; [|now exists e0].
  destruct Hin as [->|Hin]; [congruence|].
  destruct (IH Hin Hx) as [e' He']. rewrite He'. now exists e'.
Qed.

Lemma existsb_flat_map {A B} (g : B -> bool) (f : A -> list B) l :
  existsb g (flat_map f l) = existsb (fun a => existsb g (f a)) l.
Proof.
  induction l as [|a l IH]; simpl; [reflexivity|].
  now rewrite existsb_app, IH.
Qed.

Lemma forallb_In {A} (f : A -> bool) l x : forallb f l = true -> In x l -> f x = true.
Proof. intros H. now apply forallb_forall. Qed.

(** What the search reads in a food, a meal and a record of the schemas. *)
Lemma food_name food :
  conforms FoodItemSchema food = true ->
  exists ps s, food = VObj ps /\ field "name" ps = VStr s.
Proof.
  intros H. apply ShapeFacts.conforms_object in H. destruct H as (ps & -> & H).
  cbn [all_fields] in H. apply andb_prop in H. destruct H as [Hn _].
  apply ShapeFacts.conforms_string in Hn. destruct Hn as (s & Hs & _).
  now exists ps, s.
Qed.

Lemma entry_text entry :
  conforms DailyEntrySchema entry = true ->
  exists ps meals tags,
    entry = VObj ps
    /\ field "meals" ps = VArr meals
    /\ forallb (conforms MealEntrySchema) meals = true
    /\ (field "notes" ps = VUndef \/ exists s, field "notes" ps = VStr s)
    /\ field "tags" ps = VArr tags.
Proof.
  intros H. apply ShapeFacts.conforms_object in H. destruct H as (ps & -> & H).
  cbn [all_fields] in H.
  apply andb_prop in H. destruct H as [_ H].
  apply andb_prop in H. destruct H as [_ H].
  apply andb_prop in H. destruct H as [Hmeals H].
  apply andb_prop in H. destruct H as [_ H].
  apply andb_prop in H. destruct H as [_ H].
  apply andb_prop in H. destruct H as [_ H].
  apply andb_prop in H. destruct H as [Hnotes H].
  apply andb_prop in H. destruct H as [Htags _].
  apply ShapeFacts.conforms_array in Hmeals. destruct Hmeals as (meals & Hm & Hmeals).
  apply ShapeFacts.conforms_array in Htags. destruct Htags as (tags & Ht & _).
  apply ShapeFacts.conforms_optional in Hnotes.
  exists ps, meals, tags. repeat split; auto.
  destruct Hnotes as [Hn|Hn]; [now left|right].
  apply ShapeFacts.conforms_string in Hn. destruct Hn as (s & Hs & _). now exists s.
Qed.

Lemma text_matches_shaped lowerQuery entry :
  conforms DailyEntrySchema entry = true ->
  text_matches lowerQuery entry = Ok (Selection.text_found lowerQuery entry).
Proof.
  intros H. destruct (entry_text entry H) as (ps & meals & tags & -> & Hm & Hmeals & Hn & _).
  unfold text_matches, Selection.text_found, Csv.foods_of.
  rewrite !ShapeFacts.get_prop_obj, !ShapeFacts.get_prop_opt_obj, Hm.
  cbn [exc_bind as_array Csv.list_of].
  assert (Hsome :
            someM (fun meal =>
                     foods <- get_prop meal "foods" ;;
                     foods <- as_array foods ;;
                     someM (fun food => name <- get_prop food "name" ;;
                                        lower_includes name lowerQuery) foods)%exc
                  meals
            = Ok (existsb (fun food => Selection.mentions lowerQuery
                                         (get_prop_opt food "name"))
                          (flat_map (fun meal => Csv.list_of (get_prop_opt meal "foods"))
                                    meals))).
  { rewrite existsb_flat_map. apply someM_existsb. intros meal Hin.
    pose proof (forallb_In _ _ _ Hmeals Hin) as Hmeal.
    apply ShapeFacts.meal_shape in Hmeal. destruct Hmeal as (mps & foods & -> & Hf & Hfoods).
    rewrite ShapeFacts.get_prop_obj, ShapeFacts.get_prop_opt_obj, Hf.
    cbn [exc_bind as_array Csv.list_of].
    apply someM_existsb. intros food Hfood.
    pose proof (forallb_In _ _ _ Hfoods Hfood) as Hshape.
    apply food_name in Hshape. destruct Hshape as (fps & s & -> & Hs).
    rewrite ShapeFacts.get_prop_obj, ShapeFacts.get_prop_opt_obj, Hs. reflexivity. }
  destruct Hn as [Hn|[s Hn]]; rewrite Hn; cbn [exc_bind Selection.mentions lower_includes].
  - cbn [orb]. exact Hsome.
  - destruct (Js.includes (Js.toLowerCase s) lowerQuery); [reflexivity|exact Hsome].
Qed.

Lemma tags_include_shaped entry tag :
  conforms DailyEntrySchema entry = true ->
  tags_include entry tag = Ok (Selection.tagged entry tag).
Proof.
  intros H. destruct (entry_text entry H) as (ps & meals & tags & -> & _ & _ & _ & Ht).
  unfold tags_include, Selection.tagged.
  rewrite ShapeFacts.get_prop_obj, ShapeFacts.get_prop_opt_obj, Ht. reflexivity.
Qed.

Lemma trim_empty : Js.trim "" = "".
Proof. reflexivity. Qed.

Lemma query_given query :
  (negb (String.eqb query "") && negb (String.eqb (Js.trim query) ""))%bool
  = negb (Selection.blank query).
Proof.
  unfold Selection.blank. destruct (String.eqb query "") eqn:E; [|reflexivity].
  apply String.eqb_eq in E. subst. reflexivity.
Qed.

Lemma search_filter_shaped query tags entries :
  Forall (fun e => conforms DailyEntrySchema e = true) entries ->
  search_filter query tags entries = Ok (filter (Selection.selects query tags) entries).
Proof.
  intros Hshape. unfold search_filter. cbv zeta. rewrite query_given.
  assert (Htext : (if negb (Selection.blank query)
                   then filterM (text_matches (Js.toLowerCase query)) entries
                   else Ok entries)
                  = Ok (filter (fun e => Selection.blank query
                                         || Selection.text_found (Js.toLowerCase query) e)
                               entries)).
  { destruct (Selection.blank query); cbn [negb orb].
    - now rewrite filter_true.
    - apply filterM_filter. intros e He. rewrite Forall_forall in Hshape.
      now apply text_matches_shaped, Hshape. }
  rewrite Htext. cbn [exc_bind].
  unfold Selection.selects. destruct tags as [|tag tags].
  - apply f_equal. apply filter_ext. intros e. now rewrite andb_true_r.
  - rewrite <- filter_filter. apply filterM_filter. intros e He.
    apply filter_In in He. destruct He as [He _].
    apply someM_existsb. intros t _. rewrite Forall_forall in Hshape.
    now apply tags_include_shaped, Hshape.
Qed.

(** White space, and the case of the query. *)
Lemma rev_onto_empty s : forall acc, Js.rev_onto s acc = "" -> s = "" /\ acc = "".
Proof.
  induction s as [|c s IH]; intros acc; simpl; [now split|].
  intros H. destruct (IH _ H) as [_ Hacc]. discriminate.
Qed.

Lemma spaces_rev_onto s :
  forall acc, Selection.spaces (Js.rev_onto s acc) = (Selection.spaces s && Selection.spaces acc)%bool.
Proof.
  unfold Selection.spaces.
  induction s as [|c s IH]; intros acc; simpl; [reflexivity|].
  rewrite IH. simpl. now destruct (Js.is_space c), (forallb _ (list_ascii_of_string s)).
Qed.

Lemma trimStart_empty s : Js.trimStart s = "" <-> Selection.spaces s = true.
Proof.
  unfold Selection.spaces. induction s as [|c s IH]; simpl; [tauto|].
  destruct (Js.is_space c); simpl; [exact IH|]. split; discriminate.
Qed.

Lemma trimStart_spaces s : Selection.spaces (Js.trimStart s) = true -> Js.trimStart s = "".
Proof.
  unfold Selection.spaces. induction s as [|c s IH]; simpl; [reflexivity|].
  destruct (Js.is_space c) eqn:E; [exact IH|]. simpl. now rewrite E.
Qed.

Lemma blank_spaces query : Selection.blank query = Selection.spaces query.
Proof.
  unfold Selection.blank, Js.trim, Js.rev.
  destruct (Selection.spaces query) eqn:E.
  - apply trimStart_empty in E. rewrite E. reflexivity.
  - apply String.eqb_neq. intros H.
    apply rev_onto_empty in H. destruct H as [H _].
    apply trimStart_empty in H. rewrite spaces_rev_onto in H.
    rewrite andb_true_r in H. apply trimStart_spaces, trimStart_empty in H.
    congruence.
Qed.

Lemma is_space_lower c : Js.is_space (Js.lower_ascii c) = Js.is_space c.
Proof. destruct c as [[] [] [] [] [] [] [] []]; reflexivity. Qed.

Lemma spaces_lower s : Selection.spaces (Js.toLowerCase s) = Selection.spaces s.
Proof.
  unfold Selection.spaces. induction s as [|c s IH]; simpl; [reflexivity|].
  now rewrite is_space_lower, IH.
Qed.

Lemma search_filter_case query query' tags entries :
  Js.toLowerCase query = Js.toLowerCase query' ->
  search_filter query tags entries = search_filter query' tags entries.
Proof.
  intros H. unfold search_filter. cbv zeta. rewrite !query_given, !blank_spaces.
  rewrite <- (spaces_lower query), <- (spaces_lower query'), H. reflexivity.
Qed.

End SearchFacts.

(** On records of the schema's shape search-entries never fails, and it
    returns, in the order of the directory, the records that pass both
    tests: the text test, passed when the query is blank (empty or white
    space only) or when the lowercased query occurs in the lowercased notes
    or in the lowercased name of a food of any meal; and the tag test,
    passed when no tag is asked for or when the record carries at least one
    of the tags, letter for letter. *)
Theorem search_selects_by_text_and_tags
        {rt : Runtime} (w : World) (root query : string) (tags : list string)
        (entries : list value) :
  configured w root ->
  stored_entries w = Ok entries ->
  Forall (fun e => Shape.conforms Zod.DailyEntrySchema e = true) entries ->
  fst (search_entries query tags w) = filter (Selection.selects query tags) entries.
Proof.
  intros Hc He Hshape.
  rewrite (search_entries_eq _ _ _ _ Hc), He. cbn [fst].
  now rewrite (SearchFacts.search_filter_shaped _ _ _ Hshape).
Qed.

Lemma search_selects_by_text_and_tags_witness :
  map date_string (fst (search_entries "PIZZA" [] Sample.two_days)) = ["2026-01-11"]
  /\ map date_string (fst (search_entries "  " ["cheat-day"; "fast"] Sample.two_days))
     = ["2026-01-11"].
Proof.
  assert (Hc : configured Sample.two_days "/data") by (split; [reflexivity|discriminate]).
  assert (He : stored_entries Sample.two_days = Ok (Sample.listed Sample.two_days))
    by (vm_compute; reflexivity).
  assert (Hs : Forall (fun e => Shape.conforms Zod.DailyEntrySchema e = true)
                      (Sample.listed Sample.two_days)).
  { apply Forall_forall, forallb_forall. vm_compute. reflexivity. }
  split.
  - rewrite (search_selects_by_text_and_tags (rt := Ref.runtime) Sample.two_days "/data"
               "PIZZA" [] _ Hc He Hs).
    vm_compute. reflexivity.
  - rewrite (search_selects_by_text_and_tags (rt := Ref.runtime) Sample.two_days "/data"
               "  " ["cheat-day"; "fast"] _ Hc He Hs).
    vm_compute. reflexivity.
Defined.

(** The search ignores the case of the query, whatever the files hold: two
    queries with the same lowercase form get the same reply and leave the
    same world. *)
Theorem search_ignores_the_case_of_the_query
        {rt : Runtime} (w : World) (query query' : string) (tags : list string) :
  Js.toLowerCase query = Js.toLowerCase query' ->
  search_entries query tags w = search_entries query' tags w.
Proof.
  intros H. unfold search_entries, try_handler, bind, lift.
  destruct (ensureDataPath w) as [[root|e] w1]; [|reflexivity].
  destruct (load_entries (path_join root "daily") w1) as [[all|e] w2]; [|reflexivity].
  now rewrite (SearchFacts.search_filter_case _ _ _ _ H).
Qed.

Lemma search_ignores_the_case_of_the_query_witness :
  search_entries "PiZZa" [] Sample.two_days = search_entries "pizza" [] Sample.two_days.
Proof.
  apply (search_ignores_the_case_of_the_query (rt := Ref.runtime)).
  reflexivity.
Defined.

(** A record without a list of tags breaks every search by tag: when one
    stored record has a [tags] property that is neither an array nor a
    string (a file written by hand, say; the records saved through
    validation all have the array), a search with a blank query and at
    least one tag replies with the empty list, though other records carry
    the tag. *)
Theorem tag_search_needs_tags_on_every_record
        {rt : Runtime} (w : World) (root query : string) (tags : list string)
        (entries : list value) (e : value) :
  configured w root ->
  stored_entries w = Ok entries ->
  Selection.blank query = true ->
  tags <> [] ->
  In e entries ->
  (forall l, get_prop_opt e "tags" <> VArr l) ->
  (forall s, get_prop_opt e "tags" <> VStr s) ->
  fst (search_entries query tags w) = [].
Proof.
  intros Hc He Hblank Htags Hin Harr Hstr.
  rewrite (search_entries_eq _ _ _ _ Hc), He. cbn [fst].
  unfold search_filter. cbv zeta. rewrite SearchFacts.query_given, Hblank.
  cbn [negb exc_bind]. destruct tags as [|tag tags]; [congruence|].
  assert (Hthrow : someM (tags_include e) (tag :: tags) = Throw TypeError).
  { cbn [someM]. unfold tags_include.
    destruct e as [| | | | | | |ps]; try reflexivity.
    rewrite ShapeFacts.get_prop_obj. cbn [exc_bind].
    rewrite ShapeFacts.get_prop_opt_obj in Harr, Hstr.
    destruct (Zod.field "tags" ps) as [| | | | |s|l|]; try reflexivity.
    - now destruct (Hstr s).
    - now destruct (Harr l). }
  destruct (SearchFacts.filterM_throws
              (fun entry => someM (tags_include entry) (tag :: tags)) entries e
              TypeError Hin Hthrow) as [e' He'].
  now rewrite He'.
Qed.

(** ** The range of one day, and the record of today *)

Section DayFacts.

Context {rt : Runtime}.

Lemma leb_refl s : String.leb s s = true.
Proof. now destruct (String.leb_total s s). Qed.

Lemma within_one_day d x :
  d <> "" -> within (Some d) (Some d) x = String.eqb x d.
Proof.
  intros Hd. unfold within, given. cbn [truthy_str].
  apply String.eqb_neq in Hd. rewrite Hd. cbn [negb].
  destruct (String.eqb x d) eqn:E.
  - apply String.eqb_eq in E. subst. now rewrite leb_refl.
  - destruct (String.leb d x) eqn:E1; [|reflexivity].
    destruct (String.leb x d) eqn:E2; [|reflexivity].
    rewrite (String.leb_antisym _ _ E2 E1), String.eqb_refl in E. discriminate.
Qed.

Lemma js_sort_one_day d l :
  Forall (fun e => entry_date e = VStr d) l -> js_sort by_date_desc l = l.
Proof.
  induction l as [|x l IH]; intros H; [reflexivity|].
  inversion H as [|? ? Hx Hl]; subst. cbn [js_sort]. rewrite (IH Hl).
  destruct l as [|y l]; [reflexivity|]. cbn [sort_insert].
  inversion Hl as [|? ? Hy _]; subst.
  unfold keeps_before, by_date_desc. rewrite Hx, Hy.
  destruct (Date_getTime (VStr d)) as [t|]; [|reflexivity].
  now rewrite Z.sub_diag.
Qed.

Lemma range_one_day d entries :
  Forall dated entries ->
  d <> "" ->
  js_sort by_date_desc (range_filter (Some d) (Some d) entries)
  = filter (on_day d) entries.
Proof.
  intros Hdated Hd.
  rewrite (range_filter_within _ _ _ Hdated).
  rewrite (filter_ext _ (on_day d)) by (intros e; now apply within_one_day).
  apply (js_sort_one_day d). apply Forall_forall. intros e Hin.
  apply filter_In in Hin. destruct Hin as [Hin Hon].
  rewrite Forall_forall in Hdated. rewrite (Hdated e Hin).
  unfold on_day in Hon. apply String.eqb_eq in Hon. now rewrite Hon.
Qed.

End DayFacts.

(** A range that starts and ends on the same day lists exactly the records
    of that day, in the order of the directory: nothing is sorted away and
    no neighbouring day slips in.  The records are taken to load and to
    carry date strings. *)
Theorem one_day_range_is_exact
        {rt : Runtime} (w : World) (root d : string) (entries : list value) :
  configured w root ->
  stored_entries w = Ok entries ->
  Forall dated entries ->
  d <> "" ->
  fst (get_daily_entries (Some d) (Some d) w) = filter (on_day d) entries.
Proof.
  intros Hc He Hdated Hd.
  rewrite (get_daily_entries_eq _ _ _ _ Hc), He. cbn [fst].
  now apply range_one_day.
Qed.

Lemma one_day_range_is_exact_witness :
  map date_string
      (fst (get_daily_entries (Some "2026-01-11") (Some "2026-01-11") Sample.five_days))
  = ["2026-01-11"].
Proof.
  assert (Hc : configured Sample.five_days "/data") by (split; [reflexivity|discriminate]).
  assert (He : stored_entries Sample.five_days = Ok (Sample.listed Sample.five_days))
    by (vm_compute; reflexivity).
  assert (Hd : Forall dated (Sample.listed Sample.five_days)).
  { vm_compute. repeat constructor. }
  rewrite (one_day_range_is_exact (rt := Ref.runtime) Sample.five_days "/data"
             "2026-01-11" _ Hc He Hd ltac:(discriminate)).
  vm_compute. reflexivity.
Defined.

(** The dashboard's record of today: [loadTodayEntry] takes the first
    stored record dated today, and when there is none it starts a blank
    record (no meals, no water, no tags, id and date today) without writing
    it; for a date of the form dddd-dd-dd that blank record passes
    validation unchanged, so the first save of the day is accepted. *)
Theorem today_is_loaded_or_started
        {rt : Runtime} (w : World) (root today : string) (entries : list value) :
  configured w root ->
  stored_entries w = Ok entries ->
  Forall dated entries ->
  today <> "" ->
  fst (Dashboard.loadTodayEntry today w)
  = first_or (Dashboard.newEntry today) (filter (on_day today) entries)
  /\ only_reads w (snd (Dashboard.loadTodayEntry today w))
  /\ (Shape.check_ok today Zod.date_regex = true ->
      Zod.validateData Zod.DailyEntrySchema (Dashboard.newEntry today)
      = inl (Dashboard.newEntry today)).
Proof.
  intros Hc He Hdated Hd. unfold Dashboard.loadTodayEntry.
  pose proof (get_daily_entries_eq w root (Some today) (Some today) Hc) as Heq.
  rewrite He, (range_one_day today entries Hdated Hd) in Heq.
  destruct (get_daily_entries (Some today) (Some today) w) as [listing w'].
  cbn [fst snd] in *. unfold first_or. split; [now injection Heq as -> _|]. split.
  - injection Heq as _ ->. eexists. split; [reflexivity|].
    cbn [forallb reads andb]. apply reads_load_calls.
  - intros Hre. unfold Zod.validateData, Dashboard.newEntry.
    cbn -[Zod.regex_test]. cbn [Shape.check_ok Zod.date_regex] in Hre.
    now rewrite Hre.
Qed.

Lemma today_is_loaded_or_started_witness :
  date_string (fst (Dashboard.loadTodayEntry "2026-01-11" Sample.five_days))
  = "2026-01-11"
  /\ fst (Dashboard.loadTodayEntry "2026-01-20" Sample.five_days)
     = Dashboard.newEntry "2026-01-20".
Proof.
  assert (Hc : configured Sample.five_days "/data") by (split; [reflexivity|discriminate]).
  assert (He : stored_entries Sample.five_days = Ok (Sample.listed Sample.five_days))
    by (vm_compute; reflexivity).
  assert (Hd : Forall dated (Sample.listed Sample.five_days)).
  { vm_compute. repeat constructor. }
  split.
  - rewrite (proj1 (today_is_loaded_or_started (rt := Ref.runtime) Sample.five_days
                      "/data" "2026-01-11" _ Hc He Hd ltac:(discriminate))).
    vm_compute. reflexivity.
  - rewrite (proj1 (today_is_loaded_or_started (rt := Ref.runtime) Sample.five_days
                      "/data" "2026-01-20" _ Hc He Hd ltac:(discriminate))).
    vm_compute. reflexivity.
Defined.

Lemma tag_search_needs_tags_on_every_record_witness :
  map date_string (fst (search_entries "" ["cheat-day"] Sample.two_days))
  = ["2026-01-11"]
  /\ fst (search_entries "" ["cheat-day"] Cases.untagged) = [].
Proof.
  split; [vm_compute; reflexivity|].
  assert (Hc : configured Cases.untagged "/data") by (split; [reflexivity|discriminate]).
  assert (He : stored_entries Cases.untagged = Ok (Sample.listed Cases.untagged))
    by (vm_compute; reflexivity).
  assert (Hin : In (nth 2 (Sample.listed Cases.untagged) VUndef)
                   (Sample.listed Cases.untagged)).
  { vm_compute. right. right. left. reflexivity. }
  apply (tag_search_needs_tags_on_every_record (rt := Ref.runtime) Cases.untagged "/data"
           "" ["cheat-day"] _ _ Hc He eq_refl ltac:(discriminate) Hin).
  - intros l. vm_compute. discriminate.
  - intros s. vm_compute. discriminate.
Defined.

(** ** The dashboard's edits of today's record *)

Module EditFacts.

Import Zod Shape.

Lemma field_set_key k k' v ps :
  field k' (set_key k v ps) = if String.eqb k k' then v else field k' ps.
Proof.
  unfold field. destruct (String.eqb k k') eqn:E.
  - apply String.eqb_eq in E. subst. now rewrite lookup_set_key_same.
  - apply String.eqb_neq in E. now rewrite lookup_set_key_other.
Qed.

Lemma all_fields_set_key ps sh k v :
  all_fields conforms ps sh = true ->
  (forall tk, In (k, tk) sh -> conforms tk v = true) ->
  all_fields conforms (set_key k v ps) sh = true.
Proof.
  induction sh as [|[k' tk'] sh IH]; simpl; [reflexivity|].
  intros H Hv. apply andb_prop in H. destruct H as [H1 H2].
  rewrite field_set_key. rewrite IH; [|assumption|intros tk Hin; apply Hv; now right].
  rewrite andb_true_r. destruct (String.eqb k k') eqn:E; [|assumption].
  apply String.eqb_eq in E. subst. apply Hv. now left.
Qed.

Lemma water_shape entry :
  conforms DailyEntrySchema entry = true ->
  exists ps water g,
    entry = VObj ps /\ field "water" ps = VObj water
    /\ field "glasses" water = VNum g /\ 0 <= g <= 50.
Proof.
  intros H. apply ShapeFacts.conforms_object in H. destruct H as (ps & -> & H).
  cbn [all_fields] in H.
  apply andb_prop in H. destruct H as [_ H].
  apply andb_prop in H. destruct H as [_ H].
  apply andb_prop in H. destruct H as [_ H].
  apply andb_prop in H. destruct H as [Hw _].
  apply ShapeFacts.conforms_object in Hw. destruct Hw as (water & Hw & Hwater).
  cbn [all_fields] in Hwater.
  apply andb_prop in Hwater. destruct Hwater as [Hg _].
  apply ShapeFacts.conforms_number in Hg. destruct Hg as (g & Hg & Hlo & Hhi).
  exists ps, water, g. repeat split; auto.
  - now apply Z.leb_le in Hlo.
  - now apply Z.leb_le in Hhi.
Qed.

Lemma conforms_with_glasses entry g :
  conforms DailyEntrySchema entry = true ->
  0 <= g <= 50 ->
  conforms DailyEntrySchema (with_glasses g entry) = true.
Proof.
  intros H Hg. apply ShapeFacts.conforms_object in H. destruct H as (ps & -> & H).
  unfold with_glasses. cbn [spread].
  change (all_fields conforms
            (set_key "water"
                     (VObj [("glasses", VNum g); ("ounces", VNum (g * 8))]) ps)
            [ ("id", ZOptional z_string); ("date", ZString [date_regex]);
              ("meals", ZArray MealEntrySchema); ("water", WaterSchema);
              ("exercise", ZOptional ExerciseEntrySchema);
              ("weight", ZOptional (z_number_min_max 0 1000));
              ("notes", ZOptional z_string); ("tags", ZArray z_string) ] = true).
  apply all_fields_set_key; [exact H|].
  intros tk Hin.
  repeat (destruct Hin as [Hin|Hin]; [try discriminate|]); [|destruct Hin].
  injection Hin as <-.
  cbn. destruct Hg as [Hlo Hhi].
  assert (H1 : (0 <=? g) = true) by now apply Z.leb_le.
  assert (H2 : (g <=? 50) = true) by now apply Z.leb_le.
  assert (H3 : (0 <=? g * 8) = true) by (apply Z.leb_le; lia).
  assert (H4 : (g * 8 <=? 400) = true) by (apply Z.leb_le; lia).
  now rewrite H1, H2, H3, H4.
Qed.

Lemma meals_shape entry :
  conforms DailyEntrySchema entry = true ->
  exists ps meals,
    entry = VObj ps /\ field "meals" ps = VArr meals
    /\ forallb (conforms MealEntrySchema) meals = true.
Proof.
  intros H. destruct (SearchFacts.entry_text entry H)
    as (ps & meals & tags & -> & Hm & Hmeals & _).
  now exists ps, meals.
Qed.

Lemma conforms_with_meals entry meals :
  conforms DailyEntrySchema entry = true ->
  forallb (conforms MealEntrySchema) meals = true ->
  conforms DailyEntrySchema (with_meals meals entry) = true.
Proof.
  intros H Hmeals. apply ShapeFacts.conforms_object in H. destruct H as (ps & -> & H).
  unfold with_meals. cbn [spread].
  change (all_fields conforms (set_key "meals" (VArr meals) ps)
            [ ("id", ZOptional z_string); ("date", ZString [date_regex]);
              ("meals", ZArray MealEntrySchema); ("water", WaterSchema);
              ("exercise", ZOptional ExerciseEntrySchema);
              ("weight", ZOptional (z_number_min_max 0 1000));
              ("notes", ZOptional z_string); ("tags", ZArray z_string) ] = true).
  apply all_fields_set_key; [exact H|].
  intros tk Hin.
  repeat (destruct Hin as [Hin|Hin]; [try discriminate|]); [|destruct Hin].
  injection Hin as <-. exact Hmeals.
Qed.

Lemma meal_id meal :
  conforms MealEntrySchema meal = true ->
  exists ps s, meal = VObj ps /\ field "id" ps = VStr s.
Proof.
  intros H. apply ShapeFacts.conforms_object in H. destruct H as (ps & -> & H).
  cbn [all_fields] in H. apply andb_prop in H. destruct H as [Hid _].
  apply ShapeFacts.conforms_string in Hid. destruct Hid as (s & Hs & _).
  now exists ps, s.
Qed.

Lemma prefix_app_inv a : forall b s,
  String.prefix (a ++ b) s = true -> String.prefix a s = true.
Proof.
  induction a as [|c a IH]; intros b s; [now destruct s|].
  destruct s as [|c' s]; cbn [append String.prefix]; [discriminate|].
  destruct (Ascii.ascii_dec c c'); [apply IH|discriminate].
Qed.

Lemma includes_app_inv a b : forall s,
  Js.includes s (a ++ b) = true -> Js.includes s a = true.
Proof.
  induction s as [|c s IH]; cbn [Js.includes].
  - destruct (String.prefix (a ++ b) "") eqn:E; [|discriminate].
    now rewrite (prefix_app_inv _ _ _ E).
  - destruct (String.prefix (a ++ b) (String c s)) eqn:E.
    + now rewrite (prefix_app_inv _ _ _ E).
    + intros H. rewrite (IH H). now destruct (String.prefix a (String c s)).
Qed.

Section Saves.

Context {rt : Runtime}.

Lemma save_conforming w root salt updated :
  configured w root ->
  conforms DailyEntrySchema updated = true ->
  no_error (fst (save_daily_entry salt updated w)).
Proof.
  intros Hc Hs.
  rewrite (save_daily_entry_valid _ _ _ _ _ Hc
             (NormalFacts.validateData_conforming _ _ Hs)).
  exact I.
Qed.

Lemma save_updated_ok salt entry updated w :
  no_error (fst (save_daily_entry salt updated w)) ->
  Dashboard.save_updated salt (Some entry) (Ok updated) w
  = (Some updated, snd (save_daily_entry salt updated w)).
Proof.
  unfold Dashboard.save_updated.
  destruct (save_daily_entry salt updated w) as [[id|error|e] w']; cbn [fst snd];
    intros H; now try destruct H.
Qed.

End Saves.

End EditFacts.

(** The water counter of the dashboard against the schema's bound of fifty
    glasses.  On a record of the schema's shape that counts [g] glasses (an
    integer): below fifty, the plus button saves the record with [g + 1]
    glasses of eight ounces and shows it; at fifty the save is refused by
    validation, which names [water.glasses], nothing is written and the
    dashboard keeps the record it had; at zero the minus button does
    nothing and calls nothing; above zero it saves [g - 1] glasses. *)
Theorem water_counter_stops_at_the_bounds
        {rt : Runtime} (w : World) (root salt : string) (entry : value) (g : Z) :
  configured w root ->
  Shape.conforms Zod.DailyEntrySchema entry = true ->
  glasses_of entry = VNum g ->
  let saved n := save_daily_entry salt (with_glasses n entry) w in
  (g < 50 ->
   Dashboard.handleWaterIncrement salt (Some entry) w
   = (Some (with_glasses (g + 1) entry), snd (saved (g + 1)))
   /\ no_error (fst (saved (g + 1))))
  /\ (g = 50 ->
      exists error,
        saved 51 = (ValidationFailure error, logged w (ensure_calls root))
        /\ Js.includes error "water.glasses: " = true
        /\ Dashboard.handleWaterIncrement salt (Some entry) w
           = (Some entry, logged w (ensure_calls root)))
  /\ (g = 0 -> Dashboard.handleWaterDecrement salt (Some entry) w = (Some entry, w))
  /\ (0 < g ->
      Dashboard.handleWaterDecrement salt (Some entry) w
      = (Some (with_glasses (g - 1) entry), snd (saved (g - 1)))
      /\ no_error (fst (saved (g - 1)))).
Proof.
  intros Hc Hs Hg. cbv zeta.
  destruct (EditFacts.water_shape entry Hs) as (ps & water & g' & -> & Hw & Hg' & Hb).
  unfold glasses_of in Hg. rewrite !ShapeFacts.get_prop_opt_obj, Hw in Hg.
  rewrite ShapeFacts.get_prop_opt_obj, Hg' in Hg. injection Hg as ->.
  assert (Hup : Dashboard.handleWaterIncrement salt (Some (VObj ps)) w
                = Dashboard.save_updated salt (Some (VObj ps))
                    (Ok (with_glasses (g + 1) (VObj ps))) w).
  { unfold Dashboard.handleWaterIncrement.
    rewrite ShapeFacts.get_prop_obj, Hw. cbn [exc_bind].
    rewrite ShapeFacts.get_prop_obj, Hg'. reflexivity. }
  assert (Hdown : 0 < g ->
                  Dashboard.handleWaterDecrement salt (Some (VObj ps)) w
                  = Dashboard.save_updated salt (Some (VObj ps))
                      (Ok (with_glasses (g - 1) (VObj ps))) w).
  { intros Hpos. unfold Dashboard.handleWaterDecrement.
    rewrite ShapeFacts.get_prop_obj, Hw. cbn [exc_bind].
    rewrite ShapeFacts.get_prop_obj, Hg'.
    destruct g as [|n|n]; try lia. reflexivity. }
  split; [|split; [|split]].
  - intros Hlt.
    assert (Hok : no_error (fst (save_daily_entry salt (with_glasses (g + 1) (VObj ps)) w))).
    { apply (EditFacts.save_conforming _ root); [exact Hc|].
      apply EditFacts.conforms_with_glasses; [exact Hs|lia]. }
    split; [|exact Hok]. rewrite Hup. now apply EditFacts.save_updated_ok.
  - intros ->.
    assert (Hv : Shape.violates Zod.DailyEntrySchema (with_glasses 51 (VObj ps))
                                ["water"; "glasses"]).
    { unfold with_glasses. cbn [spread].
      apply (Shape.in_field _ _ "water" Zod.WaterSchema).
      - cbn. tauto.
      - rewrite EditFacts.field_set_key. cbn [String.eqb Ascii.eqb Bool.eqb].
        apply (Shape.in_field _ _ "glasses" (Zod.z_number_min_max 0 50)).
        + cbn. tauto.
        + cbn. apply Shape.too_big. reflexivity. }
    destruct (ValidationFacts.violation_named _ _ _ Hv) as (error & reason & He & _ & Hinc).
    exists error.
    pose proof (save_daily_entry_invalid _ _ salt _ _ Hc He) as Hsave.
    split; [exact Hsave|]. split.
    + apply (EditFacts.includes_app_inv _ reason). exact Hinc.
    + rewrite Hup. unfold Dashboard.save_updated. change (50 + 1) with 51.
      now rewrite Hsave.
  - intros ->. unfold Dashboard.handleWaterDecrement.
    rewrite ShapeFacts.get_prop_obj, Hw. cbn [exc_bind].
    rewrite ShapeFacts.get_prop_obj, Hg'. reflexivity.
  - intros Hpos.
    assert (Hok : no_error (fst (save_daily_entry salt (with_glasses (g - 1) (VObj ps)) w))).
    { apply (EditFacts.save_conforming _ root); [exact Hc|].
      apply EditFacts.conforms_with_glasses; [exact Hs|lia]. }
    split; [|exact Hok]. rewrite (Hdown Hpos). now apply EditFacts.save_updated_ok.
Qed.

Lemma water_counter_stops_at_the_bounds_witness :
  fst (Dashboard.handleWaterIncrement "s4" (Some Sample.jan10) Sample.two_days)
  = Some (with_glasses 7 Sample.jan10)
  /\ Dashboard.handleWaterDecrement "s4" (Some (Dashboard.newEntry "2026-01-20"))
                                    Sample.two_days
     = (Some (Dashboard.newEntry "2026-01-20"), Sample.two_days).
Proof.
  assert (Hc : configured Sample.two_days "/data") by (split; [reflexivity|discriminate]).
  split.
  - destruct (water_counter_stops_at_the_bounds (rt := Ref.runtime) Sample.two_days
                "/data" "s4" Sample.jan10 6 Hc eq_refl eq_refl) as (Hup & _).
    destruct (Hup ltac:(lia)) as [Hstate _]. now rewrite Hstate.
  - destruct (water_counter_stops_at_the_bounds (rt := Ref.runtime) Sample.two_days
                "/data" "s4" (Dashboard.newEntry "2026-01-20") 0 Hc eq_refl eq_refl)
      as (_ & _ & Hzero & _).
    now apply Hzero.
Defined.

(** Adding a meal to today's record and deleting one keep the record
    valid: on a record of the schema's shape, [handleMealAdded] with a meal
    of the schema's shape saves the record with the meal appended, and
    [handleDeleteMeal] saves it without the meals of the given id; in both
    cases the save is accepted and the dashboard shows the saved record. *)
Theorem meal_edits_are_accepted
        {rt : Runtime} (w : World) (root salt : string) (entry meal : value)
        (meals : list value) (mealId : string) :
  configured w root ->
  Shape.conforms Zod.DailyEntrySchema entry = true ->
  get_prop_opt entry "meals" = VArr meals ->
  let added := with_meals (meals ++ [meal]) entry in
  let kept := with_meals (filter (fun m => negb (has_id mealId m)) meals) entry in
  (Shape.conforms Zod.MealEntrySchema meal = true ->
   Dashboard.handleMealAdded salt (Some entry) meal w
   = (Some added, snd (save_daily_entry salt added w))
   /\ no_error (fst (save_daily_entry salt added w)))
  /\ Dashboard.handleDeleteMeal salt (Some entry) mealId w
     = (Some kept, snd (save_daily_entry salt kept w))
  /\ no_error (fst (save_daily_entry salt kept w)).
Proof.
  intros Hc Hs Hm. cbv zeta.
  destruct (EditFacts.meals_shape entry Hs) as (ps & meals' & -> & Hm' & Hmeals).
  rewrite ShapeFacts.get_prop_opt_obj, Hm' in Hm. injection Hm as ->.
  split; [|split].
  - intros Hmeal.
    assert (Hok : no_error (fst (save_daily_entry salt
                                   (with_meals (meals ++ [meal]) (VObj ps)) w))).
    { apply (EditFacts.save_conforming _ root); [exact Hc|].
      apply EditFacts.conforms_with_meals; [exact Hs|].
      rewrite forallb_app, Hmeals. cbn [forallb]. now rewrite Hmeal. }
    split; [|exact Hok]. unfold Dashboard.handleMealAdded.
    rewrite ShapeFacts.get_prop_obj, Hm'. cbn [exc_bind Dashboard.iterate].
    now apply EditFacts.save_updated_ok.
  - unfold Dashboard.handleDeleteMeal.
    rewrite ShapeFacts.get_prop_obj, Hm'. cbn [exc_bind as_array].
    rewrite (SearchFacts.filterM_filter _ (fun m => negb (has_id mealId m))).
    + cbn [exc_bind]. apply EditFacts.save_updated_ok.
      apply (EditFacts.save_conforming _ root); [exact Hc|].
      apply EditFacts.conforms_with_meals; [exact Hs|].
      apply forallb_forall. intros m Hin. apply filter_In in Hin.
      exact (SearchFacts.forallb_In _ _ _ Hmeals (proj1 Hin)).
    + intros m Hin.
      destruct (EditFacts.meal_id m (SearchFacts.forallb_In _ _ _ Hmeals Hin))
        as (mps & s & -> & Hid).
      unfold Dashboard.other_id, has_id.
      now rewrite ShapeFacts.get_prop_obj, ShapeFacts.get_prop_opt_obj, Hid.
  - apply (EditFacts.save_conforming _ root); [exact Hc|].
    apply EditFacts.conforms_with_meals; [exact Hs|].
    apply forallb_forall. intros m Hin. apply filter_In in Hin.
    exact (SearchFacts.forallb_In _ _ _ Hmeals (proj1 Hin)).
Qed.

Lemma meal_edits_are_accepted_witness :
  fst (Dashboard.handleMealAdded "s5" (Some Sample.jan10) Sample.dinner Sample.two_days)
  = Some (with_meals [Sample.breakfast; Sample.dinner] Sample.jan10)
  /\ fst (Dashboard.handleDeleteMeal "s5" (Some Sample.jan10) "meal-1" Sample.two_days)
     = Some (with_meals [] Sample.jan10).
Proof.
  assert (Hc : configured Sample.two_days "/data") by (split; [reflexivity|discriminate]).
  destruct (meal_edits_are_accepted (rt := Ref.runtime) Sample.two_days "/data" "s5"
              Sample.jan10 Sample.dinner [Sample.breakfast] "meal-1" Hc eq_refl eq_refl)
    as (Hadd & Hdel & _).
  split.
  - destruct (Hadd eq_refl) as [H _]. now rewrite H.
  - now rewrite Hdel.
Defined.

(** ** The saved password and the persisted data path *)

(** set-password checks nothing: it replies [true] and makes its argument
    the session password, whatever the settings file is encrypted with,
    and leaves the records and the settings as they are.  With [remember]
    and a data folder it writes the password, encrypted under the name of
    the application, to [.password], from where get-saved-password reads
    it back (no session password is needed for that, only the data path:
    right after a restart, before get-data-path has run, the reply is
    [null]); without [remember] it writes nothing and leaves an earlier
    [.password] file in place. *)
Theorem set_password_is_remembered
        {rt : Runtime} (appName salt password root : string) (remember : bool)
        (p : Process) :
  configured (world p) root ->
  cipher_correct ->
  let p' := snd (set_password appName salt password remember p) in
  fst (set_password appName salt password remember p) = true
  /\ encryptionPassword (world p') = Some password
  /\ same_files p p'
  /\ (remember = true ->
      fsLog (world p')
      = (fsLog (world p)
         ++ [WriteFile (path_join root ".password")
                       (AES_encrypt salt password appName)])%list
      /\ fst (get_saved_password appName p') = Some password
      /\ fst (get_saved_password appName (restart p')) = None)
  /\ (remember = false ->
      fsLog (world p') = fsLog (world p) /\ passwordFile p' = passwordFile p).
Proof.
  intros [Hp Hne] Hcorrect. cbv zeta. unfold set_password.
  cbn [dataPath with_password]. rewrite Hp. cbn [truthy_str].
  apply String.eqb_neq in Hne. rewrite Hne. cbn [negb]. rewrite andb_true_r.
  destruct remember; cbn [fst snd world passwordFile encryptionPassword
                            with_call with_password fsLog].
  - split; [reflexivity|]. split; [reflexivity|]. split; [now split|].
    split; [|discriminate]. intros _.
    split; [reflexivity|]. split; [|reflexivity].
    unfold get_saved_password. cbn [world dataPath with_call with_password passwordFile].
    rewrite Hp. cbn [truthy_str]. rewrite Hne. cbn [negb fst of_option exc_bind].
    unfold decrypt, encrypt. now rewrite Hcorrect.
  - split; [reflexivity|]. split; [reflexivity|]. split; [now split|].
    split; [discriminate|]. intros _. now split.
Qed.

Lemma set_password_is_remembered_witness :
  fst (get_saved_password "calorie-tracker"
         (snd (set_password "calorie-tracker" "s7" "hunter2" true
                            (mkProcess Sample.locked None (Some "/data")))))
  = Some "hunter2".
Proof.
  assert (Hc : configured Sample.locked "/data") by (split; [reflexivity|discriminate]).
  destruct (set_password_is_remembered (rt := Ref.runtime) "calorie-tracker" "s7"
              "hunter2" "/data" true (mkProcess Sample.locked None (Some "/data"))
              Hc RefFacts.cipher_correct) as (_ & _ & _ & Hyes & _).
  exact (proj1 (proj2 (Hyes eq_refl))).
Defined.

(** clear-saved-password deletes the [.password] file and nothing else: it
    replies [true] exactly when the file existed, get-saved-password then
    replies [null], a second clear replies [false], and the session
    password, the records and the settings are those of before (the
    session stays unlocked). *)
Theorem cleared_password_is_forgotten
        {rt : Runtime} (appName root : string) (p : Process) :
  configured (world p) root ->
  let p' := snd (clear_saved_password p) in
  fst (clear_saved_password p)
  = match passwordFile p with Some _ => true | None => false end
  /\ passwordFile p' = None
  /\ fst (get_saved_password appName p') = None
  /\ fst (clear_saved_password p') = false
  /\ encryptionPassword (world p') = encryptionPassword (world p)
  /\ same_files p p'.
Proof.
  intros [Hp Hne]. cbv zeta. apply String.eqb_neq in Hne.
  assert (Hclear : forall q, dataPath (world q) = Some root ->
                             clear_saved_password q
                             = (match passwordFile q with Some _ => true | None => false end,
                                mkProcess (with_call (world q)
                                                     (Unlink (path_join root ".password")))
                                          None (storedDataPath q))).
  { intros q Hq. unfold clear_saved_password. rewrite Hq. cbn [truthy_str].
    rewrite Hne. cbn [negb]. now destruct (passwordFile q). }
  rewrite (Hclear p Hp). cbn [fst snd passwordFile world].
  split; [reflexivity|]. split; [reflexivity|]. split.
  - unfold get_saved_password. cbn [world dataPath with_call passwordFile].
    rewrite Hp. cbn [truthy_str]. rewrite Hne. reflexivity.
  - split; [|repeat split]. now rewrite Hclear.
Qed.

Lemma cleared_password_is_forgotten_witness :
  fst (clear_saved_password
         (snd (set_password "calorie-tracker" "s7" "hunter2" true
                            (mkProcess Sample.locked None (Some "/data"))))) = true
  /\ fst (get_saved_password "calorie-tracker"
            (snd (clear_saved_password
                    (snd (set_password "calorie-tracker" "s7" "hunter2" true
                                       (mkProcess Sample.locked None (Some "/data")))))))
     = None.
Proof.
  assert (Hc : configured
                 (world (snd (set_password "calorie-tracker" "s7" "hunter2" true
                                           (mkProcess Sample.locked None (Some "/data")))))
                 "/data") by (split; [reflexivity|discriminate]).
  destruct (cleared_password_is_forgotten (rt := Ref.runtime) "calorie-tracker" "/data"
              _ Hc) as (Hreply & _ & Hget & _).
  split; [exact Hreply|exact Hget].
Defined.

(** The data path lives in the process only until it ends.  After a
    restart the handlers fail as without a data folder, although the
    electron-store file holds the path: [ensureDataPath] reads the module
    variable alone.  get-data-path brings the stored path back into the
    variable and replies with it, and from then on the handlers work in
    that folder.  While the variable holds a path, get-data-path replies
    with it and changes nothing, whatever the store holds. *)
Theorem data_path_comes_back_from_the_store
        {rt : Runtime} (p : Process) (root : string) :
  storedDataPath p = Some root ->
  root <> "" ->
  let p0 := restart p in
  (forall startDate endDate,
      in_process (get_daily_entries startDate endDate) p0 = ([], p0))
  /\ fst (get_data_path p0) = Some root
  /\ configured (world (snd (get_data_path p0))) root
  /\ same_files p (snd (get_data_path p0))
  /\ passwordFile (snd (get_data_path p0)) = passwordFile p
  /\ forall q other, configured (world q) other -> get_data_path q = (Some other, q).
Proof.
  intros Hs Hne. cbv zeta.
  split; [|split; [|split; [|split; [|split]]]].
  - intros startDate endDate. unfold in_process.
    now rewrite (get_daily_entries_unconfigured (world (restart p)) startDate endDate).
  - unfold get_data_path, restart. cbn. exact Hs.
  - unfold get_data_path, restart. cbn. now split.
  - unfold get_data_path, restart. cbn. now split.
  - reflexivity.
  - intros q other [Hq Hother]. unfold get_data_path. rewrite Hq. cbn [truthy_str].
    apply String.eqb_neq in Hother. rewrite Hother. cbn [negb].
    rewrite Hq. now destruct q.
Qed.

Lemma data_path_comes_back_from_the_store_witness :
  fst (in_process (get_daily_entries None None)
                  (restart (mkProcess Sample.empty None (Some "/data")))) = []
  /\ fst (get_data_path (restart (mkProcess Sample.empty None (Some "/data"))))
     = Some "/data".
Proof.
  destruct (data_path_comes_back_from_the_store (rt := Ref.runtime)
              (mkProcess Sample.empty None (Some "/data")) "/data" eq_refl
              ltac:(discriminate)) as (Hbefore & Hpath & _).
  split; [now rewrite Hbefore|exact Hpath].
Defined.

(** ** Signing in, and coming back *)

Section SessionFacts.

Context {rt : Runtime}.

Lemma trim_nonempty s : Js.trim s <> "" -> s <> "".
Proof. intros H ->. now apply H. Qed.

Lemma in_process_eq {A} (h : handler A) p a w :
  h (world p) = (a, w) ->
  in_process h p = (a, mkProcess w (passwordFile p) (storedDataPath p)).
Proof. intros H. unfold in_process. now rewrite H. Qed.

(** What verify-password leaves when it accepts. *)
Lemma verify_password_accepts w root candidate :
  configured w root ->
  fst (verify_password candidate w) = true ->
  exists calls,
    verify_password candidate w
    = (true, with_password (logged w calls) (Some candidate)).
Proof.
  intros Hc Ht.
  destruct (verify_password_cases w root candidate Hc) as (calls & _ & [H|H]).
  - rewrite H in Ht. discriminate.
  - now exists calls.
Qed.

Lemma loadAppData_keeps st p :
  let r := App.loadAppData st p in
  App.isAuthenticated (fst r) = App.isAuthenticated st
  /\ App.dataPath (fst r) = App.dataPath st
  /\ App.dailyEntries (fst r)
     = fst (get_daily_entries None None (snd (get_app_data (world p))))
  /\ only_reads (world p) (world (snd r))
  /\ passwordFile (snd r) = passwordFile p
  /\ storedDataPath (snd r) = storedDataPath p.
Proof.
  cbv zeta. unfold App.loadAppData, in_process.
  pose proof (get_app_data_reads (world p)) as H1.
  destruct (get_app_data (world p)) as [data w1]. cbn [world snd] in *.
  pose proof (get_daily_entries_reads w1 None None) as H2.
  destruct (get_daily_entries None None w1) as [entries w2]. cbn [fst snd world] in *.
  destruct (truthy data); cbn; repeat split; try reflexivity;
    exact (only_reads_trans _ _ _ H1 H2).
Qed.

Lemma set_password_eq appName salt password remember q root :
  configured (world q) root ->
  set_password appName salt password remember q
  = (true,
     if remember
     then mkProcess (with_call (with_password (world q) (Some password))
                               (WriteFile (path_join root PASSWORD_FILE)
                                          (encrypt salt password appName)))
                    (Some (encrypt salt password appName)) (storedDataPath q)
     else mkProcess (with_password (world q) (Some password))
                    (passwordFile q) (storedDataPath q)).
Proof.
  intros [Hq Hne]. unfold set_password. cbn [dataPath with_password]. rewrite Hq.
  cbn [truthy_str]. apply String.eqb_neq in Hne. rewrite Hne. cbn [negb].
  rewrite andb_true_r. now destruct remember.
Qed.

(** The password screen, when it lets the user in. *)
Lemma handleSubmit_accepted appName salt password remember root p :
  configured (world p) root ->
  snd (fst (PasswordScreen.handleSubmit appName salt
              (PasswordScreen.mkState (Some root) password remember "") p))
  = Some root ->
  exists calls,
    password <> ""
    /\ fst (verify_password password (world p)) = true
    /\ snd (PasswordScreen.handleSubmit appName salt
              (PasswordScreen.mkState (Some root) password remember "") p)
       = snd (set_password appName salt password remember
                (mkProcess (with_password (logged (world p) calls) (Some password))
                           (passwordFile p) (storedDataPath p))).
Proof.
  intros Hc. unfold PasswordScreen.handleSubmit.
  cbn [PasswordScreen.dataPath PasswordScreen.password PasswordScreen.rememberMe].
  destruct Hc as [Hp Hne]. pose proof Hne as Hne'. apply String.eqb_neq in Hne'.
  cbn [truthy_str]. rewrite Hne'. cbn [negb].
  destruct (String.eqb (Js.trim password) "") eqn:Htrim; [discriminate|].
  apply String.eqb_neq in Htrim. apply trim_nonempty in Htrim.
  unfold in_process.
  destruct (verify_password password (world p)) as [isValid w1] eqn:Hv.
  destruct isValid; [|discriminate]. intros _.
  destruct (verify_password_accepts (world p) root password (conj Hp Hne)
              ltac:(now rewrite Hv)) as [calls Hw1].
  rewrite Hv in Hw1. injection Hw1 as ->.
  exists calls. split; [exact Htrim|]. split; [reflexivity|].
  now destruct (set_password appName salt password remember _).
Qed.

End SessionFacts.

(** Remember-me, end to end.  When the password screen lets the user in
    (the folder is chosen, the password is not blank and verify-password
    accepts it), the password is the session password.  If [rememberMe] was
    ticked, then after the application is closed and started again
    [checkForSavedSession] signs the user in without asking: it gets the
    data path from the store and the password from [.password], verifies
    it, loads the data and shows the dashboard, with the same session
    password and the same files.  If it was not ticked and no [.password]
    file exists, the application stays on the password screen with no
    session password. *)
Theorem remembered_session_comes_back
        {rt : Runtime} (appName salt password root : string) (remember : bool)
        (p : Process) :
  configured (world p) root ->
  storedDataPath p = Some root ->
  cipher_correct ->
  let submit :=
    PasswordScreen.handleSubmit appName salt
      (PasswordScreen.mkState (Some root) password remember "") p in
  snd (fst submit) = Some root ->
  let back := App.checkForSavedSession appName App.initial (restart (snd submit)) in
  encryptionPassword (world (snd submit)) = Some password
  /\ (remember = true ->
      App.isAuthenticated (fst back) = true
      /\ App.currentScreen (fst back) = App.dashboard
      /\ App.dataPath (fst back) = Some root
      /\ encryptionPassword (world (snd back)) = Some password
      /\ same_files (snd submit) (snd back))
  /\ (remember = false ->
      passwordFile p = None ->
      App.isAuthenticated (fst back) = false
      /\ App.currentScreen (fst back) = App.password_screen
      /\ encryptionPassword (world (snd back)) = None).
Proof.
  intros Hc Hs Hcorrect. cbv zeta. intros Hin.
  destruct (handleSubmit_accepted appName salt password remember root p Hc Hin)
    as (calls & Hpw & Hok & ->).
  set (p0 := mkProcess (with_password (logged (world p) calls) (Some password))
                       (passwordFile p) (storedDataPath p)).
  assert (Hc0 : configured (world p0) root) by (destruct Hc; now split).
  rewrite (set_password_eq appName salt password remember p0 root Hc0). cbn [snd].
  destruct Hc as [Hp Hne]. pose proof Hne as Hne'. apply String.eqb_neq in Hne'.
  pose proof Hpw as Hpw'. apply String.eqb_neq in Hpw'.
  split; [now destruct remember|]. split.
  - intros ->. unfold App.checkForSavedSession, get_data_path, restart.
    cbn [world dataPath truthy_str passwordFile storedDataPath p0 fst snd].
    rewrite Hs. cbn [truthy_str]. rewrite Hne'. cbn [negb].
    unfold get_saved_password.
    cbn [world dataPath truthy_str passwordFile storedDataPath p0 fst snd].
    rewrite Hne'. cbn [negb of_option exc_bind]. unfold decrypt, encrypt.
    rewrite Hcorrect. cbn [of_option truthy_str]. rewrite Hpw'. cbn [negb].
    match goal with
    | |- context [in_process (verify_password password)
                             (mkProcess ?w ?f ?d)] =>
        set (w2 := w); set (q2 := mkProcess w2 f d)
    end.
    assert (Hc2 : configured w2 root) by now split.
    assert (Ha2 : appData (world p) = appData w2) by reflexivity.
    assert (Hd2 : daily w2 = daily (world p)) by reflexivity.
    pose proof (verify_password_result (world p) w2 root password (conj Hp Hne) Hc2 Ha2)
      as Hsame.
    rewrite Hok in Hsame. symmetry in Hsame.
    destruct (verify_password_accepts w2 root password Hc2 Hsame) as [calls2 Hv2].
    rewrite (in_process_eq _ q2 _ _ Hv2).
    cbn [passwordFile storedDataPath q2].
    match goal with
    | |- context [App.loadAppData ?st ?q] =>
        pose proof (loadAppData_keeps st q) as Hload;
        destruct (App.loadAppData st q) as [st3 q3]
    end.
    cbv zeta in Hload. cbn [fst snd world App.isAuthenticated App.dataPath] in Hload.
    destruct Hload as (_ & Hpath & _ & (calls3 & Hw3 & _) & _).
    cbn [fst snd App.isAuthenticated App.currentScreen App.dataPath].
    split; [reflexivity|]. split; [reflexivity|]. split; [exact Hpath|].
    unfold same_files. cbn [world]. rewrite Hw3. split; [reflexivity|]. split; reflexivity.
  - intros -> Hnone. unfold App.checkForSavedSession, get_data_path, restart.
    cbn [world dataPath truthy_str passwordFile storedDataPath p0 fst snd].
    rewrite Hs. cbn [truthy_str]. rewrite Hne'. cbn [negb].
    unfold get_saved_password.
    cbn [world dataPath truthy_str passwordFile storedDataPath p0 fst snd].
    rewrite Hne'. cbn [negb]. rewrite Hnone. cbn [of_option exc_bind fst snd].
    repeat split.
Qed.

Lemma remembered_session_comes_back_witness :
  App.isAuthenticated
    (fst (App.checkForSavedSession "calorie-tracker" App.initial
            (restart
               (snd (PasswordScreen.handleSubmit "calorie-tracker" "s7"
                       (PasswordScreen.mkState (Some "/data") "hunter2" true "")
                       (mkProcess Sample.locked None (Some "/data")))))))
  = true.
Proof.
  assert (Hc : configured Sample.locked "/data") by (split; [reflexivity|discriminate]).
  assert (Hin : snd (fst (PasswordScreen.handleSubmit "calorie-tracker" "s7"
                            (PasswordScreen.mkState (Some "/data") "hunter2" true "")
                            (mkProcess Sample.locked None (Some "/data"))))
                = Some "/data") by (vm_compute; reflexivity).
  destruct (remembered_session_comes_back (rt := Ref.runtime) "calorie-tracker" "s7"
              "hunter2" "/data" true (mkProcess Sample.locked None (Some "/data"))
              Hc eq_refl RefFacts.cipher_correct Hin) as (_ & Hyes & _).
  exact (proj1 (Hyes eq_refl)).
Defined.

(** ** The empty password *)

(** verify-password does not refuse the empty password: on a data folder
    without a settings file it accepts it and makes it the session
    password.  A record saved in that session is stored in clear: the body
    of its file is the JSON text itself and the header says
    [encrypted: false]. *)
Theorem empty_password_stores_in_clear
        {rt : Runtime} (w : World) (root salt : string) (entry validated : value) :
  configured w root ->
  appData w = None ->
  Zod.validateData Zod.DailyEntrySchema entry = inl validated ->
  let w' := snd (verify_password "" w) in
  fst (verify_password "" w) = true
  /\ encryptionPassword w' = Some ""
  /\ lookup (date_string validated ++ ".md") (daily (snd (save_daily_entry salt entry w')))
     = Some (matter_stringify
               (JSON_stringify validated)
               (VObj [ ("date", VStr (date_string validated));
                       ("totalCalories", VNum (Csv.total "calories" validated));
                       ("encrypted", VBool false) ])).
Proof.
  intros Hc Ha Hv. cbv zeta.
  rewrite (verify_password_fresh _ _ _ Hc Ha). cbn [fst snd].
  split; [reflexivity|]. split; [reflexivity|].
  set (w1 := with_password _ _).
  assert (Hc1 : configured w1 root) by (destruct Hc; now split).
  rewrite (save_daily_entry_valid _ _ _ _ _ Hc1 Hv). cbn [snd daily with_daily].
  now rewrite lookup_set_key_same.
Qed.

Lemma empty_password_stores_in_clear_witness :
  lookup "2026-01-10.md"
         (daily (snd (save_daily_entry "s1" Sample.jan10
                        (snd (verify_password "" Sample.empty)))))
  = Some (matter_stringify (JSON_stringify Sample.jan10)
            (VObj [ ("date", VStr "2026-01-10"); ("totalCalories", VNum 255);
                    ("encrypted", VBool false) ])).
Proof.
  assert (Hc : configured Sample.empty "/data") by (split; [reflexivity|discriminate]).
  assert (Hv : Zod.validateData Zod.DailyEntrySchema Sample.jan10 = inl Sample.jan10)
    by (vm_compute; reflexivity).
  exact (proj2 (proj2 (empty_password_stores_in_clear (rt := Ref.runtime) Sample.empty
                         "/data" "s1" Sample.jan10 Sample.jan10 Hc eq_refl Hv))).
Defined.

(** ** Files of the directory that are not records *)

Section StrayFacts.

Context {rt : Runtime}.

Lemma lookup_insert_other {A} f name (c : A) before after :
  f <> name ->
  lookup f (before ++ (name, c) :: after) = lookup f (before ++ after).
Proof.
  intros Hne. induction before as [|[k v] before IH]; simpl.
  - apply String.eqb_neq in Hne. now rewrite Hne.
  - now rewrite IH.
Qed.

Lemma stored_files_stray w before after name content :
  daily w = (before ++ after)%list ->
  Js.endsWith name ".md" = false ->
  stored_files (with_daily w (before ++ (name, content) :: after)) = stored_files w.
Proof.
  intros Hd Hname. unfold stored_files. cbn [daily with_daily]. rewrite Hd.
  rewrite !map_app. cbn [map fst]. rewrite !filter_app. cbn [filter].
  rewrite Hname. rewrite <- !filter_app, <- !map_app.
  apply map_ext_in. intros f Hin. apply filter_In in Hin. destruct Hin as [_ Hmd].
  rewrite lookup_insert_other; [reflexivity|]. intros ->. congruence.
Qed.

End StrayFacts.

(** A file of [daily/] whose name does not end in [.md] (a [.DS_Store], a
    backup copy) is ignored wherever it stands in the directory: the
    listing and the search make the calls and give the replies they would
    without it, so the file is not read. *)
Theorem files_without_md_are_ignored
        {rt : Runtime} (w : World) (before after : list (string * string))
        (name content : string) (startDate endDate : option string)
        (query : string) (tags : list string) :
  daily w = (before ++ after)%list ->
  Js.endsWith name ".md" = false ->
  let w' := with_daily w (before ++ (name, content) :: after) in
  stored_files w' = stored_files w
  /\ fst (get_daily_entries startDate endDate w')
     = fst (get_daily_entries startDate endDate w)
  /\ fsLog (snd (get_daily_entries startDate endDate w'))
     = fsLog (snd (get_daily_entries startDate endDate w))
  /\ fst (search_entries query tags w') = fst (search_entries query tags w)
  /\ fsLog (snd (search_entries query tags w'))
     = fsLog (snd (search_entries query tags w)).
Proof.
  intros Hd Hname. cbv zeta.
  pose proof (stored_files_stray w before after name content Hd Hname) as Hfiles.
  split; [exact Hfiles|].
  assert (Hentries : stored_entries (with_daily w (before ++ (name, content) :: after))
                     = stored_entries w).
  { unfold stored_entries. now rewrite Hfiles. }
  destruct (configured_or_not w) as [[root Hc]|Hu].
  - assert (Hc' : configured (with_daily w (before ++ (name, content) :: after)) root)
      by (destruct Hc; now split).
    rewrite (get_daily_entries_eq _ _ _ _ Hc), (get_daily_entries_eq _ _ _ _ Hc').
    rewrite (search_entries_eq _ _ _ _ Hc), (search_entries_eq _ _ _ _ Hc').
    cbn [fst snd fsLog logged with_daily]. unfold load_calls.
    rewrite Hentries, Hfiles. repeat split.
  - assert (Hu' : unconfigured (with_daily w (before ++ (name, content) :: after)))
      by exact Hu.
    rewrite !(get_daily_entries_unconfigured _ _ _ Hu),
      !(get_daily_entries_unconfigured _ _ _ Hu'),
      !(search_entries_unconfigured _ _ _ Hu), !(search_entries_unconfigured _ _ _ Hu').
    repeat split.
Qed.

Lemma files_without_md_are_ignored_witness :
  map date_string
      (fst (get_daily_entries None None
              (with_daily Sample.two_days
                          ((".DS_Store", "Bud1") :: daily Sample.two_days))))
  = ["2026-01-11"; "2026-01-10"].
Proof.
  destruct (files_without_md_are_ignored (rt := Ref.runtime)
              Sample.two_days [] (daily Sample.two_days) ".DS_Store" "Bud1"
              None None "" [] eq_refl eq_refl) as (_ & H & _).
  cbn [app] in H. rewrite H. vm_compute. reflexivity.
Defined.

(** ** calculations.ts *)

(** The totals of a list of meals are the totals of their foods, meal
    after meal: [calculateMealTotals(meals)] equals [calculateFoodTotals]
    of the concatenated food lists, to the last bit, since both add the
    same numbers in the same order (nothing is assumed of the addition). *)
Theorem meal_totals_are_food_totals
        (number : Type) (plus : number -> number -> number) (zero : number)
        (meals : list (Calculations.MealEntry number)) :
  Calculations.calculateMealTotals number plus zero meals
  = Calculations.calculateFoodTotals number plus zero
      (flat_map (Calculations.foods number) meals).
Proof.
  unfold Calculations.calculateMealTotals, Calculations.calculateFoodTotals.
  generalize (Calculations.none number zero).
  induction meals as [|meal meals IH]; intros totals; cbn [fold_left flat_map].
  - reflexivity.
  - now rewrite IH, fold_left_app.
Qed.

(** ** Replies within the full listing *)

(** A search and a listing with bounds never reply with a record the
    listing without bounds does not have: in every world, each record of
    their replies is a record of [getDailyEntries()]. *)
Theorem replies_are_records_of_the_full_listing
        {rt : Runtime} (w : World) (startDate endDate : option string)
        (query : string) (tags : list string) :
  incl (fst (search_entries query tags w)) (fst (get_daily_entries None None w))
  /\ incl (fst (get_daily_entries startDate endDate w))
          (fst (get_daily_entries None None w)).
Proof.
  destruct (configured_or_not w) as [[root Hc]|Hu].
  - rewrite (search_entries_eq _ _ _ _ Hc), !(get_daily_entries_eq _ _ _ _ Hc).
    cbn [fst]. destruct (stored_entries w) as [entries|e]; [|split; apply incl_refl].
    assert (Hall : forall l, incl l entries ->
                             incl l (js_sort by_date_desc (range_filter None None entries))).
    { intros l Hl x Hx. eapply Permutation_in; [symmetry; apply js_sort_perm|].
      now apply Hl. }
    split.
    + destruct (search_filter query tags entries) as [found|e] eqn:Hf.
      * apply Hall. exact (search_filter_incl _ _ _ _ Hf).
      * intros x [].
    + apply Hall. intros x Hx.
      apply (range_filter_incl startDate endDate).
      eapply Permutation_in; [apply js_sort_perm|exact Hx].
  - rewrite (search_entries_unconfigured _ _ _ Hu),
      !(get_daily_entries_unconfigured _ _ _ Hu).
    split; apply incl_refl.
Qed.

(** ** A sign-in that is refused *)

Section RefusalFacts.

Context {rt : Runtime}.

Lemma verify_password_refuses w candidate :
  fst (verify_password candidate w) = false ->
  only_reads w (snd (verify_password candidate w)).
Proof.
  intros Hf. destruct (configured_or_not w) as [[root Hc]|Hu].
  - destruct (verify_password_cases w root candidate Hc) as (calls & Hr & [H|H]);
      rewrite H in *; [|discriminate].
    now exists calls.
  - rewrite (verify_password_unconfigured _ _ Hu). apply only_reads_refl.
Qed.

End RefusalFacts.

(** A sign-in that the password screen refuses leaves no trace.  Without a
    chosen folder or with a blank password the screen calls nothing and
    the process is untouched; with a password verify-password refuses,
    set-password is not called: the session password and the [.password]
    file stay what they were, and nothing is written.  In each case
    [onAuthenticated] is not called and the screen shows an error. *)
Theorem refused_sign_in_leaves_no_trace
        {rt : Runtime} (appName salt : string) (st : PasswordScreen.State)
        (p : Process) :
  let submit := PasswordScreen.handleSubmit appName salt st p in
  snd (fst submit) = None ->
  PasswordScreen.error (fst (fst submit)) <> ""
  /\ only_reads (world p) (world (snd submit))
  /\ passwordFile (snd submit) = passwordFile p
  /\ storedDataPath (snd submit) = storedDataPath p
  /\ ((truthy_str (PasswordScreen.dataPath st) = false
       \/ Selection.blank (PasswordScreen.password st) = true) ->
      snd submit = p).
Proof.
  cbv zeta. unfold PasswordScreen.handleSubmit, Selection.blank.
  destruct (PasswordScreen.dataPath st) as [path|] eqn:Hpath.
  - destruct (truthy_str (Some path)) eqn:Htruthy; cbn [negb].
    + destruct (String.eqb (Js.trim (PasswordScreen.password st)) "") eqn:Hblank.
      * intros _. cbn [fst snd PasswordScreen.error].
        split; [discriminate|]. split; [apply only_reads_refl|]. now repeat split.
      * unfold in_process.
        pose proof (verify_password_refuses (world p) (PasswordScreen.password st)) as Hr.
        destruct (verify_password (PasswordScreen.password st) (world p))
          as [isValid w1].
        destruct isValid.
        -- destruct (set_password appName salt (PasswordScreen.password st)
                                  (PasswordScreen.rememberMe st) _).
           discriminate.
        -- intros _. cbn [fst snd PasswordScreen.error world passwordFile storedDataPath].
           split; [discriminate|]. split; [exact (Hr eq_refl)|].
           split; [reflexivity|]. split; [reflexivity|].
           intros [H|H]; discriminate.
    + intros _. cbn [fst snd PasswordScreen.error].
      split; [discriminate|]. split; [apply only_reads_refl|]. now repeat split.
  - intros _. cbn [fst snd PasswordScreen.error].
    split; [discriminate|]. split; [apply only_reads_refl|]. now repeat split.
Qed.

Lemma refused_sign_in_leaves_no_trace_witness :
  encryptionPassword
    (world (snd (PasswordScreen.handleSubmit "calorie-tracker" "s7"
                   (PasswordScreen.mkState (Some "/data") "guess" true "")
                   (mkProcess Sample.locked None (Some "/data")))))
  = None
  /\ passwordFile
       (snd (PasswordScreen.handleSubmit "calorie-tracker" "s7"
               (PasswordScreen.mkState (Some "/data") "guess" true "")
               (mkProcess Sample.locked None (Some "/data"))))
     = None.
Proof.
  assert (Hin : snd (fst (PasswordScreen.handleSubmit "calorie-tracker" "s7"
                            (PasswordScreen.mkState (Some "/data") "guess" true "")
                            (mkProcess Sample.locked None (Some "/data"))))
                = None) by (vm_compute; reflexivity).
  destruct (refused_sign_in_leaves_no_trace (rt := Ref.runtime) "calorie-tracker" "s7"
              (PasswordScreen.mkState (Some "/data") "guess" true "")
              (mkProcess Sample.locked None (Some "/data")) Hin)
    as (_ & (calls & Hw & _) & Hfile & _).
  split; [now rewrite Hw|exact Hfile].
Defined.
